(** * QSDsan dynamic unit nodes: Mixer, Splitter, Pump, HydraulicDelay,
      ComponentSplitter

    A shallow embedding of [qsdsan/sanunits/_abstract.py] and
    [qsdsan/sanunits/_pumping.py].

    - A Python object is a record of its attributes; a method is a
      computation in a small monad that threads the object ([self]),
      may raise, and keeps the object as it was at the moment of the raise.
    - numpy arrays are lists of scalars (1-D) and lists of rows (2-D).
      The scalar type is a parameter: the exact rationals give the
      idealised arithmetic in which the algebraic identities are stated,
      IEEE binary64 gives the machine arithmetic numpy runs.
    - The arrays are used under the error mode that the packages these
      files import set for numpy: the division of a number by zero raises
      [FloatingPointError] instead of yielding inf or nan. The entries of
      the arrays are numbers; what binary64 does with infinities and nans
      is not followed. The monad keeps the list of divisors of every
      division that was evaluated, so that what is divided by what can be
      stated.
    - The components of a unit are those of the thermodynamic package in
      use when it is created. Their registry, which is not in these
      files, finds a component by its ID and by the other names it has
      for it (CAS numbers, synonyms); a unit carries the IDs and a map
      from the other names to the IDs. *)

From Stdlib Require Import ZArith QArith Qcanon Floats Lia List Bool.
From stdpp Require Import base option list gmap strings.

Set Default Proof Using "Type".

(* ================================================================== *)
(** ** Scalars *)
(* ================================================================== *)

(** The arithmetic the code uses on array entries: [+ - * /], the
    literals [0] and [1], decimal literals such as [1e-4], and the test
    [x == 0]. *)
Class Num (A : Type) : Type := {
  nzero : A;
  nunit : A;
  nlit : Q -> A;
  nadd : A -> A -> A;
  nsub : A -> A -> A;
  nmul : A -> A -> A;
  ndiv : A -> A -> A;
  is_zero : A -> bool
}.

Infix "⊕" := nadd (at level 50, left associativity).
Infix "⊖" := nsub (at level 50, left associativity).
Infix "⊗" := nmul (at level 40, left associativity).
Infix "⊘" := ndiv (at level 40, left associativity).

(** Exact rationals in canonical form: equality is Leibniz equality. *)
#[export] Instance Num_Qc : Num Qc := {|
  nzero := Q2Qc 0;
  nunit := Q2Qc 1;
  nlit := Q2Qc;
  nadd := Qcplus;
  nsub := Qcminus;
  nmul := Qcmult;
  ndiv := Qcdiv;
  is_zero := fun x => bool_decide (x = Q2Qc 0)
|}.

(** IEEE 754 binary64, the dtype of the arrays. A decimal literal [p/q]
    with [p] and [q] below [2^53] is the correctly rounded quotient. *)
Definition float_of_Z (z : Z) : float :=
  match z with
  | Z0 => 0%float
  | Zpos p => PrimFloat.of_uint63 (Uint63.of_pos p)
  | Zneg p => PrimFloat.opp (PrimFloat.of_uint63 (Uint63.of_pos p))
  end.

Definition float_of_Q (q : Q) : float :=
  PrimFloat.div (float_of_Z (Qnum q)) (float_of_Z (Zpos (Qden q))).

#[export] Instance Num_float : Num float := {|
  nzero := 0%float;
  nunit := 1%float;
  nlit := float_of_Q;
  nadd := PrimFloat.add;
  nsub := PrimFloat.sub;
  nmul := PrimFloat.mul;
  ndiv := PrimFloat.div;
  is_zero := fun x => PrimFloat.eqb x 0%float
|}.

(* ================================================================== *)
(** ** Exceptions and the method monad *)
(* ================================================================== *)

(** The [ValueError]s the two files raise themselves, and the one numpy
    raises when two shapes do not broadcast. *)
Inductive value_error : Type :=
| state_must_be_1D            (* the [state] setters *)
| split_keys_cannot_be_empty  (* ComponentSplitter.__init__ *)
| split_keys_must_be_iterable (* ComponentSplitter._run *)
| appears_more_than_once      (* ComponentSplitter._run *)
| size_cannot_be_changed      (* ComponentSplitter.split_keys setter *)
| could_not_broadcast.        (* numpy *)

Inductive exn : Type :=
| ValueError (why : value_error)
| IndexError       (* index out of range *)
| TypeError        (* subscripting or multiplying [None] *)
| AttributeError   (* attribute never assigned, property without setter *)
| UndefinedChemical (ID : string)
| FloatingPointError. (* numpy, on a division by zero *)

(** A value or an exception. *)
Definition res (X : Type) : Type := exn + X.

Definition res_bind {X Y : Type} (r : res X) (f : X -> res Y) : res Y :=
  match r with
  | inl e => inl e
  | inr x => f x
  end.

Fixpoint res_mapM {X Y : Type} (f : X -> res Y) (l : list X) : res (list Y) :=
  match l with
  | [] => inr []
  | x :: l' => res_bind (f x) (fun y => res_bind (res_mapM f l') (fun ys => inr (y :: ys)))
  end.

(** What running a method on an object [S] leaves behind: the divisors
    of the divisions it evaluated, in order; the object as the method left
    it; and the returned value or the exception raised. *)
Record Run (A S X : Type) : Type := MkRun {
  divisors : list A;
  final : S;
  outcome : res X
}.
Arguments MkRun {A S X} _ _ _.
Arguments divisors {A S X} _.
Arguments final {A S X} _.
Arguments outcome {A S X} _.

Definition M (A S X : Type) : Type := S -> Run A S X.

Section Monad.
Context {A S : Type}.

Definition ret {X} (x : X) : M A S X := fun s => MkRun [] s (inr x).

Definition raise {X} (e : exn) : M A S X := fun s => MkRun [] s (inl e).

Definition bind {X Y} (m : M A S X) (f : X -> M A S Y) : M A S Y := fun s =>
  let r := m s in
  match outcome r with
  | inl e => MkRun (divisors r) (final r) (inl e)
  | inr x =>
      let r' := f x (final r) in
      MkRun (divisors r ++ divisors r') (final r') (outcome r')
  end.

Definition lift {X} (r : res X) : M A S X := fun s => MkRun [] s r.

(** Read an attribute, assign attributes. *)
Definition gets {X} (f : S -> X) : M A S X := fun s => MkRun [] s (inr (f s)).
Definition modify (f : S -> S) : M A S unit := fun s => MkRun [] (f s) (inr tt).

(** Read an attribute that is an array: [None] cannot be subscripted
    or multiplied. *)
Definition gets_array {X} (f : S -> option X) : M A S X := fun s =>
  MkRun [] s (match f s with Some x => inr x | None => inl TypeError end).

(** Read an attribute that exists only once it has been assigned. *)
Definition gets_attr {X} (f : S -> option X) : M A S X := fun s =>
  MkRun [] s (match f s with Some x => inr x | None => inl AttributeError end).
End Monad.

(** A run with one more divisor in front. *)
Definition logged {A S X} (y : A) (r : Run A S X) : Run A S X :=
  MkRun (y :: divisors r) (final r) (outcome r).

#[export] Instance M_ret {A S} : MRet (M A S) := fun X x => ret x.
#[export] Instance M_bind {A S} : MBind (M A S) := fun X Y f m => bind m f.

(** Some division evaluated during the run had a zero divisor. *)
Definition divides_by_zero {A S X} `{Num A} (r : Run A S X) : bool :=
  existsb is_zero (divisors r).

(* ================================================================== *)
(** ** numpy on 1-D and 2-D arrays *)
(* ================================================================== *)

Section Numpy.
Context {A : Type} `{NA : Num A}.

(** [v[-1]] *)
Definition item_last (v : list A) : res A :=
  match last v with
  | Some x => inr x
  | None => inl IndexError
  end.

(** [v[:-1]] *)
Definition but_last (v : list A) : list A := removelast v.

(** [m[0]] *)
Definition row0 (m : list (list A)) : res (list A) :=
  match m with
  | r :: _ => inr r
  | [] => inl IndexError
  end.

(** [m[:, -1]] and [m[:, :-1]] *)
Definition col_last (m : list (list A)) : res (list A) := res_mapM item_last m.
Definition cols_but_last (m : list (list A)) : list (list A) := map but_last m.

(** [v.sum()] *)
Definition sum (v : list A) : A := foldl nadd nzero v.

(** [np.append(v, x)] *)
Definition append (v : list A) (x : A) : list A := v ++ [x].

(** Elementwise binary operation on two 1-D arrays; an array of length
    one is stretched, any other difference of lengths does not
    broadcast. *)
Definition broadcast (f : A -> A -> A) (u v : list A) : res (list A) :=
  if decide (length u = length v) then inr (zip_with f u v)
  else match u, v with
       | [x], _ => inr (map (f x) v)
       | _, [y] => inr (map (fun x => f x y) u)
       | _, _ => inl (ValueError could_not_broadcast)
       end.

(** Scalar with array. *)
Definition scale (x : A) (v : list A) : list A := map (nmul x) v.

(** Column [j] of a matrix given by its rows. *)
Definition column (j : nat) (m : list (list A)) : list A :=
  map (fun r => nth j r nzero) m.

Definition dot (u v : list A) : A := sum (zip_with nmul u v).

(** [u @ m] for a 1-D [u] and a 2-D [m]: entry [j] is the sum over the
    rows [i] of [u[i] * m[i, j]]. *)
Definition matmul (u : list A) (m : list (list A)) : res (list A) :=
  if decide (length u = length m)
  then inr (map (fun j => dot u (column j m)) (seq 0 (length (hd [] m))))
  else inl (ValueError could_not_broadcast).

(** [v[-1] = x] *)
Definition set_last (v : list A) (x : A) : res (list A) :=
  match v with
  | [] => inl IndexError
  | _ => inr (but_last v ++ [x])
  end.

(** [v[:-1] = w] *)
Definition set_but_last (v w : list A) : res (list A) :=
  match last v with
  | None => match w with
            | [] | [_] => inr []
            | _ => inl (ValueError could_not_broadcast)
            end
  | Some x =>
      if decide (length w = length (but_last v)) then inr (w ++ [x])
      else match w with
           | [y] => inr (map (fun _ => y) (but_last v) ++ [x])
           | _ => inl (ValueError could_not_broadcast)
           end
  end.

(** Division of a scalar, and of every entry of an array, by a scalar.
    With numpy set to raise on a division by zero and on an invalid
    operation, a zero divisor raises [FloatingPointError] and no result
    exists; an array without entries is divided by anything, since no
    entry is. The divisor is recorded. *)
Definition divide {S} (x y : A) : M A S A := fun s =>
  MkRun [y] s (if is_zero y then inl FloatingPointError else inr (x ⊘ y)).
Definition divide_all {S} (v : list A) (y : A) : M A S (list A) := fun s =>
  MkRun [y] s
    (match v with
     | [] => inr []
     | _ :: _ =>
         if is_zero y then inl FloatingPointError
         else inr (map (fun x => x ⊘ y) v)
     end).
End Numpy.

(* ================================================================== *)
(** ** Streams *)
(* ================================================================== *)

Module Stream.
(** What a unit reads from and writes into a stream: the dynamic state
    and its derivative ([None] until a producer has written them) and
    the component mass flows, a missing key standing for a flow of 0. *)
Record t (A : Type) : Type := Mk {
  _state : option (list A);
  _dstate : option (list A);
  imass : gmap string A
}.
Arguments Mk {A} _ _ _.
Arguments _state {A} _.
Arguments _dstate {A} _.
Arguments imass {A} _.

Section Ops.
Context {A : Type} `{NA : Num A}.

Definition set_state (v : option (list A)) (s : t A) : t A :=
  Mk v (_dstate s) (imass s).
Definition set_dstate (v : option (list A)) (s : t A) : t A :=
  Mk (_state s) v (imass s).
Definition set_imass (m : gmap string A) (s : t A) : t A :=
  Mk (_state s) (_dstate s) m.

(** Modelled from the spec: [Stream.empty], of the stream class that
    is not in these files. Section 6: a stream buffer supports
    "empty" (clear to a zero/undefined state): the flows become zero,
    the two vectors undefined. *)
Definition empty (s : t A) : t A := Mk None None ∅.

(** A stream nobody has written to. *)
Definition fresh : t A := Mk None None ∅.

(** Modelled from the spec: [Stream.mix_from], of the stream class
    that is not in these files. Section 4.6: combine all inputs into
    the buffer, as if fully merged: the flows of each component are
    added up, replacing what the stream held. *)
Definition mix_from (ins : list (t A)) (s : t A) : t A :=
  set_imass
    (foldl (fun acc i => union_with (fun x y => Some (x ⊕ y)) acc (imass i)) ∅ ins)
    s.
End Ops.
End Stream.

(* ================================================================== *)
(** ** Unit nodes with a dynamic state *)
(* ================================================================== *)

(** The functions [dy_dt] that [_compile_ODE] builds, with what each one
    captures from [self] when it is built. *)
Inductive closure (A : Type) : Type :=
| Mixer_dy_dt (_n_ins : nat)
| Splitter_dy_dt
| Pump_dy_dt
| HydraulicDelay_dy_dt (T : A).
Arguments Mixer_dy_dt {A} _.
Arguments Splitter_dy_dt {A}.
Arguments Pump_dy_dt {A}.
Arguments HydraulicDelay_dy_dt {A} _.

Module SanUnit.
(** The attributes of a unit that the methods of the two files read or
    assign. An attribute that only some classes assign is [None] while
    it has not been assigned. *)
Record t (A : Type) : Type := Mk {
  ins : list (Stream.t A);
  outs : list (Stream.t A);
  components : list string;              (* self.components.IDs *)
  _state : option (list A);
  _dstate : option (list A);
  _ODE : option (closure A);
  split : option (list A);               (* Splitter *)
  _split_out0_state : option (list A);   (* Splitter, after _init_state *)
  _split_out1_state : option (list A);
  t_delay : option A;                    (* HydraulicDelay *)
  _concs : option (list A);              (* HydraulicDelay; None is Python's None *)
  synonyms : gmap string string          (* self.components: other names, see [index] *)
}.
Arguments Mk {A} _ _ _ _ _ _ _ _ _ _ _ _.
Arguments ins {A} _.
Arguments outs {A} _.
Arguments components {A} _.
Arguments _state {A} _.
Arguments _dstate {A} _.
Arguments _ODE {A} _.
Arguments split {A} _.
Arguments _split_out0_state {A} _.
Arguments _split_out1_state {A} _.
Arguments t_delay {A} _.
Arguments _concs {A} _.
Arguments synonyms {A} _.

Section Ops.
Context {A : Type} `{NA : Num A}.
Implicit Type u : t A.

Definition set_outs (x : list (Stream.t A)) u : t A :=
  Mk (ins u) x (components u) (_state u) (_dstate u) (_ODE u) (split u)
     (_split_out0_state u) (_split_out1_state u) (t_delay u) (_concs u) (synonyms u).
Definition set_state (x : option (list A)) u : t A :=
  Mk (ins u) (outs u) (components u) x (_dstate u) (_ODE u) (split u)
     (_split_out0_state u) (_split_out1_state u) (t_delay u) (_concs u) (synonyms u).
Definition set_dstate (x : option (list A)) u : t A :=
  Mk (ins u) (outs u) (components u) (_state u) x (_ODE u) (split u)
     (_split_out0_state u) (_split_out1_state u) (t_delay u) (_concs u) (synonyms u).
Definition set_ODE (x : option (closure A)) u : t A :=
  Mk (ins u) (outs u) (components u) (_state u) (_dstate u) x (split u)
     (_split_out0_state u) (_split_out1_state u) (t_delay u) (_concs u) (synonyms u).
Definition set_split_out0_state (x : option (list A)) u : t A :=
  Mk (ins u) (outs u) (components u) (_state u) (_dstate u) (_ODE u) (split u)
     x (_split_out1_state u) (t_delay u) (_concs u) (synonyms u).
Definition set_split_out1_state (x : option (list A)) u : t A :=
  Mk (ins u) (outs u) (components u) (_state u) (_dstate u) (_ODE u) (split u)
     (_split_out0_state u) x (t_delay u) (_concs u) (synonyms u).
Definition set_split (x : option (list A)) u : t A :=
  Mk (ins u) (outs u) (components u) (_state u) (_dstate u) (_ODE u) x
     (_split_out0_state u) (_split_out1_state u) (t_delay u) (_concs u) (synonyms u).
Definition set_t_delay (x : option A) u : t A :=
  Mk (ins u) (outs u) (components u) (_state u) (_dstate u) (_ODE u) (split u)
     (_split_out0_state u) (_split_out1_state u) x (_concs u) (synonyms u).
Definition set_concs (x : option (list A)) u : t A :=
  Mk (ins u) (outs u) (components u) (_state u) (_dstate u) (_ODE u) (split u)
     (_split_out0_state u) (_split_out1_state u) (t_delay u) x (synonyms u).

(** The registry of components with other names for its components. *)
Definition set_synonyms (x : gmap string string) u : t A :=
  Mk (ins u) (outs u) (components u) (_state u) (_dstate u) (_ODE u) (split u)
     (_split_out0_state u) (_split_out1_state u) (t_delay u) (_concs u) x.

(** Modelled from the spec: [SanUnit.__init__], of the base class
    that is not in these files. Section 3: a unit node owns a state
    vector that may be undefined and a compiled derivative function
    that is absent until first requested; nothing exists before
    [init_state] creates it. The registry of components is given by its
    IDs; [set_synonyms] gives it other names. *)
Definition __init__ (ins outs : list (Stream.t A)) (components : list string) : t A :=
  Mk ins outs components None None None None None None None None ∅.

(** Modelled from the spec: [SanUnit._collect_ins_state], of the base
    class that is not in these files. Section 4.2: collect the state
    vectors of all inputs into a matrix, one row per input. *)
Definition _collect_ins_state : M A (t A) (list (list A)) := fun u =>
  MkRun [] u
    (res_mapM (fun s => match Stream._state s with
                        | Some v => inr v
                        | None => inl TypeError
                        end) (ins u)).

(** [self._outs[i]._state = v] and [self._outs[i]._dstate = v] *)
Definition set_out_state (i : nat) (v : option (list A)) : M A (t A) unit := fun u =>
  match outs u !! i with
  | Some s => MkRun [] (set_outs (<[i := Stream.set_state v s]> (outs u)) u) (inr tt)
  | None => MkRun [] u (inl IndexError)
  end.
Definition set_out_dstate (i : nat) (v : option (list A)) : M A (t A) unit := fun u =>
  match outs u !! i with
  | Some s => MkRun [] (set_outs (<[i := Stream.set_dstate v s]> (outs u)) u) (inr tt)
  | None => MkRun [] u (inl IndexError)
  end.

(** [for s in self.outs: s.empty()] *)
Definition empty_outs : M A (t A) unit :=
  modify (fun u => set_outs (map Stream.empty (outs u)) u).

(** [dict(zip(list(self.components.IDs) + ['Q'], self._state))], the
    body of the three [state] properties. *)
Definition state : M A (t A) (option (list (string * A))) :=
  st ← gets _state;
  match st with
  | None => mret None
  | Some v => IDs ← gets components; mret (Some (zip (IDs ++ ["Q"%string]) v))
  end.

(** The value given to a [state] setter, as [np.asarray] sees it. *)
Inductive array_like : Type :=
| Array0 (x : A)
| Array1 (v : list A)
| Array2 (m : list (list A)).

Definition shape (a : array_like) : list nat :=
  match a with
  | Array0 _ => []
  | Array1 v => [length v]
  | Array2 m => [length m; length (hd [] m)]
  end.

(** The [state] setter of Splitter and of Pump. Only a 1-D array has a
    shape of one entry, so the last branch is never taken. *)
Definition state_setter (QCs : array_like) : M A (t A) unit :=
  IDs ← gets components;
  if decide (shape QCs ≠ [length IDs + 1]) then raise (ValueError state_must_be_1D)
  else match QCs with
       | Array1 v => modify (set_state (Some v))
       | _ => raise (ValueError state_must_be_1D)
       end.
End Ops.
End SanUnit.


(* ================================================================== *)
(** ** class Mixer *)
(* ================================================================== *)

Module Mixer.
Section Methods.
Context {A : Type} `{NA : Num A}.
Abbreviation self := (SanUnit.t A).

Definition reset_cache : M A self unit :=
  modify (SanUnit.set_state None);;
  SanUnit.empty_outs.

Definition state : M A self (option (list (string * A))) := SanUnit.state.

(** [Mixer] redefines the property [state] without a setter. *)
Definition state_setter (QCs : @SanUnit.array_like A) : M A self unit :=
  raise AttributeError.

Definition _init_state : M A self unit :=
  QCs ← SanUnit._collect_ins_state;
  (if decide (length QCs <= 1) then
     r ← lift (row0 QCs);
     modify (SanUnit.set_state (Some r))
   else
     Qs ← lift (col_last QCs);
     let Cs := cols_but_last QCs in
     QsCs ← lift (matmul Qs Cs);
     C ← divide_all QsCs (sum Qs);
     modify (SanUnit.set_state (Some (append C (sum Qs)))));;
  st ← gets_array SanUnit._state;
  modify (SanUnit.set_dstate (Some (map (fun x => x ⊗ nzero) st))).

Definition _update_state (arr : list A) : M A self unit :=
  modify (SanUnit.set_state (Some arr));;
  SanUnit.set_out_state 0 (Some arr).

Definition _update_dstate : M A self unit :=
  d ← gets SanUnit._dstate;
  SanUnit.set_out_dstate 0 d.

Definition dy_dt (_n_ins : nat) (t : A) (QC_ins : list (list A)) (QC : list A)
    (dQC_ins : list (list A)) : M A self unit :=
  (if decide (1 < _n_ins) then
     Q_ins ← lift (col_last QC_ins);
     let C_ins := cols_but_last QC_ins in
     dQ_ins ← lift (col_last dQC_ins);
     let dC_ins := cols_but_last dQC_ins in
     let Q := sum Q_ins in
     QC_sum ← lift (matmul Q_ins C_ins);
     C ← divide_all QC_sum Q;
     let Q_dot := sum dQ_ins in
     dQC_sum ← lift (matmul dQ_ins C_ins);
     QdC_sum ← lift (matmul Q_ins dC_ins);
     both ← lift (broadcast nadd dQC_sum QdC_sum);
     numerator ← lift (broadcast nsub both (scale Q_dot C));
     C_dot ← divide_all numerator Q;
     d ← gets_array SanUnit._dstate;
     d ← lift (set_last d Q_dot);
     modify (SanUnit.set_dstate (Some d));;
     d ← lift (set_but_last d C_dot);
     modify (SanUnit.set_dstate (Some d))
   else
     r ← lift (row0 dQC_ins);
     modify (SanUnit.set_dstate (Some r)));;
  _update_dstate.

Definition _compile_ODE : M A self unit :=
  _n_ins ← gets (fun u => length (SanUnit.ins u));
  modify (SanUnit.set_ODE (Some (Mixer_dy_dt _n_ins))).

Definition ODE : M A self (closure A) :=
  f ← gets SanUnit._ODE;
  (match f with
   | None => _compile_ODE
   | Some _ => mret tt
   end);;
  gets_attr SanUnit._ODE.
End Methods.
End Mixer.

(* ================================================================== *)
(** ** class Splitter *)
(* ================================================================== *)

(** The position of an ID among the IDs. *)
Fixpoint position (ID : string) (IDs : list string) : res nat :=
  match IDs with
  | [] => inl (UndefinedChemical ID)
  | x :: IDs' =>
      if decide (x = ID) then inr 0 else res_bind (position ID IDs') (fun i => inr (S i))
  end.

(** The registry of components, which is not in these files, finds a
    component by its ID and also by another name it has for it, a CAS
    number or a synonym: [synonyms] gives, for each such name, the ID it
    stands for. [resolve] is the ID of the component that a name stands
    for; a name that stands for none is refused. *)
Definition resolve (name : string) (IDs : list string) (synonyms : gmap string string)
    : res string :=
  if decide (name ∈ IDs) then inr name
  else match synonyms !! name with
       | Some ID => if decide (ID ∈ IDs) then inr ID else inl (UndefinedChemical name)
       | None => inl (UndefinedChemical name)
       end.

(** [self.components.index(name)] *)
Definition index (name : string) (IDs : list string) (synonyms : gmap string string)
    : res nat :=
  res_bind (resolve name IDs synonyms) (fun ID => position ID IDs).

Module Splitter.
Section Methods.
Context {A : Type} `{NA : Num A}.
Abbreviation self := (SanUnit.t A).

(** [self._isplit] is the split of every component, in the order of the
    components; the attribute [split] reads it. *)
Definition __init__ (ins outs : list (Stream.t A)) (components : list string)
    (split : list A) : self :=
  SanUnit.set_split (Some split) (SanUnit.__init__ ins outs components).

Definition reset_cache : M A self unit :=
  modify (SanUnit.set_state None);;
  SanUnit.empty_outs.

Definition state : M A self (option (list (string * A))) := SanUnit.state.

Definition state_setter (QCs : @SanUnit.array_like A) : M A self unit :=
  SanUnit.state_setter QCs.

Definition _init_state : M A self unit :=
  QCs ← SanUnit._collect_ins_state;
  r ← lift (row0 QCs);
  modify (SanUnit.set_state (Some r));;
  st ← gets_array SanUnit._state;
  modify (SanUnit.set_dstate (Some (map (fun x => x ⊗ nzero) st)));;
  s ← gets_attr SanUnit.split;
  IDs ← gets SanUnit.components;
  names ← gets SanUnit.synonyms;
  i ← lift (index "H2O" IDs names);
  s_flow ← lift (match s !! i with Some x => inr x | None => inl IndexError end);
  out0 ← divide_all s s_flow;
  modify (SanUnit.set_split_out0_state (Some (append out0 s_flow)));;
  out1 ← divide_all (map (fun x => nunit ⊖ x) s) (nunit ⊖ s_flow);
  modify (SanUnit.set_split_out1_state (Some (append out1 (nunit ⊖ s_flow)))).

Definition _update_state (arr : list A) : M A self unit :=
  modify (SanUnit.set_state (Some arr));;
  scale0 ← gets_attr SanUnit._split_out0_state;
  out0 ← lift (broadcast nmul scale0 arr);
  SanUnit.set_out_state 0 (Some out0);;
  scale1 ← gets_attr SanUnit._split_out1_state;
  out1 ← lift (broadcast nmul scale1 arr);
  SanUnit.set_out_state 1 (Some out1).

(** [scale * arr] where [arr] may be [None]. *)
Definition times (scale : list A) (arr : option (list A)) : res (list A) :=
  match arr with
  | Some a => broadcast nmul scale a
  | None => inl TypeError
  end.

Definition _update_dstate : M A self unit :=
  arr ← gets SanUnit._dstate;
  scale0 ← gets_attr SanUnit._split_out0_state;
  out0 ← lift (times scale0 arr);
  SanUnit.set_out_dstate 0 (Some out0);;
  scale1 ← gets_attr SanUnit._split_out1_state;
  out1 ← lift (times scale1 arr);
  SanUnit.set_out_dstate 1 (Some out1).

Definition dy_dt (t : A) (QC_ins : list (list A)) (QC : list A)
    (dQC_ins : list (list A)) : M A self unit :=
  r ← lift (row0 dQC_ins);
  modify (SanUnit.set_dstate (Some r));;
  _update_dstate.

Definition _compile_ODE : M A self unit :=
  modify (SanUnit.set_ODE (Some Splitter_dy_dt)).

Definition ODE : M A self (closure A) :=
  f ← gets SanUnit._ODE;
  (match f with
   | None => _compile_ODE
   | Some _ => mret tt
   end);;
  gets_attr SanUnit._ODE.
End Methods.
End Splitter.

(* ================================================================== *)
(** ** class Pump *)
(* ================================================================== *)

Module Pump.
Section Methods.
Context {A : Type} `{NA : Num A}.
Abbreviation self := (SanUnit.t A).

Definition reset_cache : M A self unit :=
  modify (SanUnit.set_state None);;
  SanUnit.empty_outs.

Definition state : M A self (option (list (string * A))) := SanUnit.state.

Definition state_setter (QCs : @SanUnit.array_like A) : M A self unit :=
  SanUnit.state_setter QCs.

Definition _init_state : M A self unit :=
  QCs ← SanUnit._collect_ins_state;
  r ← lift (row0 QCs);
  modify (SanUnit.set_state (Some r));;
  st ← gets_array SanUnit._state;
  modify (SanUnit.set_dstate (Some (map (fun x => x ⊗ nzero) st))).

Definition _update_state (arr : list A) : M A self unit :=
  modify (SanUnit.set_state (Some arr));;
  SanUnit.set_out_state 0 (Some arr).

Definition _update_dstate : M A self unit :=
  d ← gets SanUnit._dstate;
  SanUnit.set_out_dstate 0 d.

Definition dy_dt (t : A) (QC_ins : list (list A)) (QC : list A)
    (dQC_ins : list (list A)) : M A self unit :=
  r ← lift (row0 dQC_ins);
  modify (SanUnit.set_dstate (Some r));;
  _update_dstate.

Definition _compile_ODE : M A self unit :=
  modify (SanUnit.set_ODE (Some Pump_dy_dt)).

(** The property [ODE]. [self._compile_ODE()] is the method of the class
    of [self], which a subclass may override. *)
Definition ODE_with (_compile_ODE : M A self unit) : M A self (closure A) :=
  f ← gets SanUnit._ODE;
  (match f with
   | None => _compile_ODE
   | Some _ => mret tt
   end);;
  gets_attr SanUnit._ODE.

Definition ODE : M A self (closure A) := ODE_with _compile_ODE.
End Methods.
End Pump.

(* ================================================================== *)
(** ** class HydraulicDelay(Pump) *)
(* ================================================================== *)

Module HydraulicDelay.
Section Methods.
Context {A : Type} `{NA : Num A}.
Abbreviation self := (SanUnit.t A).

(** [t_delay=1e-4] when the caller gives none. *)
Definition __init__ (ins outs : list (Stream.t A)) (components : list string)
    (t_delay : option A) : self :=
  SanUnit.set_concs None
    (SanUnit.set_t_delay (Some (default (nlit (1 # 10000)) t_delay))
       (SanUnit.__init__ ins outs components)).

(** Inherited from [Pump]. *)
Definition reset_cache : M A self unit := Pump.reset_cache.
Definition state : M A self (option (list (string * A))) := Pump.state.
Definition state_setter (QCs : @SanUnit.array_like A) : M A self unit :=
  Pump.state_setter QCs.
Definition _update_state (arr : list A) : M A self unit := Pump._update_state arr.
Definition _update_dstate : M A self unit := Pump._update_dstate.

(** [Cs[cmpx(k)] = v] for every keyword argument, on [np.zeros]. *)
Fixpoint fill_concs (IDs : list string) (names : gmap string string)
    (kwargs : list (string * A)) (Cs : list A) : res (list A) :=
  match kwargs with
  | [] => inr Cs
  | (k, v) :: kwargs' =>
      res_bind (index k IDs names) (fun i => fill_concs IDs names kwargs' (<[i := v]> Cs))
  end.

Definition set_init_conc (kwargs : list (string * A)) : M A self unit :=
  IDs ← gets SanUnit.components;
  names ← gets SanUnit.synonyms;
  Cs ← lift (fill_concs IDs names kwargs (replicate (length IDs) nzero));
  modify (SanUnit.set_concs (Some Cs)).

Definition _init_state : M A self unit :=
  QCs ← SanUnit._collect_ins_state;
  r ← lift (row0 QCs);
  modify (SanUnit.set_state (Some r));;
  concs ← gets SanUnit._concs;
  match concs with
  | Some Cs =>
      st ← gets_array SanUnit._state;
      st ← lift (set_but_last st Cs);
      modify (SanUnit.set_state (Some st))
  | None => mret tt
  end.

(** [dQC] is [self._dstate] itself: an assignment into [dQC] is an
    assignment into the attribute. *)
Definition dy_dt (T : A) (t : A) (QC_ins : list (list A)) (QC : list A)
    (dQC_ins : list (list A)) : M A self unit :=
  row ← lift (row0 QC_ins);
  Q_in ← lift (item_last row);
  Q ← lift (item_last QC);
  let C_in := but_last row in
  let C := but_last QC in
  drow ← lift (row0 dQC_ins);
  dQ_in ← lift (item_last drow);
  (if is_zero dQ_in then
     dQC ← gets_array SanUnit._dstate;
     dQC ← lift (set_last dQC nzero);
     modify (SanUnit.set_dstate (Some dQC));;
     numerator ← lift (broadcast nsub (scale Q_in C_in) (scale Q C));
     rhs ← divide_all numerator (Q ⊗ T);
     dQC ← lift (set_but_last dQC rhs);
     modify (SanUnit.set_dstate (Some dQC))
   else
     rhs ← divide (Q_in ⊖ Q) T;
     dQC ← gets_array SanUnit._dstate;
     dQC ← lift (set_last dQC rhs);
     modify (SanUnit.set_dstate (Some dQC));;
     ratio ← divide Q_in Q;
     diff ← lift (broadcast nsub C_in C);
     rhs ← divide_all (scale ratio diff) T;
     dQC ← lift (set_but_last dQC rhs);
     modify (SanUnit.set_dstate (Some dQC)));;
  _update_dstate.

Definition _compile_ODE : M A self unit :=
  T ← gets_attr SanUnit.t_delay;
  modify (SanUnit.set_ODE (Some (HydraulicDelay_dy_dt T))).

Definition ODE : M A self (closure A) := Pump.ODE_with _compile_ODE.
End Methods.
End HydraulicDelay.

(** Calling a compiled [dy_dt]. *)
Definition call {A : Type} `{NA : Num A} (f : closure A) (t : A)
    (QC_ins : list (list A)) (QC : list A) (dQC_ins : list (list A))
    : M A (SanUnit.t A) unit :=
  match f with
  | Mixer_dy_dt _n_ins => Mixer.dy_dt _n_ins t QC_ins QC dQC_ins
  | Splitter_dy_dt => Splitter.dy_dt t QC_ins QC dQC_ins
  | Pump_dy_dt => Pump.dy_dt t QC_ins QC dQC_ins
  | HydraulicDelay_dy_dt T => HydraulicDelay.dy_dt T t QC_ins QC dQC_ins
  end.

(* ================================================================== *)
(** ** class ComponentSplitter *)
(* ================================================================== *)

Module ComponentSplitter.
(** An element of [split_keys]: a component ID, an iterable of IDs, or
    something that is neither. *)
Inductive key : Type :=
| Str (ID : string)
| Iter (IDs : list string)
| NotIterable.

(** [split_keys] itself: one string, or a sequence of keys. *)
Inductive keys : Type :=
| OneStr (s : string)
| Seq (ks : list key).

Record t (A : Type) : Type := Mk {
  ins : list (Stream.t A);
  outs : list (Stream.t A);
  components : list string;
  _N_outs : nat;
  _split_keys : keys;
  synonyms : gmap string string   (* self.components: other names, see [index] *)
}.
Arguments Mk {A} _ _ _ _ _ _.
Arguments ins {A} _.
Arguments outs {A} _.
Arguments components {A} _.
Arguments _N_outs {A} _.
Arguments _split_keys {A} _.
Arguments synonyms {A} _.

(** The characters of a string, which is what iterating over it gives. *)
Fixpoint chars (s : string) : list string :=
  match s with
  | EmptyString => []
  | String c s' => String c EmptyString :: chars s'
  end.

(** [not split_keys] *)
Definition is_empty (ks : keys) : bool :=
  match ks with
  | OneStr s => bool_decide (s = EmptyString)
  | Seq l => bool_decide (l = [])
  end.

(** [len(i)] *)
Definition len (ks : keys) : nat :=
  match ks with
  | OneStr s => String.length s
  | Seq l => length l
  end.

(** What [enumerate(split_keys)] runs through. *)
Definition elements (ks : keys) : list key :=
  match ks with
  | OneStr s => map Str (chars s)
  | Seq l => l
  end.

Section Methods.
Context {A : Type} `{NA : Num A}.
Abbreviation self := (t A).

Definition set_outs (x : list (Stream.t A)) (u : self) : self :=
  Mk (ins u) x (components u) (_N_outs u) (_split_keys u) (synonyms u).
Definition set_split_keys (x : keys) (u : self) : self :=
  Mk (ins u) (outs u) (components u) (_N_outs u) x (synonyms u).
(** The registry of components with other names for its components. *)
Definition set_synonyms (x : gmap string string) (u : self) : self :=
  Mk (ins u) (outs u) (components u) (_N_outs u) (_split_keys u) x.

(** Modelled from the spec: the outputs that [SanUnit.__init__], of the
    base class that is not in these files, creates when it is called with
    the default [outs=()]. Section 4.6: the number of outputs is fixed at
    creation time; they are [_N_outs] streams that nothing has been
    written to. *)
Definition default_outs (_N_outs : nat) : list (Stream.t A) :=
  replicate _N_outs Stream.fresh.

(** The constructor, called with the default [outs=()]. *)
Definition __init__ (ins : list (Stream.t A)) (components : list string)
    (split_keys : keys) : res self :=
  if is_empty split_keys then inl (ValueError split_keys_cannot_be_empty)
  else
    let _N_outs := match split_keys with
                   | OneStr _ => 2
                   | Seq l => length l + 1
                   end in
    inr (Mk ins (default_outs _N_outs) components _N_outs split_keys ∅).

(** [self.outs[i].imass[cmp]], read and assigned. The flows of a stream
    are kept under the IDs of the components; the name given is looked
    up in the registry of components as [index] does, so that a CAS
    number or a synonym reads and assigns the flow of the component it
    stands for, and a name that stands for none is refused. *)
Definition imass_get (i : nat) (cmp : string) : M A self A := fun u =>
  MkRun [] u
    (match outs u !! i with
     | None => inl IndexError
     | Some s =>
         res_bind (resolve cmp (components u) (synonyms u))
           (fun ID => inr (default nzero (Stream.imass s !! ID)))
     end).

Definition imass_set (i : nat) (cmp : string) (v : A) : M A self unit := fun u =>
  match outs u !! i with
  | None => MkRun [] u (inl IndexError)
  | Some s =>
      match resolve cmp (components u) (synonyms u) with
      | inr ID =>
          MkRun [] (set_outs (<[i := Stream.set_imass (<[ID := v]> (Stream.imass s)) s]> (outs u)) u)
            (inr tt)
      | inl e => MkRun [] u (inl e)
      end
  end.

(** [for cmp in cmps: ...], the inner loop of [_run]; [last] is the
    position of the last output, [splitted] the IDs seen so far. *)
Fixpoint _run_group (last num : nat) (cmps : list string) (splitted : list string)
    : M A self (list string) :=
  match cmps with
  | [] => mret splitted
  | cmp :: cmps' =>
      v ← imass_get last cmp;
      imass_set num cmp v;;
      imass_set last cmp nzero;;
      if decide (cmp ∈ splitted) then raise (ValueError appears_more_than_once)
      else _run_group last num cmps' (splitted ++ [cmp])
  end.

(** [for num, cmps in enumerate(self.split_keys): ...] *)
Fixpoint _run_keys (last num : nat) (ks : list key) (splitted : list string)
    : M A self unit :=
  match ks with
  | [] => mret tt
  | k :: ks' =>
      cmps ← match k with
             | Str ID => mret [ID]
             | Iter IDs => mret IDs
             | NotIterable => raise (ValueError split_keys_must_be_iterable)
             end;
      splitted ← _run_group last num cmps splitted;
      _run_keys last (S num) ks' splitted
  end.

Definition _run : M A self unit :=
  n ← gets (fun u => length (outs u));
  (if decide (n = 0) then raise IndexError else mret tt);;
  let last := n - 1 in
  modify (fun u => set_outs (alter (Stream.mix_from (ins u)) last (outs u)) u);;
  ks ← gets _split_keys;
  _run_keys last 0 (elements ks) [].

Definition split_keys : M A self keys := gets _split_keys.

Definition split_keys_setter (i : keys) : M A self unit :=
  let i := match i with
           | OneStr s => Seq [Str s]
           | Seq _ => i
           end in
  n ← gets (fun u => length (outs u));
  if decide (len i ≠ n) then raise (ValueError size_cannot_be_changed)
  else modify (set_split_keys i).
End Methods.
End ComponentSplitter.

(* ================================================================== *)
(** ** class WWTpump: the pump type and the flow rates *)
(* ================================================================== *)

Module WWTpump.
Definition _valid_pump_types : list string :=
  ["permeate_cross-flow"; "retentate_CSTR"; "retentate_AF"; "recirculation_CSTR";
   "recirculation_AF"; "lift"; "sludge"; "chemical"]%string.

(** [str.lower], on the ASCII letters; every other byte is kept. *)
Definition lower_ascii (c : Ascii.ascii) : Ascii.ascii :=
  let n := Ascii.nat_of_ascii c in
  if (65 <=? n) && (n <=? 90) then Ascii.ascii_of_nat (n + 32) else c.

Fixpoint lower (s : string) : string :=
  match s with
  | EmptyString => EmptyString
  | String c s' => String (lower_ascii c) (lower s')
  end.

(** [s.replace(old, new)] for a non-empty [old]: the occurrences of [old]
    are replaced from left to right, without overlap. [skip] counts the
    characters of an occurrence that are still to be passed over. *)
Fixpoint replace_from (skip : nat) (old new s : string) : string :=
  match s with
  | EmptyString => EmptyString
  | String c s' =>
      match skip with
      | S k => replace_from k old new s'
      | O =>
          if String.prefix old s
          then (new ++ replace_from (String.length old - 1) old new s')%string
          else String c (replace_from 0 old new s')
      end
  end.

Definition replace (old new s : string) : string := replace_from 0 old new s.

(** The [ValueError] of the [pump_type] setter, with the value given. *)
Inductive error : Type :=
| pump_type_is_not_valid (i : string).

(** The attributes that the property [pump_type] and the flow-rate
    properties read or assign, and [F_vol_in], a property of the base
    class whose value is taken as given. *)
Record t (A : Type) : Type := Mk {
  F_vol_in : A;
  _pump_type : option string;
  _Q_mgd : option A
}.
Arguments Mk {A} _ _ _.
Arguments F_vol_in {A} _.
Arguments _pump_type {A} _.
Arguments _Q_mgd {A} _.

Section Methods.
Context {A : Type} `{NA : Num A}.
(** [auom('m3').conversion_factor('gallon')] and
    [auom('ft3').conversion_factor('gallon')], constants of a module that
    is not in these files. *)
Context (_m3_to_gal _ft3_to_gal : A).
Abbreviation self := (t A).

Definition set_pump_type (x : option string) (u : self) : self :=
  Mk (F_vol_in u) x (_Q_mgd u).

(** The [pump_type] setter. *)
Definition pump_type_setter (i : string) (u : self) : error + self :=
  let i_lower := lower i in
  let i_lower := replace "cstr" "CSTR" i_lower in
  let i_lower := replace "af" "AF" i_lower in
  if decide (i_lower ∉ _valid_pump_types) then inl (pump_type_is_not_valid i)
  else inr (set_pump_type (Some i_lower) u).

(** The [Q_mgd] setter. *)
Definition Q_mgd_setter (i : option A) (u : self) : self :=
  Mk (F_vol_in u) (_pump_type u) i.

(** The constructor, as far as these attributes go. *)
Definition __init__ (F_vol_in : A) (pump_type : string) (Q_mgd : option A)
    : error + self :=
  match pump_type_setter pump_type (Mk F_vol_in None None) with
  | inl e => inl e
  | inr u => inr (Q_mgd_setter Q_mgd u)
  end.

(** [if self._Q_mgd:]: [None] and a zero are false. *)
Definition truth (x : option A) : bool :=
  match x with
  | Some v => negb (is_zero v)
  | None => false
  end.

Definition Q_mgd (u : self) : A :=
  if truth (_Q_mgd u) then default nzero (_Q_mgd u)
  else F_vol_in u ⊗ _m3_to_gal ⊗ nlit 24 ⊘ nlit 1000000.

Definition Q_gpm (u : self) : A :=
  Q_mgd u ⊗ nlit 1000000 ⊘ nlit 24 ⊘ nlit 60.

Definition Q_cmd (u : self) : A :=
  Q_mgd u ⊗ nlit 1000000 ⊘ _m3_to_gal.

Definition Q_cfs (u : self) : A :=
  Q_mgd u ⊗ nlit 1000000 ⊘ nlit 24 ⊘ nlit 60 ⊘ nlit 60 ⊘ _ft3_to_gal.
End Methods.
End WWTpump.

(* ================================================================== *)
(** ** Vocabulary of the statements *)
(* ================================================================== *)

(** A unit once a derivative vector [d'] has been stored and handed to
    the first output, the others being [os]. *)
Definition delayed {A : Type} (d' : list A) (o : Stream.t A) (os : list (Stream.t A))
    (u : SanUnit.t A) : SanUnit.t A :=
  SanUnit.set_outs (Stream.set_dstate (Some d') o :: os) (SanUnit.set_dstate (Some d') u).

(** In a vector of [n] concentrations followed by a flow, the mass flow
    of component [j]: flow times concentration. *)
Definition mass_flow {A : Type} `{NA : Num A} (n j : nat) (QC : list A) : A :=
  nth n QC nzero ⊗ nth j QC nzero.

(** The rate of change of that mass flow when the vector changes at the
    rate [dQC]: the product rule, [dQ*C_j + Q*dC_j]. *)
Definition mass_flow_rate {A : Type} `{NA : Num A} (n j : nat) (QC dQC : list A) : A :=
  nth n dQC nzero ⊗ nth j QC nzero ⊕ nth n QC nzero ⊗ nth j dQC nzero.

(** The component IDs that one key of a ComponentSplitter names, and
    all those that a sequence of keys names, in the order [_run] visits
    them. *)
Definition cmps_of (k : ComponentSplitter.key) : list string :=
  match k with
  | ComponentSplitter.Str ID => [ID]
  | ComponentSplitter.Iter IDs => IDs
  | ComponentSplitter.NotIterable => []
  end.

Definition visited (ks : list ComponentSplitter.key) : list string :=
  concat (map cmps_of ks).

(** [dict(pairs)]: of two pairs with the same key the later one stays. *)
Definition dict {A : Type} (pairs : list (string * A)) : gmap string A :=
  foldl (fun m kv => <[kv.1 := kv.2]> m) ∅ pairs.

(** What output [i] of a ComponentSplitter records for component [c], if
    it records anything. *)
Definition flow {A : Type} (u : ComponentSplitter.t A) (i : nat) (c : string) : option A :=
  match ComponentSplitter.outs u !! i with
  | Some s => Stream.imass s !! c
  | None => None
  end.

(** The flows that [mix_from] computes from the inputs. *)
Definition mixed {A : Type} `{NA : Num A} (ins : list (Stream.t A)) : gmap string A :=
  Stream.imass (Stream.mix_from ins Stream.fresh).

(** What output [j] records for [c] once [c] has been moved from the
    output at [last] to the output at [num]. *)
Definition moved {A : Type} `{NA : Num A} (last num : nat) (u : ComponentSplitter.t A)
    (j : nat) (c : string) : option A :=
  if decide (j = last) then Some nzero
  else if decide (j = num) then Some (default nzero (flow u last c))
  else flow u j c.

(* ================================================================== *)
(** * Properties *)
(* ================================================================== *)

(** ** Running the monad step by step *)

Section MonadSteps.
Context {A S : Type}.
Implicit Types (s : S).

Lemma run_eta {X} (r : Run A S X) : MkRun (divisors r) (final r) (outcome r) = r.
Proof. destruct r; reflexivity. Qed.

Lemma bind_ret {X Y} (x : X) (f : X -> M A S Y) s : (mret x ≫= f) s = f x s.
Proof. unfold mbind, M_bind, mret, M_ret, bind, ret; simpl. apply run_eta. Qed.

Lemma bind_lift {X Y} (x : X) (f : X -> M A S Y) s : (lift (inr x) ≫= f) s = f x s.
Proof. unfold mbind, M_bind, bind, lift; simpl. apply run_eta. Qed.

Lemma bind_lift_raise {X Y} (e : exn) (f : X -> M A S Y) s :
  (lift (inl e) ≫= f) s = MkRun [] s (inl e).
Proof. reflexivity. Qed.

Lemma bind_gets {X Y} (g : S -> X) (f : X -> M A S Y) s : (gets g ≫= f) s = f (g s) s.
Proof. unfold mbind, M_bind, bind, gets; simpl. apply run_eta. Qed.

Lemma bind_modify {Y} (g : S -> S) (f : unit -> M A S Y) s :
  (modify g ≫= f) s = f tt (g s).
Proof. unfold mbind, M_bind, bind, modify; simpl. apply run_eta. Qed.

Lemma bind_gets_array {X Y} (g : S -> option X) (f : X -> M A S Y) s x :
  g s = Some x -> (gets_array g ≫= f) s = f x s.
Proof. intros E. unfold mbind, M_bind, bind, gets_array; simpl. rewrite E. apply run_eta. Qed.

Lemma bind_gets_attr {X Y} (g : S -> option X) (f : X -> M A S Y) s x :
  g s = Some x -> (gets_attr g ≫= f) s = f x s.
Proof. intros E. unfold mbind, M_bind, bind, gets_attr; simpl. rewrite E. apply run_eta. Qed.

Lemma bind_assoc {X Y Z} (m : M A S X) (f : X -> M A S Y) (g : Y -> M A S Z) s :
  ((m ≫= f) ≫= g) s = (m ≫= fun x => f x ≫= g) s.
Proof.
  unfold mbind, M_bind, bind; simpl.
  destruct (m s) as [l1 s1 [e|x]]; simpl; [reflexivity|].
  destruct (f x s1) as [l2 s2 [e|y]]; simpl; [reflexivity|].
  rewrite app_assoc. reflexivity.
Qed.

Lemma bind_run {X Y} (m : M A S X) (f : X -> M A S Y) s s' x :
  m s = MkRun [] s' (inr x) -> (m ≫= f) s = f x s'.
Proof. intros E. unfold mbind, M_bind, bind. rewrite E. simpl. apply run_eta. Qed.

Lemma bind_raised {X Y} (m : M A S X) (f : X -> M A S Y) s s' l e :
  m s = MkRun l s' (inl e) -> (m ≫= f) s = MkRun l s' (inl e).
Proof. intros E. unfold mbind, M_bind, bind. rewrite E. reflexivity. Qed.

Lemma outcome_bind {X Y} (m : M A S X) (f : X -> M A S Y) (s : S) :
  outcome ((m ≫= f) s)
  = match outcome (m s) with
    | inl e => inl e
    | inr x => outcome (f x (final (m s)))
    end.
Proof. unfold mbind, M_bind, bind. destruct (outcome (m s)); reflexivity. Qed.

Lemma final_bind {X Y} (m : M A S X) (f : X -> M A S Y) (s : S) :
  final ((m ≫= f) s)
  = match outcome (m s) with
    | inl e => final (m s)
    | inr x => final (f x (final (m s)))
    end.
Proof. unfold mbind, M_bind, bind. destruct (outcome (m s)); reflexivity. Qed.

Lemma bind_gets_attr_None {X Y} (g : S -> option X) (f : X -> M A S Y) s :
  g s = None -> (gets_attr g ≫= f) s = MkRun [] s (inl AttributeError).
Proof. intros E. unfold mbind, M_bind, bind, gets_attr; simpl. rewrite E. reflexivity. Qed.

(** A division by a divisor that is not zero puts its divisor in front
    of what follows; a division by zero stops the method. *)
Lemma bind_divide `{Num A} {Y} (x y : A) (f : A -> M A S Y) s :
  is_zero y = false ->
  (divide x y ≫= f) s = logged y (f (x ⊘ y) s).
Proof. intros E. unfold mbind, M_bind, bind, divide. simpl. rewrite E. reflexivity. Qed.

Lemma bind_divide_zero `{Num A} {Y} (x y : A) (f : A -> M A S Y) s :
  is_zero y = true ->
  (divide x y ≫= f) s = MkRun [y] s (inl FloatingPointError).
Proof. intros E. unfold mbind, M_bind, bind, divide. simpl. rewrite E. reflexivity. Qed.

Lemma bind_divide_all `{Num A} {Y} (v : list A) (y : A) (f : list A -> M A S Y) s :
  is_zero y = false \/ v = [] ->
  (divide_all v y ≫= f) s = logged y (f (map (fun x => x ⊘ y) v) s).
Proof.
  intros E. unfold mbind, M_bind, bind, divide_all. simpl.
  destruct v as [|x v]; [reflexivity|].
  destruct E as [E|E]; [rewrite E; reflexivity|discriminate].
Qed.

Lemma bind_divide_all_zero `{Num A} {Y} (v : list A) (y : A) (f : list A -> M A S Y) s :
  is_zero y = true -> v <> [] ->
  (divide_all v y ≫= f) s = MkRun [y] s (inl FloatingPointError).
Proof.
  intros E Hv. unfold mbind, M_bind, bind, divide_all. simpl.
  destruct v as [|x v]; [congruence|]. rewrite E. reflexivity.
Qed.

Lemma bind_divide_all_cases `{Num A} {Y} (v : list A) (y : A) (f : list A -> M A S Y) s :
  (divide_all v y ≫= f) s = logged y (f (map (fun x => x ⊘ y) v) s)
  \/ (divide_all v y ≫= f) s = MkRun [y] s (inl FloatingPointError).
Proof.
  destruct v as [|x v]; [left; apply bind_divide_all; right; reflexivity|].
  destruct (is_zero y) eqn:E.
  - right. apply bind_divide_all_zero; [exact E|discriminate].
  - left. apply bind_divide_all. left. exact E.
Qed.
End MonadSteps.

(** ** Facts about the array operations *)

Section NumpyFacts.
Context {A : Type} `{NA : Num A}.
Implicit Types (u v w : list A) (m : list (list A)).

Lemma last_lookup_len v n : length v = S n -> last v = v !! n.
Proof. intros E. rewrite last_lookup, E. reflexivity. Qed.

Lemma item_last_len v n : length v = S n -> item_last v = inr (nth n v nzero).
Proof.
  intros E. unfold item_last. rewrite (last_lookup_len v n E).
  destruct (v !! n) as [x|] eqn:L.
  - rewrite (nth_lookup_Some _ _ _ _ L). reflexivity.
  - apply lookup_ge_None in L. lia.
Qed.

Lemma length_but_last v : length (but_last v) = pred (length v).
Proof.
  unfold but_last. induction v as [|x [|y v'] IH]; simpl in *; auto.
Qed.

Lemma nth_but_last v j : j < pred (length v) -> nth j (but_last v) nzero = nth j v nzero.
Proof.
  unfold but_last. revert j. induction v as [|x [|y v'] IH]; intros j Hj; simpl in *; try lia.
  destruct j as [|j]; [reflexivity|]. apply IH. lia.
Qed.

Lemma but_last_app v x : but_last (v ++ [x]) = v.
Proof. apply removelast_last. Qed.

(** On a matrix whose rows have [n + 1] entries, [m[:, -1]] is column
    [n] and [m[:, :-1]] has the columns below [n]. *)
Lemma col_last_wf m n :
  Forall (fun r => length r = S n) m -> col_last m = inr (column n m).
Proof.
  unfold col_last, column. induction 1 as [|r m Hr _ IH]; simpl; [reflexivity|].
  rewrite (item_last_len r n Hr), IH. reflexivity.
Qed.

Lemma column_cols_but_last m n j :
  Forall (fun r => length r = S n) m -> j < n ->
  column j (cols_but_last m) = column j m.
Proof.
  intros Hm Hj. unfold column, cols_but_last. rewrite map_map.
  apply map_ext_Forall. eapply Forall_impl; [exact Hm|].
  intros r Hr. simpl in *. apply nth_but_last. rewrite Hr. simpl. exact Hj.
Qed.

Lemma length_column j m : length (column j m) = length m.
Proof. apply length_map. Qed.

Lemma matmul_wf u m n :
  length u = length m -> m <> [] -> Forall (fun r => length r = S n) m ->
  matmul u (cols_but_last m)
  = inr (map (fun j => dot u (column j (cols_but_last m))) (seq 0 n)).
Proof.
  intros Hu Hne Hm. unfold matmul.
  rewrite decide_True by (unfold cols_but_last; rewrite length_map; exact Hu).
  destruct m as [|r m']; [congruence|].
  apply Forall_cons in Hm as [Hr _]. simpl.
  rewrite length_but_last, Hr. reflexivity.
Qed.

Lemma matmul_lookup u m n j :
  Forall (fun r => length r = S n) m -> j < n ->
  map (fun j => dot u (column j (cols_but_last m))) (seq 0 n) !! j
  = Some (dot u (column j m)).
Proof.
  intros Hm Hj. rewrite list_lookup_fmap, lookup_seq_lt by exact Hj. simpl.
  rewrite (column_cols_but_last m n j Hm Hj). reflexivity.
Qed.

Lemma broadcast_same (f : A -> A -> A) u v :
  length u = length v -> broadcast f u v = inr (zip_with f u v).
Proof. intros E. unfold broadcast. rewrite decide_True by exact E. reflexivity. Qed.

Lemma set_last_len v n x : length v = S n -> set_last v x = inr (but_last v ++ [x]).
Proof. destruct v; [discriminate|reflexivity]. Qed.

Lemma set_but_last_len v w x : length w = length v -> set_but_last (v ++ [x]) w = inr (w ++ [x]).
Proof.
  intros E. unfold set_but_last. rewrite last_snoc, but_last_app.
  rewrite decide_True by exact E. reflexivity.
Qed.
End NumpyFacts.

(** ** Mixer *)

(** One step of a method: reassociate, then run the action at the head. *)
Ltac mstep :=
  first
    [ rewrite bind_assoc
    | rewrite bind_lift
    | rewrite bind_ret
    | rewrite bind_modify
    | rewrite bind_gets ];
  cbv beta zeta.

Section MixerFacts.
Context {A : Type} `{NA : Num A}.

Lemma Mixer_update_dstate_run (u : SanUnit.t A) o os :
  SanUnit.outs u = o :: os ->
  Mixer._update_dstate u
  = MkRun [] (SanUnit.set_outs (Stream.set_dstate (SanUnit._dstate u) o :: os) u) (inr tt).
Proof.
  intros Ho. unfold Mixer._update_dstate. rewrite bind_gets.
  unfold SanUnit.set_out_dstate. rewrite Ho. reflexivity.
Qed.
End MixerFacts.

(** What [dy_dt] does, whatever number of inputs it captured, when the
    total flow it divides by is not zero. *)
Lemma Mixer_dy_dt_run {A : Type} `{NA : Num A}
    (_n_ins n : nat) (t : A) (QC_ins dQC_ins : list (list A)) (QC d : list A)
    (u : SanUnit.t A) (o : Stream.t A) (os : list (Stream.t A))
    (Hins : 1 <= _n_ins)
    (HQC : length QC_ins = _n_ins)
    (HdQC : length dQC_ins = _n_ins)
    (Hrows : Forall (fun r => length r = S n) QC_ins)
    (Hdrows : Forall (fun r => length r = S n) dQC_ins)
    (Hd : SanUnit._dstate u = Some d)
    (Hlen : length d = S n)
    (Houts : SanUnit.outs u = o :: os)
    (HQ : 1 < _n_ins -> is_zero (sum (column n QC_ins)) = false) :
  let r := Mixer.dy_dt _n_ins t QC_ins QC dQC_ins u in
  let Q_i := column n QC_ins in
  let dQ_i := column n dQC_ins in
  let Q := sum Q_i in
  let dQ := sum dQ_i in
  let C j := dot Q_i (column j QC_ins) ⊘ Q in
  exists d' : list A,
    outcome r = inr tt
    /\ SanUnit._dstate (final r) = Some d'
    /\ SanUnit.outs (final r) = Stream.set_dstate (Some d') o :: os
    /\ (1 < _n_ins ->
        length d' = S n
        /\ d' !! n = Some dQ
        /\ forall j, j < n ->
             d' !! j
             = Some ((dot dQ_i (column j QC_ins) ⊕ dot Q_i (column j dQC_ins)
                      ⊖ dQ ⊗ C j) ⊘ Q))
    /\ (_n_ins = 1 -> dQC_ins !! 0 = Some d').
Proof.
  intros r Q_i dQ_i Q dQ C. subst r. unfold Mixer.dy_dt.
  destruct (decide (1 < _n_ins)) as [Hmulti|Hsingle].
  - assert (Hne : QC_ins <> []) by (intros ->; simpl in HQC; lia).
    assert (Hdne : dQC_ins <> []) by (intros ->; simpl in HdQC; lia).
    rewrite bind_assoc, (col_last_wf QC_ins n Hrows).
    repeat mstep. rewrite (col_last_wf dQC_ins n Hdrows).
    repeat mstep.
    rewrite (matmul_wf (column n QC_ins) QC_ins n) by (rewrite ?length_column; auto).
    rewrite (matmul_wf (column n dQC_ins) QC_ins n) by (rewrite ?length_column; auto; lia).
    rewrite (matmul_wf (column n QC_ins) dQC_ins n) by (rewrite ?length_column; auto; lia).
    repeat mstep. rewrite bind_divide_all by (left; exact (HQ Hmulti)). cbv beta.
    repeat mstep. rewrite broadcast_same by (rewrite !length_map; reflexivity).
    repeat mstep. rewrite broadcast_same
      by (unfold scale; rewrite length_zip_with, !length_map, length_seq; lia).
    repeat mstep. rewrite bind_divide_all by (left; exact (HQ Hmulti)). cbv beta.
    repeat mstep. rewrite (bind_gets_array _ _ _ d Hd). cbv beta.
    repeat mstep. rewrite (set_last_len d n _ Hlen).
    repeat mstep. rewrite set_but_last_len.
    2:{ rewrite length_map, length_zip_with, length_zip_with, !length_map, length_seq.
        unfold scale. rewrite !length_map, length_seq, length_but_last, Hlen. simpl. lia. }
    repeat mstep.
    match goal with
    | |- context [SanUnit.set_dstate (Some (?c ++ [?q])) _] => set (C_dot := c)
    end.
    erewrite Mixer_update_dstate_run by (simpl; exact Houts).
    exists (C_dot ++ [sum (column n dQC_ins)]). simpl.
    assert (HC : length C_dot = n).
    { subst C_dot. rewrite length_map, length_zip_with, length_zip_with, !length_map, length_seq.
      unfold scale. rewrite !length_map, length_seq. lia. }
    split; [reflexivity|]. split; [reflexivity|]. split; [reflexivity|]. split.
    + intros _. split; [rewrite length_app; simpl; lia|]. split.
      * rewrite lookup_app_r by lia. rewrite HC, Nat.sub_diag. reflexivity.
      * intros j Hj. rewrite lookup_app_l by lia. subst C_dot.
        rewrite list_lookup_fmap, !lookup_zip_with.
        rewrite (matmul_lookup _ QC_ins n j Hrows Hj).
        rewrite (matmul_lookup _ dQC_ins n j Hdrows Hj).
        unfold scale. rewrite !list_lookup_fmap, lookup_seq_lt by exact Hj. simpl.
        rewrite (column_cols_but_last QC_ins n j Hrows Hj). reflexivity.
    + intros ->. lia.
  - assert (_n_ins = 1) as -> by lia.
    destruct dQC_ins as [|row rest]; [discriminate|].
    rewrite bind_assoc. simpl row0. repeat mstep.
    erewrite Mixer_update_dstate_run by (simpl; exact Houts).
    exists row. simpl.
    split; [reflexivity|]. split; [reflexivity|]. split; [reflexivity|].
    split; [intros; lia|reflexivity].
Qed.

Lemma Mixer_ODE_run {A : Type} (u : SanUnit.t A) :
  SanUnit._ODE u = None
  \/ SanUnit._ODE u = Some (Mixer_dy_dt (length (SanUnit.ins u))) ->
  Mixer.ODE u
  = MkRun [] (SanUnit.set_ODE (Some (Mixer_dy_dt (length (SanUnit.ins u)))) u)
      (inr (Mixer_dy_dt (length (SanUnit.ins u)))).
Proof.
  intros [E|E]; unfold Mixer.ODE; rewrite bind_gets, E.
  - unfold Mixer._compile_ODE. repeat mstep. reflexivity.
  - repeat mstep. unfold gets_attr. rewrite E. destruct u; simpl in *; subst; reflexivity.
Qed.

(** The same call with several inputs whose total flow is zero: the
    first division stops it, and nothing has been assigned. *)
Lemma Mixer_dy_dt_zero {A : Type} `{NA : Num A}
    (_n_ins n : nat) (t : A) (QC_ins dQC_ins : list (list A)) (QC : list A)
    (u : SanUnit.t A)
    (Hmulti : 1 < _n_ins)
    (HQC : length QC_ins = _n_ins)
    (Hrows : Forall (fun r => length r = S n) QC_ins)
    (Hdrows : Forall (fun r => length r = S n) dQC_ins)
    (Hn : 0 < n)
    (HQ : is_zero (sum (column n QC_ins)) = true) :
  Mixer.dy_dt _n_ins t QC_ins QC dQC_ins u
  = MkRun [sum (column n QC_ins)] u (inl FloatingPointError).
Proof.
  unfold Mixer.dy_dt. rewrite decide_True by exact Hmulti.
  assert (Hne : QC_ins <> []) by (intros ->; simpl in HQC; lia).
  rewrite bind_assoc, (col_last_wf QC_ins n Hrows).
  repeat mstep. rewrite (col_last_wf dQC_ins n Hdrows).
  repeat mstep.
  rewrite (matmul_wf (column n QC_ins) QC_ins n) by (rewrite ?length_column; auto).
  repeat mstep. apply bind_divide_all_zero; [exact HQ|].
  destruct n; [lia|]. rewrite seq_S. simpl. intros E.
  apply (f_equal length) in E. rewrite length_map, length_app in E. simpl in E. lia.
Qed.

(** C1, amended. A Mixer asked for its [ODE] (compiled now, or cached
    from an earlier request) and the function called with upstream
    states [QC_ins] and derivatives [dQC_ins], one row of [n + 1] entries
    per input. With more than one input and a total flow
    [Q = sum_i Q_i] that is not zero, the derivative vector gets
    [dQ = sum_i dQ_i] as its last entry and, at every component [j],
    [(sum_i dQ_i*C_ij + sum_i Q_i*dC_ij - dQ*C_j)/Q] with
    [C_j = (sum_i Q_i*C_ij)/Q]: the quotient rule itself, operation for
    operation. With one input it becomes the upstream derivative row.
    Either way the output stream's derivative slot receives the same
    vector. With more than one input and a total flow of zero the call
    raises [FloatingPointError] at the first division, and the derivative
    vector and the output are as they were. *)
Theorem Mixer_ODE_quotient_rule {A : Type} `{NA : Num A}
    (n : nat) (t : A) (QC_ins dQC_ins : list (list A)) (QC d : list A)
    (u : SanUnit.t A) (o : Stream.t A) (os : list (Stream.t A))
    (Hode : SanUnit._ODE u = None
            \/ SanUnit._ODE u = Some (Mixer_dy_dt (length (SanUnit.ins u))))
    (Hins : 1 <= length (SanUnit.ins u))
    (HQC : length QC_ins = length (SanUnit.ins u))
    (HdQC : length dQC_ins = length (SanUnit.ins u))
    (Hrows : Forall (fun r => length r = S n) QC_ins)
    (Hdrows : Forall (fun r => length r = S n) dQC_ins)
    (Hd : SanUnit._dstate u = Some d)
    (Hlen : length d = S n)
    (Houts : SanUnit.outs u = o :: os) :
  let r := (f ← Mixer.ODE; call f t QC_ins QC dQC_ins) u in
  let Q_i := column n QC_ins in
  let dQ_i := column n dQC_ins in
  let Q := sum Q_i in
  let dQ := sum dQ_i in
  let C j := dot Q_i (column j QC_ins) ⊘ Q in
  (length (SanUnit.ins u) = 1 \/ is_zero Q = false ->
   exists d' : list A,
     outcome r = inr tt
     /\ SanUnit._dstate (final r) = Some d'
     /\ SanUnit.outs (final r) = Stream.set_dstate (Some d') o :: os
     /\ (1 < length (SanUnit.ins u) ->
         length d' = S n
         /\ d' !! n = Some dQ
         /\ forall j, j < n ->
              d' !! j
              = Some ((dot dQ_i (column j QC_ins) ⊕ dot Q_i (column j dQC_ins)
                       ⊖ dQ ⊗ C j) ⊘ Q))
     /\ (length (SanUnit.ins u) = 1 -> dQC_ins !! 0 = Some d'))
  /\ (1 < length (SanUnit.ins u) -> is_zero Q = true -> 0 < n ->
      outcome r = inl FloatingPointError
      /\ SanUnit._dstate (final r) = Some d
      /\ SanUnit.outs (final r) = o :: os).
Proof.
  intros r. subst r. rewrite (bind_run _ _ _ _ _ (Mixer_ODE_run u Hode)).
  unfold call. split.
  - intros Hok.
    apply (Mixer_dy_dt_run (length (SanUnit.ins u)) n t QC_ins dQC_ins QC d
             (SanUnit.set_ODE _ u) o os); auto.
    intros Hmulti. destruct Hok as [Hone|Hnz]; [lia|exact Hnz].
  - intros Hmulti Hz Hn.
    rewrite (Mixer_dy_dt_zero (length (SanUnit.ins u)) n t QC_ins dQC_ins QC _
               Hmulti HQC Hrows Hdrows Hn Hz).
    cbn [outcome final]. split; [reflexivity|]. split; [exact Hd|exact Houts].
Qed.

Lemma Mixer_ODE_quotient_rule_witness :
  let s1 : Stream.t float := Stream.Mk (Some [100; 0; 10]%float) None ∅ in
  let s2 : Stream.t float := Stream.Mk (Some [0; 200; 5]%float) None ∅ in
  let u := SanUnit.set_dstate (Some [0; 0; 0]%float)
             (SanUnit.__init__ [s1; s2] [Stream.fresh] ["X"; "Y"]%string) in
  let r := (f ← Mixer.ODE;
            call f 0%float [[100; 0; 10]; [0; 200; 5]]%float [200; 200; 15]%float
              [[1; 2; 3]; [4; 5; 6]]%float) u in
  exists d' : list float,
    SanUnit._dstate (final r) = Some d' /\ d' = [-18; 43; 9]%float.
Proof.
  intros s1 s2 u r.
  destruct (Mixer_ODE_quotient_rule 2 0%float
              [[100; 0; 10]; [0; 200; 5]]%float [[1; 2; 3]; [4; 5; 6]]%float
              [200; 200; 15]%float [0; 0; 0]%float u Stream.fresh [])
    as (Hok & _);
    [left; reflexivity | simpl; lia | reflexivity | reflexivity
    | repeat constructor | repeat constructor | reflexivity | reflexivity
    | reflexivity | ].
  destruct Hok as (d' & _ & Hd' & _); [right; reflexivity|].
  exists d'. split; [exact Hd'|].
  vm_compute in Hd'. injection Hd' as <-. reflexivity.
Defined.

(** C1 as stated fails when the inputs carry no flow. Two inputs of flow
    0, in binary64: the call raises [FloatingPointError] at
    [Q_ins @ C_ins / Q], the derivative vector of the Mixer is still the
    one it had, and the output has received none. *)
Lemma Mixer_ODE_zero_flow_counterexample :
  let s1 : Stream.t float := Stream.Mk (Some [100; 0; 0]%float) None ∅ in
  let s2 : Stream.t float := Stream.Mk (Some [0; 200; 0]%float) None ∅ in
  let u := SanUnit.set_dstate (Some [0; 0; 0]%float)
             (SanUnit.__init__ [s1; s2] [Stream.fresh] ["X"; "Y"]%string) in
  let r := (f ← Mixer.ODE;
            call f 0%float [[100; 0; 0]; [0; 200; 0]]%float [0; 0; 0]%float
              [[1; 2; 3]; [4; 5; 6]]%float) u in
  outcome r = inl FloatingPointError
  /\ divisors r = [0%float]
  /\ SanUnit._dstate (final r) = Some [0; 0; 0]%float
  /\ map Stream._dstate (SanUnit.outs (final r)) = [None].
Proof. vm_compute. repeat split. Qed.

(** ** HydraulicDelay *)

Section HydraulicDelayFacts.
Context {A : Type} `{NA : Num A}.

Lemma HydraulicDelay_ODE_run (u : SanUnit.t A) (T : A) :
  SanUnit.t_delay u = Some T ->
  SanUnit._ODE u = None \/ SanUnit._ODE u = Some (HydraulicDelay_dy_dt T) ->
  HydraulicDelay.ODE u
  = MkRun [] (SanUnit.set_ODE (Some (HydraulicDelay_dy_dt T)) u)
      (inr (HydraulicDelay_dy_dt T)).
Proof.
  intros HT [E|E]; unfold HydraulicDelay.ODE, Pump.ODE_with; rewrite bind_gets, E.
  - unfold HydraulicDelay._compile_ODE.
    rewrite bind_assoc, (bind_gets_attr _ _ _ T HT). repeat mstep. reflexivity.
  - repeat mstep. unfold gets_attr. rewrite E. destruct u; simpl in *; subst; reflexivity.
Qed.

(** The whole run of [dy_dt] on arrays of the expected shapes, with the
    divisors it meets on each branch. A zero divisor stops it: on the
    steady branch after the last entry of the derivative vector has been
    set to 0, on the other branch either at once or after the last entry
    has been assigned. *)
Lemma HydraulicDelay_dy_dt_run (T t : A) (n k : nat)
    (row QC drow d : list A) (rest drest : list (list A))
    (u : SanUnit.t A) (o : Stream.t A) (os : list (Stream.t A)) :
  length row = S n -> length QC = S n -> length drow = S k ->
  SanUnit._dstate u = Some d -> length d = S n ->
  SanUnit.outs u = o :: os ->
  let Q_in := nth n row nzero in
  let Q := nth n QC nzero in
  let C_in := but_last row in
  let C := but_last QC in
  HydraulicDelay.dy_dt T t (row :: rest) QC (drow :: drest) u
  = if is_zero (nth k drow nzero) then
      if is_zero (Q ⊗ T) && negb (Nat.eqb n 0) then
        MkRun [Q ⊗ T] (SanUnit.set_dstate (Some (but_last d ++ [nzero])) u)
          (inl FloatingPointError)
      else
        logged (Q ⊗ T)
          (MkRun []
             (delayed (map (fun x => x ⊘ (Q ⊗ T))
                         (zip_with nsub (scale Q_in C_in) (scale Q C)) ++ [nzero]) o os u)
             (inr tt))
    else if is_zero T then MkRun [T] u (inl FloatingPointError)
    else if is_zero Q then
      MkRun [T; Q] (SanUnit.set_dstate (Some (but_last d ++ [(Q_in ⊖ Q) ⊘ T])) u)
        (inl FloatingPointError)
    else
      logged T (logged Q (logged T
        (MkRun []
           (delayed (map (fun x => x ⊘ T) (scale (Q_in ⊘ Q) (zip_with nsub C_in C))
                     ++ [(Q_in ⊖ Q) ⊘ T]) o os u)
           (inr tt)))).
Proof.
  intros Hrow HQC Hdrow Hd Hlen Houts Q_in Q C_in C.
  assert (HC : length C_in = n) by (subst C_in; rewrite length_but_last, Hrow; reflexivity).
  assert (HC' : length C = n) by (subst C; rewrite length_but_last, HQC; reflexivity).
  unfold HydraulicDelay.dy_dt. simpl row0. repeat mstep.
  rewrite (item_last_len row n Hrow). repeat mstep.
  rewrite (item_last_len QC n HQC). repeat mstep.
  rewrite (item_last_len drow k Hdrow). repeat mstep.
  fold Q_in Q C_in C.
  destruct (is_zero (nth k drow nzero)).
  - rewrite bind_assoc, (bind_gets_array _ _ _ d Hd). cbv beta.
    repeat mstep. rewrite (set_last_len d n _ Hlen). repeat mstep.
    rewrite broadcast_same by (unfold scale; rewrite !length_map; lia).
    repeat mstep.
    destruct (is_zero (Q ⊗ T)) eqn:Hz; [destruct n as [|n']|]; cbn [andb negb Nat.eqb].
    + assert (E : zip_with nsub (scale Q_in C_in) (scale Q C) = []).
      { apply nil_length_inv. unfold scale. rewrite length_zip_with, !length_map. lia. }
      rewrite E. rewrite bind_divide_all by (right; reflexivity). cbv beta.
      repeat mstep. rewrite set_but_last_len by (rewrite length_but_last, Hlen; reflexivity).
      repeat mstep. unfold HydraulicDelay._update_dstate.
      erewrite Mixer_update_dstate_run by (simpl; exact Houts). reflexivity.
    + apply bind_divide_all_zero; [exact Hz|].
      intros E. apply (f_equal length) in E. unfold scale in E.
      rewrite length_zip_with, !length_map in E. simpl in E. lia.
    + rewrite bind_divide_all by (left; exact Hz). cbv beta.
      repeat mstep. rewrite set_but_last_len.
      2:{ unfold scale. rewrite length_map, length_zip_with, !length_map, length_but_last, Hlen.
          simpl. lia. }
      repeat mstep. unfold HydraulicDelay._update_dstate.
      erewrite Mixer_update_dstate_run by (simpl; exact Houts). reflexivity.
  - rewrite bind_assoc.
    destruct (is_zero T) eqn:HzT; [apply bind_divide_zero; exact HzT|].
    rewrite bind_divide by exact HzT. cbv beta.
    repeat mstep. rewrite (bind_gets_array _ _ _ d Hd). cbv beta.
    repeat mstep. rewrite (set_last_len d n _ Hlen). repeat mstep.
    destruct (is_zero Q) eqn:HzQ.
    + rewrite bind_divide_zero by exact HzQ. reflexivity.
    + rewrite bind_divide by exact HzQ. cbv beta.
      rewrite broadcast_same by lia.
      repeat mstep. rewrite bind_divide_all by (left; exact HzT). cbv beta.
      repeat mstep. rewrite set_but_last_len.
      2:{ unfold scale. rewrite !length_map, length_zip_with, length_but_last, Hlen.
          simpl. lia. }
      repeat mstep. unfold HydraulicDelay._update_dstate.
      erewrite Mixer_update_dstate_run by (simpl; exact Houts). reflexivity.
Qed.

Lemma bind_gets_array_None {S X Y} (g : S -> option X) (f : X -> M A S Y) (s : S) :
  g s = None -> (gets_array g ≫= f) s = MkRun [] s (inl TypeError).
Proof. intros E. unfold mbind, M_bind, bind, gets_array; simpl. rewrite E. reflexivity. Qed.

(** The same run on a unit that has no derivative vector: the steady
    branch stops at its first assignment; the other branch divides by
    [T] before it assigns. *)
Lemma HydraulicDelay_dy_dt_no_dstate (T t : A) (n k : nat)
    (row QC drow : list A) (rest drest : list (list A)) (u : SanUnit.t A) :
  length row = S n -> length QC = S n -> length drow = S k ->
  SanUnit._dstate u = None ->
  HydraulicDelay.dy_dt T t (row :: rest) QC (drow :: drest) u
  = if is_zero (nth k drow nzero) then MkRun [] u (inl TypeError)
    else if is_zero T then MkRun [T] u (inl FloatingPointError)
    else MkRun [T] u (inl TypeError).
Proof.
  intros Hrow HQC Hdrow Hnone.
  unfold HydraulicDelay.dy_dt. simpl row0. repeat mstep.
  rewrite (item_last_len row n Hrow). repeat mstep.
  rewrite (item_last_len QC n HQC). repeat mstep.
  rewrite (item_last_len drow k Hdrow). repeat mstep.
  destruct (is_zero (nth k drow nzero)).
  - rewrite bind_assoc. apply bind_gets_array_None. exact Hnone.
  - rewrite bind_assoc.
    destruct (is_zero T) eqn:HzT; [apply bind_divide_zero; exact HzT|].
    rewrite bind_divide by exact HzT. cbv beta.
    repeat mstep. rewrite bind_gets_array_None by exact Hnone. reflexivity.
Qed.
End HydraulicDelayFacts.

Lemma lookup_but_last {A : Type} `{NA : Num A} (v : list A) (j : nat) :
  j < pred (length v) -> but_last v !! j = Some (nth j v nzero).
Proof.
  intros Hj. rewrite <- (nth_but_last v j Hj).
  destruct (nth_lookup_or_length (but_last v) j nzero) as [E|E]; [exact E|].
  rewrite length_but_last in E. lia.
Qed.

(** C8, amended. A Delay Node with time constant [T] asked for its
    [ODE] and the function called with upstream state [row] (its last
    entry [Q_in], the others [C_in]), own state [QC] (last entry [Q], the
    others [C]) and upstream derivative [drow] (last entry [dQ_in]).
    On a node that holds a derivative vector of [n + 1] entries: if
    [dQ_in == 0] and [Q*T] is not zero, the derivative vector gets [0] as
    its last entry and [(Q_in*C_in - Q*C)/(Q*T)] at every component; if
    [dQ_in] is not zero and neither [T] nor [Q] is, it gets
    [(Q_in - Q)/T] and [Q_in/Q*(C_in - C)/T]; the output stream's
    derivative slot receives the same vector. On a node that holds no
    derivative vector the call raises and assigns nothing. *)
Theorem HydraulicDelay_ODE_two_branch_rule {A : Type} `{NA : Num A}
    (T t : A) (n k : nat) (row QC drow : list A) (rest drest : list (list A))
    (u : SanUnit.t A) (o : Stream.t A) (os : list (Stream.t A))
    (HT : SanUnit.t_delay u = Some T)
    (Hode : SanUnit._ODE u = None \/ SanUnit._ODE u = Some (HydraulicDelay_dy_dt T))
    (Hrow : length row = S n)
    (HQC : length QC = S n)
    (Hdrow : length drow = S k)
    (Houts : SanUnit.outs u = o :: os) :
  let r := (f ← HydraulicDelay.ODE; call f t (row :: rest) QC (drow :: drest)) u in
  let Q_in := nth n row nzero in
  let Q := nth n QC nzero in
  let C_in j := nth j row nzero in
  let C j := nth j QC nzero in
  let dQ_in := nth k drow nzero in
  (forall d, SanUnit._dstate u = Some d -> length d = S n ->
     (is_zero dQ_in = true -> is_zero (Q ⊗ T) = false ->
      exists d' : list A,
        outcome r = inr tt
        /\ SanUnit._dstate (final r) = Some d'
        /\ SanUnit.outs (final r) = Stream.set_dstate (Some d') o :: os
        /\ length d' = S n
        /\ d' !! n = Some nzero
        /\ forall j, j < n ->
             d' !! j = Some ((Q_in ⊗ C_in j ⊖ Q ⊗ C j) ⊘ (Q ⊗ T)))
     /\ (is_zero dQ_in = false -> is_zero T = false -> is_zero Q = false ->
         exists d' : list A,
           outcome r = inr tt
           /\ SanUnit._dstate (final r) = Some d'
           /\ SanUnit.outs (final r) = Stream.set_dstate (Some d') o :: os
           /\ length d' = S n
           /\ d' !! n = Some ((Q_in ⊖ Q) ⊘ T)
           /\ forall j, j < n ->
                d' !! j = Some (Q_in ⊘ Q ⊗ (C_in j ⊖ C j) ⊘ T)))
  /\ (SanUnit._dstate u = None ->
      outcome r = inl (if is_zero dQ_in then TypeError
                       else if is_zero T then FloatingPointError else TypeError)
      /\ SanUnit._dstate (final r) = None
      /\ SanUnit.outs (final r) = SanUnit.outs u).
Proof.
  intros r Q_in Q C_in C dQ_in. subst r.
  rewrite (bind_run _ _ _ _ _ (HydraulicDelay_ODE_run u T HT Hode)). unfold call.
  assert (HCi : length (but_last row) = n) by (rewrite length_but_last, Hrow; reflexivity).
  assert (HCo : length (but_last QC) = n) by (rewrite length_but_last, HQC; reflexivity).
  split.
  - intros d Hd Hlen.
    rewrite (HydraulicDelay_dy_dt_run T t n k row QC drow d rest drest
               (SanUnit.set_ODE _ u) o os) by auto.
    fold Q_in Q dQ_in. split.
    + intros -> ->. cbn [andb]. eexists. simpl.
      split; [reflexivity|]. split; [reflexivity|]. split; [reflexivity|].
      split; [|split].
      * unfold scale. rewrite length_app, length_map, length_zip_with, !length_map.
        simpl. lia.
      * rewrite lookup_app_r;
          unfold scale; rewrite length_map, length_zip_with, !length_map; [|lia].
        replace (n - _) with 0 by lia. reflexivity.
      * intros j Hj. rewrite lookup_app_l
          by (unfold scale; rewrite length_map, length_zip_with, !length_map; lia).
        unfold scale. rewrite list_lookup_fmap, lookup_zip_with, !list_lookup_fmap.
        rewrite !lookup_but_last by (rewrite ?Hrow, ?HQC; simpl; lia).
        reflexivity.
    + intros -> -> ->. eexists. simpl.
      split; [reflexivity|]. split; [reflexivity|]. split; [reflexivity|].
      split; [|split].
      * unfold scale. rewrite length_app, !length_map, length_zip_with.
        simpl. lia.
      * rewrite lookup_app_r;
          unfold scale; rewrite !length_map, length_zip_with; [|lia].
        replace (n - _) with 0 by lia. reflexivity.
      * intros j Hj. rewrite lookup_app_l
          by (unfold scale; rewrite !length_map, length_zip_with; lia).
        unfold scale. rewrite !list_lookup_fmap, lookup_zip_with.
        rewrite !lookup_but_last by (rewrite ?Hrow, ?HQC; simpl; lia).
        reflexivity.
  - intros Hnone.
    rewrite (HydraulicDelay_dy_dt_no_dstate T t n k row QC drow rest drest
               (SanUnit.set_ODE _ u)) by auto.
    fold dQ_in. destruct (is_zero dQ_in); [|destruct (is_zero T)];
      cbn [outcome final]; (split; [reflexivity|]); split; solve [exact Hnone | reflexivity].
Qed.

Lemma HydraulicDelay_ODE_two_branch_rule_witness :
  let s1 : Stream.t float := Stream.Mk (Some [100; 0; 10]%float) None ∅ in
  let u := SanUnit.set_dstate (Some [0; 0; 0]%float)
             (HydraulicDelay.__init__ [s1] [Stream.fresh] ["X"; "Y"]%string
                (Some 0.5%float)) in
  let r := (f ← HydraulicDelay.ODE;
            call f 0%float [[100; 0; 10]]%float [50; 50; 8]%float [[1; 2; 0]]%float) u in
  exists d' : list float,
    SanUnit._dstate (final r) = Some d' /\ d' = [150; -100; 0]%float.
Proof.
  intros s1 u r.
  destruct (HydraulicDelay_ODE_two_branch_rule 0.5%float 0%float 2 2
              [100; 0; 10]%float [50; 50; 8]%float [1; 2; 0]%float
              [] [] u Stream.fresh [])
    as (Hsome & _);
    [reflexivity | left; reflexivity | reflexivity | reflexivity | reflexivity
    | reflexivity | ].
  destruct (Hsome [0; 0; 0]%float eq_refl eq_refl) as (Hsteady & _).
  destruct (Hsteady eq_refl eq_refl) as (d' & _ & Hd' & _).
  exists d'. split; [exact Hd'|].
  vm_compute in Hd'. injection Hd' as <-. reflexivity.
Defined.

(** C8 as stated fails on a node whose current flow is 0. In binary64,
    with a derivative vector in place and a steady inflow: the last entry
    is set to 0 and the division by [Q*T] raises [FloatingPointError];
    no concentration entry is set by the rule and the output receives
    nothing. *)
Lemma HydraulicDelay_zero_flow_counterexample :
  let s1 : Stream.t float := Stream.Mk (Some [100; 0; 10]%float) None ∅ in
  let u := SanUnit.set_dstate (Some [7; 7; 7]%float)
             (HydraulicDelay.__init__ [s1] [Stream.fresh] ["X"; "Y"]%string
                (Some 0.5%float)) in
  let r := (f ← HydraulicDelay.ODE;
            call f 0%float [[100; 0; 10]]%float [50; 50; 0]%float [[1; 2; 0]]%float) u in
  outcome r = inl FloatingPointError
  /\ SanUnit._dstate (final r) = Some [7; 7; 0]%float
  /\ map Stream._dstate (SanUnit.outs (final r)) = [None].
Proof. vm_compute. repeat split. Qed.

Lemma is_zero_Qc (x : Qc) : is_zero x = true <-> x = nzero.
Proof. simpl. apply bool_decide_eq_true. Qed.

(** C10, amended. [HydraulicDelay.__init__] keeps whatever [t_delay] it
    is given, [1e-4] when it is given none, and checks nothing. The
    compiled function divides by [t_delay] and by the current flow [Q]
    (or by their product) with nothing in between to stop it. With
    [t_delay = 0], or with a current flow [Q = 0], every evaluation on a
    node that holds a derivative vector meets a zero divisor, and the
    division raises [FloatingPointError] (unless it is the division of a
    vector of no concentrations). On a node that holds no derivative
    vector the steady branch stops with a [TypeError] before any
    division. Stated in exact arithmetic. *)
Theorem HydraulicDelay_divides_by_zero
    (T t : Qc) (n k : nat) (row QC drow : list Qc) (rest drest : list (list Qc))
    (u : SanUnit.t Qc) (o : Stream.t Qc) (os : list (Stream.t Qc))
    (HT : SanUnit.t_delay u = Some T)
    (Hode : SanUnit._ODE u = None \/ SanUnit._ODE u = Some (HydraulicDelay_dy_dt T))
    (Hrow : length row = S n)
    (HQC : length QC = S n)
    (Hdrow : length drow = S k)
    (Houts : SanUnit.outs u = o :: os)
    (Hzero : is_zero T = true \/ is_zero (nth n QC nzero) = true) :
  let r := (f ← HydraulicDelay.ODE; call f t (row :: rest) QC (drow :: drest)) u in
  let dQ_in := nth k drow nzero in
  (forall ins outs IDs (T' : Qc),
     SanUnit.t_delay (HydraulicDelay.__init__ ins outs IDs (Some T')) = Some T')
  /\ (forall ins outs IDs,
        SanUnit.t_delay (HydraulicDelay.__init__ (A := Qc) ins outs IDs None)
        = Some (nlit (1 # 10000)))
  /\ (forall d, SanUnit._dstate u = Some d -> length d = S n ->
        divides_by_zero r = true
        /\ (0 < n \/ is_zero dQ_in = false -> outcome r = inl FloatingPointError))
  /\ (SanUnit._dstate u = None -> is_zero dQ_in = true ->
      outcome r = inl TypeError /\ divisors r = []).
Proof.
  intros r dQ_in. subst r.
  split; [reflexivity|]. split; [reflexivity|].
  rewrite (bind_run _ _ _ _ _ (HydraulicDelay_ODE_run u T HT Hode)). unfold call.
  assert (Hprod : is_zero (nth n QC nzero ⊗ T) = true).
  { apply is_zero_Qc. destruct Hzero as [H|H]; apply is_zero_Qc in H; rewrite H; simpl.
    - apply Qcmult_0_r.
    - apply Qcmult_0_l. }
  split.
  - intros d Hd Hlen.
    rewrite (HydraulicDelay_dy_dt_run T t n k row QC drow d rest drest
               (SanUnit.set_ODE _ u) o os) by auto.
    fold dQ_in. rewrite Hprod. cbn [andb]. unfold divides_by_zero.
    destruct (is_zero dQ_in).
    + destruct n as [|n']; cbn [negb Nat.eqb].
      * unfold logged. cbn [divisors outcome existsb]. rewrite Hprod.
        split; [reflexivity|]. intros [H|H]; [lia|discriminate].
      * cbn [divisors outcome existsb]. rewrite Hprod. split; reflexivity.
    + destruct (is_zero T) eqn:HzT.
      * cbn [divisors outcome existsb]. rewrite HzT. split; reflexivity.
      * destruct Hzero as [H|H]; [congruence|]. rewrite H.
        cbn [divisors outcome existsb]. rewrite H, HzT. split; reflexivity.
  - intros Hnone Hsteady.
    rewrite (HydraulicDelay_dy_dt_no_dstate T t n k row QC drow rest drest
               (SanUnit.set_ODE _ u)) by auto.
    fold dQ_in. rewrite Hsteady. split; reflexivity.
Qed.

Lemma HydraulicDelay_divides_by_zero_witness :
  let s1 : Stream.t Qc := Stream.Mk (Some [Q2Qc 100; Q2Qc 0; Q2Qc 10]) None ∅ in
  let u := SanUnit.set_dstate (Some [Q2Qc 0; Q2Qc 0; Q2Qc 0])
             (HydraulicDelay.__init__ [s1] [Stream.fresh] ["X"; "Y"]%string
                (Some (Q2Qc 0))) in
  let r := (f ← HydraulicDelay.ODE;
            call f (Q2Qc 0) [[Q2Qc 100; Q2Qc 0; Q2Qc 10]] [Q2Qc 50; Q2Qc 50; Q2Qc 8]
              [[Q2Qc 1; Q2Qc 2; Q2Qc 3]]) u in
  divides_by_zero r = true /\ outcome r = inl FloatingPointError.
Proof.
  intros s1 u r.
  destruct (HydraulicDelay_divides_by_zero (Q2Qc 0) (Q2Qc 0) 2 2
              [Q2Qc 100; Q2Qc 0; Q2Qc 10] [Q2Qc 50; Q2Qc 50; Q2Qc 8]
              [Q2Qc 1; Q2Qc 2; Q2Qc 3] [] [] u Stream.fresh [])
    as (_ & _ & Hsome & _);
    [reflexivity | left; reflexivity | reflexivity | reflexivity | reflexivity
    | reflexivity | left; reflexivity | ].
  destruct (Hsome [Q2Qc 0; Q2Qc 0; Q2Qc 0] eq_refl eq_refl) as (Hz & Hraise).
  split; [exact Hz|]. apply Hraise. left. lia.
Defined.

(** C10 as stated fails on a node that holds no derivative vector, which
    is how the node's own [_init_state] leaves it. In binary64, with
    [t_delay = 0] and a steady inflow: the call stops with a [TypeError]
    at the first assignment, and no division has been evaluated. *)
Lemma HydraulicDelay_no_division_counterexample :
  let s1 : Stream.t float := Stream.Mk (Some [100; 0; 10]%float) None ∅ in
  let u := final (HydraulicDelay._init_state
                    (HydraulicDelay.__init__ [s1] [Stream.fresh] ["X"; "Y"]%string
                       (Some 0%float))) in
  let r := (f ← HydraulicDelay.ODE;
            call f 0%float [[100; 0; 10]]%float [100; 0; 10]%float [[0; 0; 0]]%float) u in
  SanUnit._state u = Some [100; 0; 10]%float
  /\ outcome r = inl TypeError
  /\ divisors r = []
  /\ divides_by_zero r = false.
Proof. vm_compute. repeat split. Qed.

(** The evaluation of the witness in binary64, on the other branch: the
    division by [t_delay = 0] raises before anything is assigned. *)
Example HydraulicDelay_zero_delay_float :
  let s1 : Stream.t float := Stream.Mk (Some [100; 0; 10]%float) None ∅ in
  let u := SanUnit.set_dstate (Some [0; 0; 0]%float)
             (HydraulicDelay.__init__ [s1] [Stream.fresh] ["X"; "Y"]%string
                (Some 0%float)) in
  let r := (f ← HydraulicDelay.ODE;
            call f 0%float [[100; 0; 10]]%float [50; 50; 8]%float [[1; 2; 3]]%float) u in
  outcome r = inl FloatingPointError
  /\ divides_by_zero r = true
  /\ SanUnit._dstate (final r) = Some [0; 0; 0]%float.
Proof. vm_compute. repeat split. Qed.

(** ** Initial states *)

Lemma collect_ins_state_run {A : Type} (u : SanUnit.t A) (QCs : list (list A)) :
  map Stream._state (SanUnit.ins u) = map Some QCs ->
  SanUnit._collect_ins_state u = MkRun [] u (inr QCs).
Proof.
  unfold SanUnit._collect_ins_state. intros E. f_equal.
  revert QCs E. induction (SanUnit.ins u) as [|s l IH]; intros [|r QCs] E;
    try discriminate; [reflexivity|].
  simpl in E. injection E as Es El. simpl. rewrite Es. simpl.
  rewrite (IH QCs El). reflexivity.
Qed.

Lemma times_zero_Qc (v : list Qc) :
  map (fun x => x ⊗ nzero) v = replicate (length v) nzero.
Proof.
  induction v as [|x v IH]; simpl; [reflexivity|].
  f_equal; [apply Qcmult_0_r|exact IH].
Qed.

(** [Mixer._init_state] with several inputs, for any arithmetic: when
    the total flow is not zero, and when it is. *)
Lemma Mixer_init_state_many {A : Type} `{NA : Num A}
    (n : nat) (QCs : list (list A)) (u : SanUnit.t A) :
  map Stream._state (SanUnit.ins u) = map Some QCs ->
  1 < length QCs ->
  Forall (fun r => length r = S n) QCs ->
  let Q := sum (column n QCs) in
  let st := append (map (fun x => x ⊘ Q)
                      (map (fun j => dot (column n QCs) (column j (cols_but_last QCs)))
                         (seq 0 n))) Q in
  is_zero Q = false \/ n = 0 ->
  Mixer._init_state u
  = logged Q (MkRun []
                (SanUnit.set_dstate (Some (map (fun x => x ⊗ nzero) st))
                   (SanUnit.set_state (Some st) u))
                (inr tt)).
Proof.
  intros Hins Hmany Hrows Q st HQ. subst Q st. unfold Mixer._init_state.
  rewrite (bind_run _ _ _ _ _ (collect_ins_state_run u QCs Hins)).
  rewrite decide_False by lia.
  assert (Hnil : QCs <> []) by (intros ->; simpl in *; lia).
  rewrite bind_assoc, (col_last_wf QCs n Hrows). repeat mstep.
  rewrite (matmul_wf (column n QCs) QCs n) by (rewrite ?length_column; auto).
  repeat mstep.
  rewrite bind_divide_all by (destruct HQ as [HQ| ->]; [left; exact HQ|right; reflexivity]).
  cbv beta. repeat mstep. reflexivity.
Qed.

Lemma Mixer_init_state_zero {A : Type} `{NA : Num A}
    (n : nat) (QCs : list (list A)) (u : SanUnit.t A) :
  map Stream._state (SanUnit.ins u) = map Some QCs ->
  1 < length QCs ->
  Forall (fun r => length r = S n) QCs ->
  0 < n ->
  is_zero (sum (column n QCs)) = true ->
  Mixer._init_state u = MkRun [sum (column n QCs)] u (inl FloatingPointError).
Proof.
  intros Hins Hmany Hrows Hn HQ. unfold Mixer._init_state.
  rewrite (bind_run _ _ _ _ _ (collect_ins_state_run u QCs Hins)).
  rewrite decide_False by lia.
  assert (Hnil : QCs <> []) by (intros ->; simpl in *; lia).
  rewrite bind_assoc, (col_last_wf QCs n Hrows). repeat mstep.
  rewrite (matmul_wf (column n QCs) QCs n) by (rewrite ?length_column; auto).
  repeat mstep. apply bind_divide_all_zero; [exact HQ|].
  intros E. apply (f_equal length) in E. rewrite length_map, length_seq in E.
  simpl in E. lia.
Qed.

(** C9, amended. [Mixer._init_state] when every input has a state of
    [n + 1] entries. One input: the state is that input's state. Several
    inputs whose total flow [Q = sum_i Q_i] is not zero: the last entry
    is [Q] and component [j] is [(sum_i Q_i*C_ij)/Q]. In both cases the
    derivative vector is the zero vector of the same length. Several
    inputs whose total flow is zero: the division raises
    [FloatingPointError] and neither vector is assigned. Stated in exact
    arithmetic. *)
Theorem Mixer_init_state_flow_weighted
    (n : nat) (QCs : list (list Qc)) (u : SanUnit.t Qc)
    (Hins : map Stream._state (SanUnit.ins u) = map Some QCs)
    (Hne : 1 <= length QCs)
    (Hrows : Forall (fun r => length r = S n) QCs) :
  let r := Mixer._init_state u in
  let Q_i := column n QCs in
  (length QCs = 1 \/ sum Q_i <> nzero ->
   exists st : list Qc,
     outcome r = inr tt
     /\ SanUnit._state (final r) = Some st
     /\ SanUnit._dstate (final r) = Some (replicate (S n) nzero)
     /\ length st = S n
     /\ (length QCs = 1 -> QCs !! 0 = Some st)
     /\ (1 < length QCs ->
         st !! n = Some (sum Q_i)
         /\ forall j, j < n -> st !! j = Some (dot Q_i (column j QCs) ⊘ sum Q_i)))
  /\ (1 < length QCs -> sum Q_i = nzero -> 0 < n ->
      outcome r = inl FloatingPointError /\ final r = u).
Proof.
  intros r Q_i. subst r Q_i. split.
  - intros Hok. destruct (decide (length QCs <= 1)) as [Hone|Hmany].
    + unfold Mixer._init_state.
      rewrite (bind_run _ _ _ _ _ (collect_ins_state_run u QCs Hins)).
      rewrite decide_True by exact Hone.
      destruct QCs as [|row [|? ?]]; simpl in Hne, Hone; try lia.
      apply Forall_cons in Hrows as [Hrow _].
      simpl row0. repeat mstep. rewrite (bind_gets_array _ _ _ row) by reflexivity.
      repeat mstep. exists row. simpl. rewrite times_zero_Qc, Hrow.
      split; [reflexivity|]. split; [reflexivity|]. split; [reflexivity|].
      split; [reflexivity|]. split; [reflexivity|]. intros; lia.
    + assert (HQ : is_zero (sum (column n QCs)) = false).
      { destruct Hok as [H|H]; [lia|].
        destruct (is_zero (sum (column n QCs))) eqn:E; [|reflexivity].
        apply is_zero_Qc in E. destruct (H E). }
      rewrite (Mixer_init_state_many n QCs u Hins ltac:(lia) Hrows (or_introl HQ)).
      unfold logged. cbn [outcome final divisors].
      match goal with
      | |- context [SanUnit.set_state (Some ?s) u] => set (st := s)
      end.
      assert (Hst : length st = S n).
      { subst st. unfold append. rewrite length_app, !length_map, length_seq. simpl. lia. }
      exists st. simpl. rewrite times_zero_Qc, Hst.
      split; [reflexivity|]. split; [reflexivity|]. split; [reflexivity|].
      split; [reflexivity|]. split; [intros; lia|]. intros _. subst st. unfold append. split.
      * rewrite lookup_app_r; rewrite !length_map, length_seq; [|lia].
        rewrite Nat.sub_diag. reflexivity.
      * intros j Hj. rewrite lookup_app_l by (rewrite !length_map, length_seq; lia).
        rewrite !list_lookup_fmap, lookup_seq_lt by exact Hj. simpl.
        rewrite (column_cols_but_last QCs n j Hrows Hj). reflexivity.
  - intros Hmany Hz Hn.
    rewrite (Mixer_init_state_zero n QCs u Hins Hmany Hrows Hn)
      by (apply is_zero_Qc; exact Hz).
    split; reflexivity.
Qed.

(** The example of the specification: [Q1 = 10, C1 = [100, 0]] and
    [Q2 = 5, C2 = [0, 200]] give [Q = 15] and [C = [200/3, 200/3]],
    within [1e-3] of [66.667]. *)
Lemma Mixer_init_state_flow_weighted_witness :
  let s1 : Stream.t Qc := Stream.Mk (Some [Q2Qc 100; Q2Qc 0; Q2Qc 10]) None ∅ in
  let s2 : Stream.t Qc := Stream.Mk (Some [Q2Qc 0; Q2Qc 200; Q2Qc 5]) None ∅ in
  let u := SanUnit.__init__ [s1; s2] [Stream.fresh] ["X"; "Y"]%string in
  let r := Mixer._init_state u in
  exists st : list Qc,
    SanUnit._state (final r) = Some st
    /\ st = [Q2Qc (200 # 3); Q2Qc (200 # 3); Q2Qc 15]
    /\ SanUnit._dstate (final r) = Some [Q2Qc 0; Q2Qc 0; Q2Qc 0]
    /\ (Q2Qc (66666 # 1000) <= Q2Qc (200 # 3) <= Q2Qc (66668 # 1000))%Qc.
Proof.
  intros s1 s2 u r.
  destruct (Mixer_init_state_flow_weighted 2
              [[Q2Qc 100; Q2Qc 0; Q2Qc 10]; [Q2Qc 0; Q2Qc 200; Q2Qc 5]] u)
    as (Hok & _);
    [reflexivity | simpl; lia | repeat constructor | ].
  destruct Hok as (st & _ & Hst & Hd & _); [right; discriminate|].
  exists st. split; [exact Hst|]. split; [|split; [exact Hd|]].
  - vm_compute in Hst. injection Hst as <-.
    repeat f_equal; apply Qc_is_canon; reflexivity.
  - split; vm_compute; discriminate.
Defined.

(** C9 as stated fails for inputs that carry no flow. Two inputs of flow
    0, in binary64: [_init_state] raises [FloatingPointError] at the
    division by the total flow, and the Mixer has neither a state nor a
    derivative vector. *)
Lemma Mixer_init_state_zero_flow_counterexample :
  let s1 : Stream.t float := Stream.Mk (Some [100; 0; 0]%float) None ∅ in
  let s2 : Stream.t float := Stream.Mk (Some [0; 200; 0]%float) None ∅ in
  let r := Mixer._init_state (SanUnit.__init__ [s1; s2] [Stream.fresh] ["X"; "Y"]%string) in
  outcome r = inl FloatingPointError
  /\ SanUnit._state (final r) = None
  /\ SanUnit._dstate (final r) = None.
Proof. vm_compute. repeat split. Qed.

(** The same example in binary64. *)
Example Mixer_init_state_float :
  let s1 : Stream.t float := Stream.Mk (Some [100; 0; 10]%float) None ∅ in
  let s2 : Stream.t float := Stream.Mk (Some [0; 200; 5]%float) None ∅ in
  let r := Mixer._init_state (SanUnit.__init__ [s1; s2] [Stream.fresh] ["X"; "Y"]%string) in
  exists c : float,
    SanUnit._state (final r) = Some [c; c; 15%float]
    /\ SanUnit._dstate (final r) = Some [0; 0; 0]%float
    /\ PrimFloat.leb (PrimFloat.abs (c ⊖ nlit (66667 # 1000))) (nlit (1 # 1000)) = true.
Proof. eexists. vm_compute. repeat split. Qed.

(** ** Splitter *)

Section SplitterFacts.
Context {A : Type} `{NA : Num A}.

(** [_init_state] up to its first division. *)
Lemma Splitter_init_state_head (u : SanUnit.t A) (row s : list A) (rest : list (list A))
    (i : nat) (s_ref : A) :
  map Stream._state (SanUnit.ins u) = map Some (row :: rest) ->
  SanUnit.split u = Some s ->
  index "H2O" (SanUnit.components u) (SanUnit.synonyms u) = inr i ->
  s !! i = Some s_ref ->
  Splitter._init_state u
  = (out0 ← divide_all s s_ref;
     modify (SanUnit.set_split_out0_state (Some (append out0 s_ref)));;
     out1 ← divide_all (map (fun x => nunit ⊖ x) s) (nunit ⊖ s_ref);
     modify (SanUnit.set_split_out1_state (Some (append out1 (nunit ⊖ s_ref)))))
      (SanUnit.set_dstate (Some (map (fun x => x ⊗ nzero) row))
         (SanUnit.set_state (Some row) u)).
Proof.
  intros Hins Hs Hi Href. unfold Splitter._init_state.
  rewrite (bind_run _ _ _ _ _ (collect_ins_state_run u _ Hins)).
  simpl row0. repeat mstep.
  rewrite (bind_gets_array _ _ _ row) by reflexivity. repeat mstep.
  rewrite (bind_gets_attr _ _ _ s) by exact Hs. repeat mstep.
  simpl SanUnit.components. simpl SanUnit.synonyms. rewrite Hi. repeat mstep.
  rewrite Href. repeat mstep. reflexivity.
Qed.

(** The state of the unit after [_init_state], when the split of the
    reference component is neither 0 nor 1. *)
Lemma Splitter_init_state_run (u : SanUnit.t A) (row s : list A) (rest : list (list A))
    (i : nat) (s_ref : A) :
  map Stream._state (SanUnit.ins u) = map Some (row :: rest) ->
  SanUnit.split u = Some s ->
  index "H2O" (SanUnit.components u) (SanUnit.synonyms u) = inr i ->
  s !! i = Some s_ref ->
  is_zero s_ref = false -> is_zero (nunit ⊖ s_ref) = false ->
  Splitter._init_state u
  = logged s_ref (logged (nunit ⊖ s_ref)
      (MkRun []
         (SanUnit.set_split_out1_state
            (Some (append (map (fun x => x ⊘ (nunit ⊖ s_ref)) (map (fun x => nunit ⊖ x) s))
                     (nunit ⊖ s_ref)))
            (SanUnit.set_split_out0_state
               (Some (append (map (fun x => x ⊘ s_ref) s) s_ref))
               (SanUnit.set_dstate (Some (map (fun x => x ⊗ nzero) row))
                  (SanUnit.set_state (Some row) u))))
         (inr tt))).
Proof.
  intros Hins Hs Hi Href H0 H1.
  rewrite (Splitter_init_state_head u row s rest i s_ref Hins Hs Hi Href).
  rewrite bind_divide_all by (left; exact H0). cbv beta. repeat mstep.
  rewrite bind_divide_all by (left; exact H1). cbv beta. reflexivity.
Qed.

(** [_init_state] when the split of the reference component is 0: the
    first division raises, and no scale vector exists. When it is 1: the
    second division raises, and only the first scale vector exists. *)
Lemma Splitter_init_state_zero (u : SanUnit.t A) (row s : list A) (rest : list (list A))
    (i : nat) (s_ref : A) :
  map Stream._state (SanUnit.ins u) = map Some (row :: rest) ->
  SanUnit.split u = Some s ->
  index "H2O" (SanUnit.components u) (SanUnit.synonyms u) = inr i ->
  s !! i = Some s_ref ->
  is_zero s_ref = true ->
  Splitter._init_state u
  = MkRun [s_ref]
      (SanUnit.set_dstate (Some (map (fun x => x ⊗ nzero) row))
         (SanUnit.set_state (Some row) u))
      (inl FloatingPointError).
Proof.
  intros Hins Hs Hi Href H0.
  rewrite (Splitter_init_state_head u row s rest i s_ref Hins Hs Hi Href).
  apply bind_divide_all_zero; [exact H0|]. intros ->. discriminate.
Qed.

Lemma Splitter_init_state_one (u : SanUnit.t A) (row s : list A) (rest : list (list A))
    (i : nat) (s_ref : A) :
  map Stream._state (SanUnit.ins u) = map Some (row :: rest) ->
  SanUnit.split u = Some s ->
  index "H2O" (SanUnit.components u) (SanUnit.synonyms u) = inr i ->
  s !! i = Some s_ref ->
  is_zero s_ref = false -> is_zero (nunit ⊖ s_ref) = true ->
  Splitter._init_state u
  = MkRun [s_ref; nunit ⊖ s_ref]
      (SanUnit.set_split_out0_state
         (Some (append (map (fun x => x ⊘ s_ref) s) s_ref))
         (SanUnit.set_dstate (Some (map (fun x => x ⊗ nzero) row))
            (SanUnit.set_state (Some row) u)))
      (inl FloatingPointError).
Proof.
  intros Hins Hs Hi Href H0 H1.
  rewrite (Splitter_init_state_head u row s rest i s_ref Hins Hs Hi Href).
  rewrite bind_divide_all by (left; exact H0). cbv beta. repeat mstep.
  rewrite bind_divide_all_zero; [reflexivity|exact H1|].
  intros E. apply (f_equal length) in E. rewrite length_map in E.
  destruct s; [discriminate|discriminate].
Qed.

Lemma set_out_state_run (u : SanUnit.t A) (i : nat) (v : option (list A)) (o : Stream.t A) :
  SanUnit.outs u !! i = Some o ->
  SanUnit.set_out_state i v u
  = MkRun [] (SanUnit.set_outs (<[i := Stream.set_state v o]> (SanUnit.outs u)) u) (inr tt).
Proof. intros E. unfold SanUnit.set_out_state. rewrite E. reflexivity. Qed.

(** [_update_state] once the two scale vectors exist. *)
Lemma Splitter_update_state_run (u : SanUnit.t A) (arr scale0 scale1 : list A)
    (o0 o1 : Stream.t A) (os : list (Stream.t A)) :
  SanUnit._split_out0_state u = Some scale0 ->
  SanUnit._split_out1_state u = Some scale1 ->
  length scale0 = length arr -> length scale1 = length arr ->
  SanUnit.outs u = o0 :: o1 :: os ->
  Splitter._update_state arr u
  = MkRun []
      (SanUnit.set_outs
         (Stream.set_state (Some (zip_with nmul scale0 arr)) o0
          :: Stream.set_state (Some (zip_with nmul scale1 arr)) o1 :: os)
         (SanUnit.set_state (Some arr) u))
      (inr tt).
Proof.
  intros H0 H1 L0 L1 Ho. unfold Splitter._update_state. repeat mstep.
  rewrite (bind_gets_attr _ _ _ scale0) by exact H0. repeat mstep.
  rewrite broadcast_same by exact L0. repeat mstep.
  rewrite (bind_run _ _ _ _ _
             (set_out_state_run (SanUnit.set_state (Some arr) u) 0 _ o0
                ltac:(simpl; rewrite Ho; reflexivity))).
  rewrite (bind_gets_attr _ _ _ scale1) by exact H1. repeat mstep.
  rewrite broadcast_same by exact L1. repeat mstep.
  rewrite (set_out_state_run _ 1 _ o1) by (simpl; rewrite Ho; reflexivity).
  simpl. rewrite Ho. reflexivity.
Qed.

Lemma scaled_lookup (f : A -> A) (s arr : list A) (x : A) (j : nat) :
  length arr = S (length s) -> j < length s ->
  zip_with nmul (append (map f s) x) arr !! j
  = Some (f (nth j s nzero) ⊗ nth j arr nzero).
Proof.
  intros L Hj. unfold append. rewrite lookup_zip_with.
  rewrite lookup_app_l by (rewrite length_map; exact Hj).
  rewrite list_lookup_fmap.
  destruct (nth_lookup_or_length s j nzero) as [-> |]; [|lia].
  destruct (nth_lookup_or_length arr j nzero) as [-> |]; [|lia].
  reflexivity.
Qed.

Lemma scaled_lookup_last (f : A -> A) (s arr : list A) (x : A) :
  length arr = S (length s) ->
  zip_with nmul (append (map f s) x) arr !! length s
  = Some (x ⊗ nth (length s) arr nzero).
Proof.
  intros L. unfold append. rewrite lookup_zip_with.
  rewrite lookup_app_r by (rewrite length_map; lia).
  rewrite length_map, Nat.sub_diag.
  destruct (nth_lookup_or_length arr (length s) nzero) as [-> |]; [|lia].
  reflexivity.
Qed.
End SplitterFacts.

Lemma Qc_not_zero (x : Qc) : x <> nzero -> is_zero x = false.
Proof.
  intros H. destruct (is_zero x) eqn:E; [|reflexivity].
  apply is_zero_Qc in E. destruct (H E).
Qed.

Lemma Qc_not_one (x : Qc) : x <> nunit -> is_zero (nunit ⊖ x) = false.
Proof.
  intros H. apply Qc_not_zero. intros E. apply H. simpl in *.
  replace x with (1 - (1 - x))%Qc by ring. rewrite E. ring.
Qed.

(** C2, amended. A Splitter with split [s] whose reference component,
    the one that ["H2O"] stands for, has the split [s_ref]. When [s_ref]
    is neither 0 nor 1, [_init_state] stores the scale vectors
    [append(s/s_ref, s_ref)] and [append((1-s)/(1-s_ref), 1-s_ref)], and
    [_update_state(arr)] writes their products with [arr] into the two
    outputs; the two branches conserve the flow and the mass of every
    component. The identity is proved in exact arithmetic, where it holds
    exactly. When [s_ref] is 0 or 1, [_init_state] raises
    [FloatingPointError] at the division by [s_ref] or by [1 - s_ref]:
    the second scale vector is not created, nor the first when [s_ref]
    is 0, and the outputs are untouched. *)
Theorem Splitter_mass_conservation
    (u : SanUnit.t Qc) (row s arr : list Qc) (rest : list (list Qc))
    (i : nat) (s_ref : Qc) (o0 o1 : Stream.t Qc) (os : list (Stream.t Qc))
    (Hins : map Stream._state (SanUnit.ins u) = map Some (row :: rest))
    (Hs : SanUnit.split u = Some s)
    (Hi : index "H2O" (SanUnit.components u) (SanUnit.synonyms u) = inr i)
    (Href : s !! i = Some s_ref)
    (Hlen : length arr = S (length s))
    (Houts : SanUnit.outs u = o0 :: o1 :: os) :
  let n := length s in
  let r0 := Splitter._init_state u in
  let r := (Splitter._init_state;; Splitter._update_state arr) u in
  let Q := nth n arr nzero in
  (s_ref <> nzero -> s_ref <> nunit ->
   exists b0 b1 : list Qc,
     outcome r = inr tt
     /\ SanUnit._split_out0_state (final r)
        = Some (append (map (fun x => x ⊘ s_ref) s) s_ref)
     /\ SanUnit._split_out1_state (final r)
        = Some (append (map (fun x => (nunit ⊖ x) ⊘ (nunit ⊖ s_ref)) s) (nunit ⊖ s_ref))
     /\ SanUnit._state (final r) = Some arr
     /\ SanUnit.outs (final r)
        = Stream.set_state (Some b0) o0 :: Stream.set_state (Some b1) o1 :: os
     /\ nth n b0 nzero ⊕ nth n b1 nzero = Q
     /\ forall j, j < n -> mass_flow n j b0 ⊕ mass_flow n j b1 = mass_flow n j arr)
  /\ (s_ref = nzero \/ s_ref = nunit ->
      outcome r0 = inl FloatingPointError
      /\ outcome r = inl FloatingPointError
      /\ SanUnit._split_out1_state (final r0) = SanUnit._split_out1_state u
      /\ (s_ref = nzero ->
          SanUnit._split_out0_state (final r0) = SanUnit._split_out0_state u)
      /\ SanUnit.outs (final r0) = o0 :: o1 :: os).
Proof.
  intros n r0 r Q. subst n r0 r Q. unfold mass_flow. split.
  - intros Hnot0 Hnot1. unfold mbind, M_bind, bind.
    rewrite (Splitter_init_state_run u row s rest i s_ref Hins Hs Hi Href
               (Qc_not_zero _ Hnot0) (Qc_not_one _ Hnot1)).
    unfold logged. cbn [outcome final divisors].
    rewrite map_map.
    erewrite Splitter_update_state_run;
      [ | reflexivity | reflexivity
        | unfold append; rewrite length_app, length_map; simpl; lia
        | unfold append; rewrite length_app, length_map; simpl; lia
        | simpl; exact Houts ].
    cbn [outcome final]. eexists _, _.
    split; [reflexivity|]. split; [reflexivity|]. split; [reflexivity|].
    split; [reflexivity|]. split; [reflexivity|].
    assert (Hd : (1 - s_ref)%Qc <> 0%Qc).
    { intros E. apply Hnot1. simpl.
      replace s_ref with (1 - (1 - s_ref))%Qc by ring. rewrite E. ring. }
    rewrite !(nth_lookup_Some _ _ _ _ (scaled_lookup_last _ s arr _ Hlen)).
    split.
    + simpl. ring.
    + intros j Hj.
      rewrite !(nth_lookup_Some _ _ _ _ (scaled_lookup _ s arr _ j Hlen Hj)).
      simpl. field. split; [exact Hd|exact Hnot0].
  - intros Hbad. rewrite outcome_bind.
    destruct (is_zero s_ref) eqn:H0.
    + rewrite (Splitter_init_state_zero u row s rest i s_ref Hins Hs Hi Href H0).
      cbn [outcome final]. repeat split; try reflexivity. exact Houts.
    + assert (H1 : is_zero (nunit ⊖ s_ref) = true).
      { destruct Hbad as [->| ->]; [discriminate|]. apply is_zero_Qc. simpl. ring. }
      rewrite (Splitter_init_state_one u row s rest i s_ref Hins Hs Hi Href H0 H1).
      cbn [outcome final]. split; [reflexivity|]. split; [reflexivity|].
      split; [reflexivity|]. split; [|exact Houts].
      intros ->. discriminate.
Qed.

Lemma Splitter_mass_conservation_witness :
  let s1 : Stream.t Qc := Stream.Mk (Some [Q2Qc 100; Q2Qc 1000; Q2Qc 10]) None ∅ in
  let u := Splitter.__init__ [s1] [Stream.fresh; Stream.fresh] ["X"; "H2O"]%string
             [Q2Qc (1 # 2); Q2Qc (1 # 4)] in
  let arr := [Q2Qc 80; Q2Qc 900; Q2Qc 12] in
  let r := (Splitter._init_state;; Splitter._update_state arr) u in
  exists b0 b1 : list Qc,
    SanUnit.outs (final r)
    = [Stream.set_state (Some b0) Stream.fresh; Stream.set_state (Some b1) Stream.fresh]
    /\ mass_flow 2 0 b0 ⊕ mass_flow 2 0 b1 = mass_flow 2 0 arr.
Proof.
  intros s1 u arr r.
  destruct (Splitter_mass_conservation u [Q2Qc 100; Q2Qc 1000; Q2Qc 10]
              [Q2Qc (1 # 2); Q2Qc (1 # 4)] arr [] 1 (Q2Qc (1 # 4))
              Stream.fresh Stream.fresh [])
    as (Hok & _);
    [reflexivity | reflexivity | reflexivity | reflexivity | reflexivity | reflexivity | ].
  destruct Hok as (b0 & b1 & _ & _ & _ & _ & Ho & _ & Hj); [discriminate | discriminate |].
  exists b0, b1. split; [exact Ho|]. apply Hj. simpl. lia.
Defined.

(** C2 as stated fails on a split vector of [[0,1]^n] whose reference
    entry is 0 or 1. In binary64, with the reference entry 0:
    [_init_state] raises [FloatingPointError] at [s/s_flow] and creates
    no scale vector; [_update_state] then raises [AttributeError], and
    neither output has received a state. With the reference entry 1 it
    raises at [(1-s)/(1-s_flow)], and the second scale vector does not
    exist. *)
Lemma Splitter_zero_reference_counterexample :
  let s1 : Stream.t float := Stream.Mk (Some [100; 1000; 10]%float) None ∅ in
  let u s := Splitter.__init__ [s1] [Stream.fresh; Stream.fresh] ["X"; "H2O"]%string s in
  let arr := [100; 1000; 10]%float in
  let r := Splitter._init_state (u [0.5; 0]%float) in
  let r' := Splitter._update_state arr (final r) in
  let r1 := Splitter._init_state (u [0.5; 1]%float) in
  outcome r = inl FloatingPointError
  /\ SanUnit._split_out0_state (final r) = None
  /\ SanUnit._split_out1_state (final r) = None
  /\ outcome r' = inl AttributeError
  /\ map Stream._state (SanUnit.outs (final r')) = [None; None]
  /\ outcome r1 = inl FloatingPointError
  /\ SanUnit._split_out1_state (final r1) = None.
Proof. vm_compute. repeat split. Qed.

(** An evaluation in binary64, where the identity holds within a
    tolerance: split [0.3, 0.7] of [X] and water, state
    [C_X = 80, C_H2O = 900, Q = 12]. The flows of the branches add up to
    [Q], and the mass flows of each component to the incoming one within
    [1e-9]. *)
Example Splitter_mass_conservation_float :
  let s1 : Stream.t float := Stream.Mk (Some [100; 1000; 10]%float) None ∅ in
  let u := Splitter.__init__ [s1] [Stream.fresh; Stream.fresh] ["X"; "H2O"]%string
             [nlit (3 # 10); nlit (7 # 10)] in
  let arr := [80; 900; 12]%float in
  let r := (Splitter._init_state;; Splitter._update_state arr) u in
  let close x y := PrimFloat.leb (PrimFloat.abs (x ⊖ y)) (nlit (1 # 1000000000)) in
  exists b0 b1 : list float,
    outcome r = inr tt
    /\ map Stream._state (SanUnit.outs (final r)) = [Some b0; Some b1]
    /\ close (nth 2 b0 nzero ⊕ nth 2 b1 nzero) (nth 2 arr nzero) = true
    /\ close (mass_flow 2 0 b0 ⊕ mass_flow 2 0 b1) (mass_flow 2 0 arr) = true
    /\ close (mass_flow 2 1 b0 ⊕ mass_flow 2 1 b1) (mass_flow 2 1 arr) = true.
Proof. eexists _, _. vm_compute. repeat split. Qed.

(** ** reset_cache *)

(** C4, amended. [reset_cache], the same method in Mixer, Splitter, Pump
    and (inherited) HydraulicDelay: it never raises, whatever the unit,
    initialised or not; it leaves the state undefined and every output
    emptied; it leaves the derivative vector as it was; and resetting
    what has been reset changes nothing. *)
Theorem reset_cache_clears_state_only {A : Type} `{NA : Num A} (u : SanUnit.t A) :
  let r := Pump.reset_cache u in
  Mixer.reset_cache u = r
  /\ Splitter.reset_cache u = r
  /\ HydraulicDelay.reset_cache u = r
  /\ outcome r = inr tt
  /\ SanUnit._state (final r) = None
  /\ SanUnit.outs (final r) = map Stream.empty (SanUnit.outs u)
  /\ Forall (fun s => s = Stream.Mk None None ∅) (SanUnit.outs (final r))
  /\ SanUnit._dstate (final r) = SanUnit._dstate u
  /\ Pump.reset_cache (final r) = r.
Proof.
  intros r. subst r.
  split; [reflexivity|]. split; [reflexivity|]. split; [reflexivity|].
  split; [reflexivity|]. split; [reflexivity|]. split; [reflexivity|].
  split; [|split; [reflexivity|]].
  - simpl. apply Forall_fmap, Forall_true. reflexivity.
  - unfold Pump.reset_cache, SanUnit.empty_outs. repeat mstep.
    unfold SanUnit.set_outs, SanUnit.set_state, modify. simpl.
    rewrite map_map. simpl. reflexivity.
Qed.

(** C4 as stated fails: a Pump that has been initialised has a
    derivative vector, and still has it after [reset_cache]. *)
Lemma reset_cache_keeps_dstate_counterexample :
  let s1 : Stream.t float := Stream.Mk (Some [100; 0; 10]%float) None ∅ in
  let u := final (Pump._init_state
                    (SanUnit.__init__ [s1] [Stream.fresh] ["X"; "Y"]%string)) in
  SanUnit._dstate u = Some [0; 0; 0]%float
  /\ SanUnit._state (final (Pump.reset_cache u)) = None
  /\ SanUnit._dstate (final (Pump.reset_cache u)) = Some [0; 0; 0]%float.
Proof. vm_compute. repeat split. Qed.

(** ** The state setter and _update_state *)

(** C5, amended. The check of the shape is in the [state] setter of
    Splitter and Pump (HydraulicDelay inherits it; Mixer has no setter):
    a value whose shape is not [(n_components + 1,)] is refused with a
    [ValueError] and the unit is untouched, any other is stored, and the
    outputs are not written. [_update_state] of Mixer and Pump checks
    nothing: whatever the length of [arr], it stores [arr] and hands it to
    the output. *)
Theorem state_setter_validates_update_state_does_not {A : Type} `{NA : Num A}
    (u : SanUnit.t A) (QCs : SanUnit.array_like) (arr : list A)
    (o : Stream.t A) (os : list (Stream.t A))
    (Houts : SanUnit.outs u = o :: os) :
  let n := length (SanUnit.components u) in
  let r := Pump.state_setter QCs u in
  let r' := Pump._update_state arr u in
  Splitter.state_setter QCs u = r
  /\ HydraulicDelay.state_setter QCs u = r
  /\ outcome (Mixer.state_setter QCs u) = inl AttributeError
  /\ (SanUnit.shape QCs <> [n + 1] ->
      outcome r = inl (ValueError state_must_be_1D) /\ final r = u)
  /\ (SanUnit.shape QCs = [n + 1] ->
      exists v, QCs = SanUnit.Array1 v /\ length v = n + 1
                /\ outcome r = inr tt
                /\ final r = SanUnit.set_state (Some v) u)
  /\ SanUnit.outs (final r) = SanUnit.outs u
  /\ Mixer._update_state arr u = r'
  /\ HydraulicDelay._update_state arr u = r'
  /\ outcome r' = inr tt
  /\ SanUnit._state (final r') = Some arr
  /\ SanUnit.outs (final r') = Stream.set_state (Some arr) o :: os.
Proof.
  intros n r r'. subst n r r'.
  split; [reflexivity|]. split; [reflexivity|]. split; [reflexivity|].
  unfold Pump.state_setter, SanUnit.state_setter. rewrite bind_gets.
  split; [|split; [|split]].
  - intros Hbad. rewrite decide_True by exact Hbad. split; reflexivity.
  - intros Hgood. rewrite decide_False by (intros Hbad; exact (Hbad Hgood)).
    destruct QCs as [x|v|m]; simpl in Hgood; try discriminate.
    exists v. injection Hgood as Hv. repeat split. exact Hv.
  - destruct (decide _) as [|Hgood]; [reflexivity|].
    destruct QCs; reflexivity.
  - split; [reflexivity|]. split; [reflexivity|].
    unfold Pump._update_state. rewrite bind_modify.
    rewrite (set_out_state_run _ 0 _ o) by (simpl; rewrite Houts; reflexivity).
    simpl. rewrite Houts. repeat split.
Qed.

Lemma state_setter_validates_update_state_does_not_witness :
  let s1 : Stream.t float := Stream.Mk (Some [100; 0; 10]%float) None ∅ in
  let u := SanUnit.__init__ [s1] [Stream.fresh] ["X"; "Y"]%string in
  outcome (Pump.state_setter (SanUnit.Array1 [1; 2]%float) u)
  = inl (ValueError state_must_be_1D)
  /\ SanUnit._state (final (Pump._update_state [1; 2]%float u)) = Some [1; 2]%float.
Proof.
  intros s1 u.
  destruct (state_setter_validates_update_state_does_not u
              (SanUnit.Array1 [1; 2]%float) [1; 2]%float Stream.fresh [] eq_refl)
    as (_ & _ & _ & Hbad & _ & _ & _ & _ & _ & Hst & _).
  split; [|exact Hst]. apply Hbad. discriminate.
Defined.

(** C5 as stated fails: on a unit of two components, [_update_state] is
    given a vector of the wrong length, raises nothing, and the vector is
    now the state of the Mixer and of its output; and the setter, given a
    vector of the right length, writes nothing into the output. *)
Lemma update_state_accepts_any_length_counterexample :
  let s1 : Stream.t float := Stream.Mk (Some [100; 0; 10]%float) None ∅ in
  let u := SanUnit.__init__ [s1] [Stream.fresh] ["X"; "Y"]%string in
  let r := Mixer._update_state [7]%float u in
  let r' := Pump.state_setter (SanUnit.Array1 [1; 2; 3]%float) u in
  length (SanUnit.components u) + 1 = 3
  /\ outcome r = inr tt
  /\ SanUnit._state (final r) = Some [7]%float
  /\ map Stream._state (SanUnit.outs (final r)) = [Some [7]%float]
  /\ outcome r' = inr tt
  /\ SanUnit._state (final r') = Some [1; 2; 3]%float
  /\ map Stream._state (SanUnit.outs (final r')) = [None].
Proof. vm_compute. repeat split. Qed.

(** ** init_state of the Delay Node *)

(** [HydraulicDelay._init_state] never assigns [_dstate]. *)
Lemma HydraulicDelay_init_state_keeps_dstate {A : Type} `{NA : Num A} (u : SanUnit.t A) :
  SanUnit._dstate (final (HydraulicDelay._init_state u)) = SanUnit._dstate u.
Proof.
  unfold HydraulicDelay._init_state, SanUnit._collect_ins_state.
  unfold mbind, M_bind, bind. simpl.
  destruct (res_mapM _ (SanUnit.ins u)) as [e|[|row rest]]; simpl; try reflexivity.
  destruct (SanUnit._concs u) as [Cs|]; simpl; [|reflexivity].
  destruct (set_but_last row Cs); reflexivity.
Qed.

(** [Pump._init_state], which [HydraulicDelay] overrides, and the two
    others create it whenever they complete. *)
Lemma init_state_creates_dstate {A : Type} `{NA : Num A} (u : SanUnit.t A)
    (m : M A (SanUnit.t A) unit) :
  m = Pump._init_state \/ m = Mixer._init_state \/ m = Splitter._init_state ->
  outcome (m u) = inr tt ->
  exists st, SanUnit._state (final (m u)) = Some st
             /\ SanUnit._dstate (final (m u)) = Some (map (fun x => x ⊗ nzero) st).
Proof.
  assert (Hcollect : forall X (f : list (list A) -> M A (SanUnit.t A) X),
             (SanUnit._collect_ins_state ≫= f) u
             = (lift (res_mapM (fun s => match Stream._state s with
                                         | Some v => inr v
                                         | None => inl TypeError
                                         end) (SanUnit.ins u)) ≫= f) u)
    by reflexivity.
  intros [-> | [-> | ->]].
  - unfold Pump._init_state. rewrite Hcollect.
    destruct (res_mapM _ (SanUnit.ins u)) as [e|[|row rest]];
      [rewrite bind_lift_raise; discriminate| |];
      rewrite bind_lift; simpl row0; [rewrite bind_lift_raise; discriminate|].
    repeat mstep. rewrite (bind_gets_array _ _ _ row) by reflexivity.
    intros _. exists row. split; reflexivity.
  - unfold Mixer._init_state. rewrite Hcollect.
    destruct (res_mapM _ (SanUnit.ins u)) as [e|QCs];
      [rewrite bind_lift_raise; discriminate|].
    rewrite bind_lift. destruct (decide (length QCs <= 1)).
    + destruct QCs as [|row rest]; simpl row0; rewrite bind_assoc;
        [rewrite bind_lift_raise; discriminate|].
      repeat mstep. rewrite (bind_gets_array _ _ _ row) by reflexivity.
      intros _. exists row. split; reflexivity.
    + rewrite bind_assoc.
      destruct (col_last QCs) as [e|Qs]; [rewrite bind_lift_raise; discriminate|].
      repeat mstep.
      destruct (matmul Qs (cols_but_last QCs)) as [e|QsCs];
        [rewrite bind_lift_raise; discriminate|].
      repeat mstep.
      destruct (bind_divide_all_cases QsCs (sum Qs)
                  (fun C => modify (SanUnit.set_state (Some (append C (sum Qs))));;
                            st ← gets_array SanUnit._state;
                            modify (SanUnit.set_dstate
                                      (Some (map (fun x => x ⊗ nzero) st)))) u)
        as [E|E]; rewrite E; [|discriminate].
      repeat mstep. unfold logged. cbn [outcome final].
      erewrite bind_gets_array by reflexivity.
      intros _. eexists. split; reflexivity.
  - unfold Splitter._init_state. rewrite Hcollect.
    destruct (res_mapM _ (SanUnit.ins u)) as [e|[|row rest]];
      [rewrite bind_lift_raise; discriminate| |];
      rewrite bind_lift; simpl row0; [rewrite bind_lift_raise; discriminate|].
    repeat mstep. rewrite (bind_gets_array _ _ _ row) by reflexivity.
    repeat mstep.
    destruct (SanUnit.split u) as [s|] eqn:Es;
      [rewrite (bind_gets_attr _ _ _ s) by exact Es
      |rewrite bind_gets_attr_None by exact Es; discriminate].
    repeat mstep. simpl SanUnit.components.
    simpl SanUnit.synonyms.
    destruct (index "H2O" (SanUnit.components u) (SanUnit.synonyms u)) as [e|i];
      [rewrite bind_lift_raise; discriminate|].
    repeat mstep.
    destruct (s !! i) as [s_ref|]; [|rewrite bind_lift_raise; discriminate].
    repeat mstep.
    match goal with
    | |- context [(divide_all s s_ref ≫= ?f) ?v] =>
        destruct (bind_divide_all_cases s s_ref f v) as [E|E]; rewrite E;
          [|discriminate]
    end.
    repeat mstep. unfold logged at 1. cbn [outcome final].
    match goal with
    | |- context [(divide_all ?w ?y ≫= ?f) ?v] =>
        destruct (bind_divide_all_cases w y f v) as [E'|E']; rewrite E';
          [|discriminate]
    end.
    intros _. exists row. split; reflexivity.
Qed.

(** C6 at the failing input. A Delay Node just constructed, its input
    holding a state: [_init_state] completes and sets the state, with the
    override when one was given, but there is still no derivative vector,
    where [Pump._init_state] on the same unit creates one; and the first
    evaluation of the node's own [ODE] stops on it with a [TypeError]. *)
Theorem HydraulicDelay_init_state_leaves_dstate_undefined :
  let s1 : Stream.t float := Stream.Mk (Some [100; 0; 10]%float) None ∅ in
  let u := HydraulicDelay.__init__ [s1] [Stream.fresh] ["X"; "Y"]%string None in
  let r := HydraulicDelay._init_state u in
  let r' := (HydraulicDelay.set_init_conc [("Y"%string, 3%float)];;
             HydraulicDelay._init_state) u in
  outcome r = inr tt
  /\ SanUnit._state (final r) = Some [100; 0; 10]%float
  /\ SanUnit._dstate (final r) = None
  /\ outcome r' = inr tt
  /\ SanUnit._state (final r') = Some [0; 3; 10]%float
  /\ SanUnit._dstate (final r') = None
  /\ SanUnit._dstate (final (Pump._init_state u)) = Some [0; 0; 0]%float
  /\ outcome ((f ← HydraulicDelay.ODE;
               call f 0%float [[100; 0; 10]]%float [100; 0; 10]%float
                 [[0; 0; 0]]%float) (final r))
     = inl TypeError.
Proof. vm_compute. repeat split. Qed.

(** ** ComponentSplitter: the size of split_keys *)

(** The setter compares the new length with the number of outputs, which
    is one more than the length given to the constructor. *)
Lemma ComponentSplitter_setter_accepts {A : Type} `{NA : Num A}
    (ins : list (Stream.t A)) (IDs : list string) (ks ks' : list ComponentSplitter.key)
    (u : ComponentSplitter.t A) :
  ComponentSplitter.__init__ ins IDs (ComponentSplitter.Seq ks) = inr u ->
  outcome (ComponentSplitter.split_keys_setter (ComponentSplitter.Seq ks') u) = inr tt
  <-> length ks' = length ks + 1.
Proof.
  unfold ComponentSplitter.__init__. destruct (ComponentSplitter.is_empty _); [discriminate|].
  intros [= <-]. unfold ComponentSplitter.split_keys_setter. rewrite bind_gets. simpl.
  unfold ComponentSplitter.default_outs. rewrite length_replicate.
  destruct (decide (length ks' ≠ length ks + 1)) as [Hne|Heq]; simpl.
  - split; [discriminate|]. intros E. destruct (Hne E).
  - split; [intros _|reflexivity]. destruct (decide (length ks' = length ks + 1)); tauto.
Qed.

(** C7 at the failing input. An empty collection is refused by the
    constructor. A splitter built with two keys has three outputs: giving
    it two other keys is refused with "size cannot be changed", giving it
    three keys is accepted. *)
Theorem ComponentSplitter_same_size_replacement_refused :
  let keys s := ComponentSplitter.Seq (map ComponentSplitter.Str s) in
  let IDs := ["A"; "B"; "C"]%string in
  ComponentSplitter.__init__ (A := float) [] IDs (keys [])
  = inl (ValueError split_keys_cannot_be_empty)
  /\ ComponentSplitter.__init__ (A := float) [] IDs (ComponentSplitter.OneStr ""%string)
     = inl (ValueError split_keys_cannot_be_empty)
  /\ exists u : ComponentSplitter.t float,
       ComponentSplitter.__init__ [] IDs (keys ["A"; "B"]%string) = inr u
       /\ length (ComponentSplitter.outs u) = 3
       /\ outcome (ComponentSplitter.split_keys_setter (keys ["B"; "C"]%string) u)
          = inl (ValueError size_cannot_be_changed)
       /\ outcome (ComponentSplitter.split_keys_setter (keys ["A"; "B"; "C"]%string) u)
          = inr tt.
Proof.
  split; [reflexivity|]. split; [reflexivity|].
  eexists. split; [reflexivity|]. vm_compute. repeat split.
Qed.

(** ** The registry of components *)

Lemma position_lookup (ID : string) (IDs : list string) (i : nat) :
  position ID IDs = inr i -> IDs !! i = Some ID.
Proof.
  revert i. induction IDs as [|x IDs IH]; intros i H; simpl in H; [discriminate|].
  destruct (decide (x = ID)) as [->|Hne].
  - injection H as <-. reflexivity.
  - destruct (position ID IDs) as [e|i']; simpl in H; [discriminate|].
    injection H as <-. simpl. apply IH. reflexivity.
Qed.

Lemma position_elem_of (ID : string) (IDs : list string) :
  ID ∈ IDs -> exists i, position ID IDs = inr i.
Proof.
  induction IDs as [|x IDs IH]; intros Hin.
  - apply elem_of_nil in Hin. destruct Hin.
  - simpl. destruct (decide (x = ID)) as [->|Hne]; [exists 0; reflexivity|].
    apply elem_of_cons in Hin as [->|Hin]; [congruence|].
    destruct (IH Hin) as [i ->]. exists (S i). reflexivity.
Qed.

(** An ID stands for itself, whatever other names the registry has. *)
Lemma resolve_ID (ID : string) (IDs : list string) (syn : gmap string string) :
  ID ∈ IDs -> resolve ID IDs syn = inr ID.
Proof. intros H. unfold resolve. rewrite decide_True by exact H. reflexivity. Qed.

Lemma index_lookup (ID : string) (IDs : list string) (syn : gmap string string)
    (i : nat) :
  ID ∈ IDs -> index ID IDs syn = inr i -> IDs !! i = Some ID.
Proof.
  intros H. unfold index. rewrite (resolve_ID _ _ _ H). simpl. apply position_lookup.
Qed.

Lemma index_elem_of (ID : string) (IDs : list string) (syn : gmap string string) :
  ID ∈ IDs -> exists i, index ID IDs syn = inr i.
Proof.
  intros H. unfold index. rewrite (resolve_ID _ _ _ H). simpl.
  apply position_elem_of, H.
Qed.

Lemma index_refused (name : string) (IDs : list string) (syn : gmap string string) :
  resolve name IDs syn = inl (UndefinedChemical name) ->
  index name IDs syn = inl (UndefinedChemical name).
Proof. intros H. unfold index. rewrite H. reflexivity. Qed.

(** ** ComponentSplitter: running with a duplicated component *)


Section ComponentSplitterFacts.
Context {A : Type} `{NA : Num A}.
Implicit Types (u : ComponentSplitter.t A) (cmp c : string).

Lemma imass_get_run u (i : nat) cmp (s : Stream.t A) :
  ComponentSplitter.outs u !! i = Some s -> cmp ∈ ComponentSplitter.components u ->
  ComponentSplitter.imass_get i cmp u
  = MkRun [] u (inr (default nzero (Stream.imass s !! cmp))).
Proof.
  intros Hs Hc. unfold ComponentSplitter.imass_get.
  rewrite Hs, (resolve_ID _ _ _ Hc). reflexivity.
Qed.

Lemma imass_set_run u (i : nat) cmp (v : A) (s : Stream.t A) :
  ComponentSplitter.outs u !! i = Some s -> cmp ∈ ComponentSplitter.components u ->
  ComponentSplitter.imass_set i cmp v u
  = MkRun []
      (ComponentSplitter.set_outs
         (<[i := Stream.set_imass (<[cmp := v]> (Stream.imass s)) s]>
            (ComponentSplitter.outs u)) u)
      (inr tt).
Proof.
  intros Hs Hc. unfold ComponentSplitter.imass_set.
  rewrite Hs, (resolve_ID _ _ _ Hc). reflexivity.
Qed.

End ComponentSplitterFacts.

Lemma visited_app (l l' : list ComponentSplitter.key) :
  visited (l ++ l') = visited l ++ visited l'.
Proof. unfold visited. rewrite map_app, concat_app. reflexivity. Qed.

Lemma elem_of_visited (ks : list ComponentSplitter.key) (k : ComponentSplitter.key)
    (c : string) :
  k ∈ ks -> c ∈ cmps_of k -> c ∈ visited ks.
Proof.
  intros Hk Hc. induction Hk as [k ks|k k' ks _ IH]; unfold visited; simpl.
  - apply elem_of_app. left. exact Hc.
  - apply elem_of_app. right. exact (IH Hc).
Qed.

(** A component named by two keys is visited twice. *)
Lemma visited_twice (ks : list ComponentSplitter.key) (i j : nat)
    (ki kj : ComponentSplitter.key) (cmp : string) :
  ks !! i = Some ki -> ks !! j = Some kj -> i < j ->
  cmp ∈ cmps_of ki -> cmp ∈ cmps_of kj ->
  ~ NoDup (visited ks).
Proof.
  intros Hi Hj Hij Hci Hcj Hnd.
  rewrite <- (take_drop_middle ks i ki Hi) in Hnd.
  rewrite visited_app in Hnd. apply NoDup_app in Hnd as (_ & _ & Hnd).
  change (ki :: drop (S i) ks) with ([ki] ++ drop (S i) ks) in Hnd.
  rewrite visited_app in Hnd. apply NoDup_app in Hnd as (_ & Hdisj & _).
  apply (Hdisj cmp).
  - unfold visited. simpl. rewrite app_nil_r. exact Hci.
  - apply (elem_of_visited _ kj); [|exact Hcj].
    apply list_elem_of_lookup. exists (j - S i).
    rewrite lookup_drop. replace (S i + (j - S i)) with j by lia. exact Hj.
Qed.

(** ** ComponentSplitter: where every component goes *)

Section ComponentSplitterFlows.
Context {A : Type} `{NA : Num A}.
Implicit Types (u : ComponentSplitter.t A) (cmp c : string).

Lemma imass_set_flow u (i : nat) cmp (v : A) :
  i < length (ComponentSplitter.outs u) -> cmp ∈ ComponentSplitter.components u ->
  exists u',
    ComponentSplitter.imass_set i cmp v u = MkRun [] u' (inr tt)
    /\ ComponentSplitter.components u' = ComponentSplitter.components u
    /\ length (ComponentSplitter.outs u') = length (ComponentSplitter.outs u)
    /\ forall j c, flow u' j c = if decide (j = i /\ c = cmp) then Some v else flow u j c.
Proof.
  intros Hi Hc. destruct (lookup_lt_is_Some_2 _ _ Hi) as [s Hs].
  eexists. split; [apply (imass_set_run u i cmp v s Hs Hc)|].
  split; [reflexivity|]. split; [simpl; apply length_insert|].
  intros j c. unfold flow. simpl.
  destruct (decide (j = i /\ c = cmp)) as [[-> ->]|Hne].
  - rewrite list_lookup_insert_eq by exact Hi. simpl. apply lookup_insert_eq.
  - destruct (decide (j = i)) as [->|Hji].
    + rewrite list_lookup_insert_eq by exact Hi. simpl. rewrite Hs.
      apply lookup_insert_ne. intros E. apply Hne. split; congruence.
    + rewrite list_lookup_insert_ne by lia. reflexivity.
Qed.

(** The three assignments that move one component, output by output. *)
Lemma move_component_flow u (last num : nat) cmp :
  cmp ∈ ComponentSplitter.components u ->
  last < length (ComponentSplitter.outs u) -> num <= last ->
  exists u2,
    (forall X (k : M A (ComponentSplitter.t A) X),
        (v ← ComponentSplitter.imass_get last cmp;
         ComponentSplitter.imass_set num cmp v;;
         ComponentSplitter.imass_set last cmp nzero;; k) u
        = k u2)
    /\ ComponentSplitter.components u2 = ComponentSplitter.components u
    /\ length (ComponentSplitter.outs u2) = length (ComponentSplitter.outs u)
    /\ forall j c, flow u2 j c = if decide (c = cmp) then moved last num u j c else flow u j c.
Proof.
  intros Hcmp Hlast Hnum.
  destruct (lookup_lt_is_Some_2 (ComponentSplitter.outs u) last Hlast) as [sl Hsl].
  destruct (imass_set_flow u num cmp (default nzero (Stream.imass sl !! cmp)))
    as (u1 & E1 & C1 & L1 & F1); [lia | exact Hcmp |].
  destruct (imass_set_flow u1 last cmp nzero) as (u2 & E2 & C2 & L2 & F2);
    [rewrite L1; exact Hlast | rewrite C1; exact Hcmp |].
  exists u2. split; [|split; [congruence|split; [congruence|]]].
  - intros X k.
    rewrite (bind_run _ _ _ _ _ (imass_get_run u last cmp sl Hsl Hcmp)).
    rewrite (bind_run _ _ _ _ _ E1), (bind_run _ _ _ _ _ E2). reflexivity.
  - intros j c. rewrite F2, F1. unfold moved.
    assert (Hv : flow u last c = Stream.imass sl !! c) by (unfold flow; rewrite Hsl; reflexivity).
    rewrite Hv. destruct (decide (c = cmp)) as [->|Hc].
    + destruct (decide (j = last)) as [->|Hj].
      * rewrite decide_True by (split; reflexivity). reflexivity.
      * rewrite decide_False by (intros [E _]; exact (Hj E)).
        destruct (decide (j = num)) as [->|Hj'].
        -- rewrite decide_True by (split; reflexivity). reflexivity.
        -- rewrite decide_False by (intros [E _]; exact (Hj' E)). reflexivity.
    + rewrite !decide_False by (intros [_ E]; exact (Hc E)). reflexivity.
Qed.

(** The inner loop of [_run] on IDs that have not been seen. *)
Lemma run_group_flow (last num : nat) (cmps : list string) :
  forall (splitted : list string) u,
  (forall c, c ∈ cmps -> c ∈ ComponentSplitter.components u) ->
  last < length (ComponentSplitter.outs u) -> num <= last ->
  NoDup (splitted ++ cmps) ->
  exists u',
    ComponentSplitter._run_group last num cmps splitted u = MkRun [] u' (inr (splitted ++ cmps))
    /\ ComponentSplitter.components u' = ComponentSplitter.components u
    /\ length (ComponentSplitter.outs u') = length (ComponentSplitter.outs u)
    /\ forall j c, flow u' j c = if decide (c ∈ cmps) then moved last num u j c else flow u j c.
Proof.
  induction cmps as [|cmp cmps IH]; intros splitted u Hknown Hlast Hnum Hnd.
  - exists u. cbn [ComponentSplitter._run_group]. rewrite app_nil_r.
    split; [reflexivity|]. split; [reflexivity|]. split; [reflexivity|].
    intros j c. rewrite decide_False by apply not_elem_of_nil. reflexivity.
  - cbn [ComponentSplitter._run_group].
    destruct (move_component_flow u last num cmp) as (u2 & Hrun & C2 & L2 & F2);
      [apply Hknown; left | exact Hlast | exact Hnum |].
    rewrite Hrun.
    assert (Hnd' : NoDup ((splitted ++ [cmp]) ++ cmps)) by (rewrite <- app_assoc; exact Hnd).
    assert (Hfresh : cmp ∉ splitted).
    { apply NoDup_app in Hnd as (_ & Hdisj & _). intros Hin. apply (Hdisj cmp Hin). left. }
    assert (Hlater : cmp ∉ cmps).
    { apply NoDup_app in Hnd as (_ & _ & Hnd). apply NoDup_cons in Hnd as [H _]. exact H. }
    rewrite decide_False by exact Hfresh.
    destruct (IH (splitted ++ [cmp]) u2) as (u' & E & C & L & F);
      [ intros c Hc; rewrite C2; apply Hknown; right; exact Hc
      | rewrite L2; exact Hlast | exact Hnum | exact Hnd' |].
    exists u'. split; [rewrite E, <- app_assoc; reflexivity|].
    split; [congruence|]. split; [congruence|].
    intros j c. rewrite F. unfold moved. rewrite !F2. unfold moved.
    destruct (decide (c ∈ cmps)) as [Hin|Hout].
    + rewrite (decide_True (P := c ∈ cmp :: cmps)) by (right; exact Hin).
      rewrite !(decide_False (P := c = cmp)) by (intros ->; exact (Hlater Hin)).
      reflexivity.
    + destruct (decide (c = cmp)) as [->|Hne].
      * rewrite (decide_True (P := cmp ∈ cmp :: cmps)) by left. reflexivity.
      * rewrite (decide_False (P := c ∈ cmp :: cmps)); [reflexivity|].
        intros H. apply elem_of_cons in H as [H|H]; [exact (Hne H)|exact (Hout H)].
Qed.

(** The outer loop of [_run] over keys that name every component at
    most once, followed by other keys [rest]. *)
Lemma run_keys_app (last : nat) (ks rest : list ComponentSplitter.key) :
  forall (num : nat) (splitted : list string) u,
  Forall (fun k => k <> ComponentSplitter.NotIterable) ks ->
  (forall c, c ∈ visited ks -> c ∈ ComponentSplitter.components u) ->
  last < length (ComponentSplitter.outs u) -> num + length ks <= S last ->
  NoDup (splitted ++ visited ks) ->
  exists u',
    ComponentSplitter._run_keys last num (ks ++ rest) splitted u
    = ComponentSplitter._run_keys last (num + length ks) rest (splitted ++ visited ks) u'
    /\ ComponentSplitter.components u' = ComponentSplitter.components u
    /\ length (ComponentSplitter.outs u') = length (ComponentSplitter.outs u)
    /\ (forall p k c j, ks !! p = Some k -> c ∈ cmps_of k ->
          flow u' j c = moved last (num + p) u j c)
    /\ (forall c j, c ∉ visited ks -> flow u' j c = flow u j c).
Proof.
  induction ks as [|k ks IH]; intros num splitted u Hiter Hknown Hlast Hnum Hnd.
  - exists u. simpl. rewrite Nat.add_0_r, app_nil_r.
    split; [reflexivity|]. split; [reflexivity|]. split; [reflexivity|].
    split; [|reflexivity].
    intros p k c j Hp. rewrite lookup_nil in Hp. discriminate.
  - apply Forall_cons in Hiter as [Hk Hiter]. simpl in Hnum.
    rewrite <- app_comm_cons. cbn [ComponentSplitter._run_keys].
    assert (Hstep : forall X (f : list string -> M A (ComponentSplitter.t A) X),
               (match k with
                | ComponentSplitter.Str ID => mret [ID]
                | ComponentSplitter.Iter IDs => mret IDs
                | ComponentSplitter.NotIterable =>
                    raise (ValueError split_keys_must_be_iterable)
                end ≫= f) u = f (cmps_of k) u).
    { intros X f. destruct k; [apply bind_ret|apply bind_ret|].
      exfalso. apply Hk. reflexivity. }
    rewrite Hstep. clear Hstep.
    change (visited (k :: ks)) with (cmps_of k ++ visited ks) in *.
    destruct (run_group_flow last num (cmps_of k) splitted u) as (u1 & E1 & C1 & L1 & F1);
      [ intros c Hc; apply Hknown, elem_of_app; left; exact Hc | exact Hlast | lia
      | rewrite app_assoc in Hnd; apply NoDup_app in Hnd as (H & _); exact H |].
    rewrite (bind_run _ _ _ _ _ E1).
    destruct (IH (S num) (splitted ++ cmps_of k) u1) as (u' & E & C' & L' & Fin & Fout);
      [ exact Hiter
      | intros c Hc; rewrite C1; apply Hknown, elem_of_app; right; exact Hc
      | rewrite L1; exact Hlast | lia | rewrite <- app_assoc; exact Hnd |].
    assert (Hdisj : forall c, c ∈ cmps_of k -> c ∉ visited ks).
    { apply NoDup_app in Hnd as (_ & _ & Hnd). apply NoDup_app in Hnd as (_ & H & _).
      exact H. }
    exists u'. split; [|split; [congruence|split; [congruence|split]]].
    + rewrite E, <- app_assoc. simpl length.
      replace (num + S (length ks)) with (S num + length ks) by lia. reflexivity.
    + intros [|p] k' c j Hp Hc; simpl in Hp.
      * injection Hp as <-. rewrite (Fout c j (Hdisj c Hc)), F1.
        rewrite (decide_True (P := c ∈ cmps_of k)) by exact Hc.
        rewrite Nat.add_0_r. reflexivity.
      * assert (Hv : c ∈ visited ks).
        { apply (elem_of_visited ks k'); [|exact Hc].
          apply list_elem_of_lookup. exists p. exact Hp. }
        assert (Hnot : c ∉ cmps_of k) by (intros H; exact (Hdisj c H Hv)).
        rewrite (Fin p k' c j Hp Hc). unfold moved. rewrite !F1.
        rewrite !(decide_False (P := c ∈ cmps_of k)) by exact Hnot.
        replace (num + S p) with (S num + p) by lia. reflexivity.
    + intros c j Hc. rewrite Fout, F1.
      * rewrite (decide_False (P := c ∈ cmps_of k)); [reflexivity|].
        intros H. apply Hc, elem_of_app. left. exact H.
      * intros H. apply Hc, elem_of_app. right. exact H.
Qed.

(** [_run] up to the first key that is not among the well-formed keys
    [ks]: the last output has been mixed from the inputs and every
    component that [ks] names has been moved. *)
Lemma run_app u (ks rest : list ComponentSplitter.key) (last : nat) :
  ComponentSplitter.elements (ComponentSplitter._split_keys u) = ks ++ rest ->
  length (ComponentSplitter.outs u) = S last -> length ks <= S last ->
  Forall (fun k => k <> ComponentSplitter.NotIterable) ks ->
  (forall c, c ∈ visited ks -> c ∈ ComponentSplitter.components u) ->
  NoDup (visited ks) ->
  exists u',
    ComponentSplitter._run u
    = ComponentSplitter._run_keys last (length ks) rest (visited ks) u'
    /\ ComponentSplitter.components u' = ComponentSplitter.components u
    /\ length (ComponentSplitter.outs u') = S last
    /\ (forall p k c j, ks !! p = Some k -> c ∈ cmps_of k ->
          flow u' j c
          = if decide (j = last) then Some nzero
            else if decide (j = p)
                 then Some (default nzero (mixed (ComponentSplitter.ins u) !! c))
                 else flow u j c)
    /\ (forall c j, c ∉ visited ks ->
          flow u' j c
          = if decide (j = last) then mixed (ComponentSplitter.ins u) !! c else flow u j c).
Proof.
  intros Hks Houts Hlen Hiter Hknown Hnd.
  unfold ComponentSplitter._run. rewrite bind_gets, Houts.
  rewrite decide_False by lia. rewrite bind_ret. cbv zeta.
  replace (S last - 1) with last by lia.
  rewrite bind_modify, bind_gets.
  set (u0 := ComponentSplitter.set_outs _ u).
  change (ComponentSplitter._split_keys u0) with (ComponentSplitter._split_keys u).
  rewrite Hks.
  assert (F0 : forall j c, flow u0 j c
                           = if decide (j = last) then mixed (ComponentSplitter.ins u) !! c
                             else flow u j c).
  { intros j c. unfold flow. subst u0. simpl.
    destruct (decide (j = last)) as [->|Hj].
    - rewrite list_lookup_alter_eq.
      destruct (lookup_lt_is_Some_2 (ComponentSplitter.outs u) last ltac:(lia)) as [sl ->].
      reflexivity.
    - rewrite list_lookup_alter_ne by lia. reflexivity. }
  destruct (run_keys_app last ks rest 0 [] u0) as (u' & E & C' & L' & Fin & Fout);
    [ exact Hiter | exact Hknown
    | subst u0; simpl; rewrite length_alter; lia | simpl; lia | exact Hnd |].
  exists u'. split; [exact E|]. split; [exact C'|].
  split; [rewrite L'; subst u0; simpl; rewrite length_alter; exact Houts|]. split.
  - intros p k c j Hp Hc. rewrite (Fin p k c j Hp Hc). unfold moved. simpl.
    rewrite !F0. rewrite (decide_True (P := last = last)) by reflexivity.
    destruct (decide (j = last)); reflexivity.
  - intros c j Hc. rewrite (Fout c j Hc). apply F0.
Qed.

(** [_run] as a whole, when all keys are well-formed. *)
Lemma run_flow u (ks : list ComponentSplitter.key) (last : nat) :
  ComponentSplitter.elements (ComponentSplitter._split_keys u) = ks ->
  length (ComponentSplitter.outs u) = S last -> length ks <= S last ->
  Forall (fun k => k <> ComponentSplitter.NotIterable) ks ->
  (forall c, c ∈ visited ks -> c ∈ ComponentSplitter.components u) ->
  NoDup (visited ks) ->
  exists u',
    ComponentSplitter._run u = MkRun [] u' (inr tt)
    /\ (forall p k c j, ks !! p = Some k -> c ∈ cmps_of k ->
          flow u' j c
          = if decide (j = last) then Some nzero
            else if decide (j = p)
                 then Some (default nzero (mixed (ComponentSplitter.ins u) !! c))
                 else flow u j c)
    /\ (forall c j, c ∉ visited ks ->
          flow u' j c
          = if decide (j = last) then mixed (ComponentSplitter.ins u) !! c else flow u j c).
Proof.
  intros Hks Houts Hlen Hiter Hknown Hnd.
  destruct (run_app u ks [] last) as (u' & E & _ & _ & Fin & Fout); auto.
  { rewrite app_nil_r. exact Hks. }
  exists u'. split; [rewrite E; reflexivity|]. split; [exact Fin|exact Fout].
Qed.
(** The inner loop of [_run] over IDs [pre] that have not been seen,
    followed by other IDs [tail]. *)
Lemma run_group_app (last num : nat) (pre tail : list string) :
  forall (splitted : list string) u,
  (forall c, c ∈ pre -> c ∈ ComponentSplitter.components u) ->
  last < length (ComponentSplitter.outs u) -> num <= last ->
  NoDup (splitted ++ pre) ->
  exists u',
    ComponentSplitter._run_group last num (pre ++ tail) splitted u
    = ComponentSplitter._run_group last num tail (splitted ++ pre) u'
    /\ ComponentSplitter.components u' = ComponentSplitter.components u
    /\ length (ComponentSplitter.outs u') = length (ComponentSplitter.outs u)
    /\ forall j c, flow u' j c = if decide (c ∈ pre) then moved last num u j c else flow u j c.
Proof.
  induction pre as [|cmp pre IH]; intros splitted u Hknown Hlast Hnum Hnd.
  - exists u. rewrite app_nil_r. cbn [app].
    split; [reflexivity|]. split; [reflexivity|]. split; [reflexivity|].
    intros j c. rewrite decide_False by apply not_elem_of_nil. reflexivity.
  - rewrite <- app_comm_cons. cbn [ComponentSplitter._run_group].
    destruct (move_component_flow u last num cmp) as (u2 & Hrun & C2 & L2 & F2);
      [apply Hknown; left | exact Hlast | exact Hnum |].
    rewrite Hrun.
    assert (Hnd' : NoDup ((splitted ++ [cmp]) ++ pre)) by (rewrite <- app_assoc; exact Hnd).
    assert (Hfresh : cmp ∉ splitted).
    { apply NoDup_app in Hnd as (_ & Hdisj & _). intros Hin. apply (Hdisj cmp Hin). left. }
    assert (Hlater : cmp ∉ pre).
    { apply NoDup_app in Hnd as (_ & _ & Hnd). apply NoDup_cons in Hnd as [H _]. exact H. }
    rewrite decide_False by exact Hfresh.
    destruct (IH (splitted ++ [cmp]) u2) as (u' & E & C & L & F);
      [ intros c Hc; rewrite C2; apply Hknown; right; exact Hc
      | rewrite L2; exact Hlast | exact Hnum | exact Hnd' |].
    exists u'. split; [rewrite E, <- app_assoc; reflexivity|].
    split; [congruence|]. split; [congruence|].
    intros j c. rewrite F. unfold moved. rewrite !F2. unfold moved.
    destruct (decide (c ∈ pre)) as [Hin|Hout].
    + rewrite (decide_True (P := c ∈ cmp :: pre)) by (right; exact Hin).
      rewrite !(decide_False (P := c = cmp)) by (intros ->; exact (Hlater Hin)).
      reflexivity.
    + destruct (decide (c = cmp)) as [->|Hne].
      * rewrite (decide_True (P := cmp ∈ cmp :: pre)) by left. reflexivity.
      * rewrite (decide_False (P := c ∈ cmp :: pre)); [reflexivity|].
        intros H. apply elem_of_cons in H as [H|H]; [exact (Hne H)|exact (Hout H)].
Qed.

(** The inner loop of [_run] on an ID that has been seen: it is moved
    like any other, and then the loop raises. *)
Lemma run_group_duplicate (last num : nat) (c : string) (post splitted : list string) u :
  c ∈ ComponentSplitter.components u ->
  last < length (ComponentSplitter.outs u) -> num <= last ->
  c ∈ splitted ->
  exists u',
    ComponentSplitter._run_group last num (c :: post) splitted u
    = MkRun [] u' (inl (ValueError appears_more_than_once))
    /\ forall j x, flow u' j x = if decide (x = c) then moved last num u j x else flow u j x.
Proof.
  intros Hc Hlast Hnum Hseen. cbn [ComponentSplitter._run_group].
  destruct (move_component_flow u last num c Hc Hlast Hnum) as (u2 & Hrun & _ & _ & F2).
  exists u2. rewrite Hrun. rewrite decide_True by exact Hseen.
  split; [reflexivity|exact F2].
Qed.
End ComponentSplitterFlows.

(** The first ID that a list repeats, or that is already among [acc]. *)
Lemma first_duplicate (acc l : list string) :
  NoDup acc -> ~ NoDup (acc ++ l) ->
  exists pre c post, l = pre ++ c :: post /\ NoDup (acc ++ pre) /\ c ∈ acc ++ pre.
Proof.
  revert acc. induction l as [|x l IH]; intros acc Hacc Hdup.
  - rewrite app_nil_r in Hdup. contradiction.
  - destruct (decide (x ∈ acc)) as [Hin|Hout].
    + exists [], x, l. rewrite app_nil_r. split; [reflexivity|]. split; assumption.
    + destruct (IH (acc ++ [x])) as (pre & c & post & -> & Hnd & Hc).
      * apply NoDup_app. split; [exact Hacc|]. split; [|apply NoDup_singleton].
        intros y Hy Hy'. apply list_elem_of_singleton in Hy'. subst y. exact (Hout Hy).
      * rewrite <- app_assoc. exact Hdup.
      * exists (x :: pre), c, post. split; [reflexivity|].
        rewrite <- app_assoc in Hnd, Hc. split; assumption.
Qed.

(** The first key at which [_run] meets an ID for the second time. *)
Lemma first_duplicate_key (ks : list ComponentSplitter.key) :
  ~ NoDup (visited ks) ->
  exists ks1 k rest pre c post,
    ks = ks1 ++ k :: rest /\ cmps_of k = pre ++ c :: post
    /\ NoDup (visited ks1 ++ pre) /\ c ∈ visited ks1 ++ pre.
Proof.
  induction ks as [|k ks IH] using rev_ind; intros Hdup.
  - exfalso. apply Hdup. constructor.
  - destruct (decide (NoDup (visited ks))) as [Hnd|Hnd].
    + rewrite visited_app in Hdup.
      change (visited [k]) with (cmps_of k ++ []) in Hdup. rewrite app_nil_r in Hdup.
      destruct (first_duplicate _ _ Hnd Hdup) as (pre & c & post & E & H1 & H2).
      exists ks, k, [], pre, c, post. split; [reflexivity|]. split; [exact E|].
      split; assumption.
    + destruct (IH Hnd) as (ks1 & k0 & rest & pre & c & post & -> & E & H1 & H2).
      exists ks1, k0, (rest ++ [k]), pre, c, post. rewrite <- app_assoc.
      split; [reflexivity|]. split; [exact E|]. split; assumption.
Qed.

Lemma elem_of_visited_inv (ks : list ComponentSplitter.key) (c : string) :
  c ∈ visited ks -> exists p k, ks !! p = Some k /\ c ∈ cmps_of k.
Proof.
  induction ks as [|k ks IH]; intros H.
  - apply elem_of_nil in H. destruct H.
  - change (visited (k :: ks)) with (cmps_of k ++ visited ks) in H.
    apply elem_of_app in H as [H|H].
    + exists 0, k. split; [reflexivity|exact H].
    + destruct (IH H) as (p & k' & Hp & Hc). exists (S p), k'. split; assumption.
Qed.

(** The outputs that the constructor creates record nothing. *)
Lemma flow_default_outs {A : Type} `{NA : Num A} (u : ComponentSplitter.t A) (n j : nat)
    (c : string) :
  ComponentSplitter.outs u = ComponentSplitter.default_outs n -> flow u j c = None.
Proof.
  intros E. unfold flow. rewrite E. unfold ComponentSplitter.default_outs.
  destruct (replicate n Stream.fresh !! j) as [s|] eqn:El; [|reflexivity].
  apply lookup_replicate in El as [-> _]. apply lookup_empty.
Qed.

(** C3, amended. A ComponentSplitter whose keys name some component in
    two different groups (all keys being IDs or iterables of IDs of
    components, whatever other names the registry has). The constructor
    accepts the keys; it is [_run] that raises the [ValueError] "appears
    more than once", at the first ID [c] that it meets for the second
    time, in the key at position [length ks1] after the IDs [pre] of that
    key. By then the last output has been mixed from the inputs and
    every ID met so far has been moved, and nothing is rolled back:
    - a component that has not been met is in the last output with the
      flow of the mixed inflow;
    - a component other than [c] that has been met is in the output of
      its key with the flow of the mixed inflow, and 0 in the last;
    - [c] is 0 in the last output and in the output of the key where it
      is met again; the output of an earlier key that names it holds its
      flow of the mixed inflow;
    so whatever the inflow holds of a component other than [c] is held
    by an output that held nothing before the run. *)
Theorem ComponentSplitter_duplicate_raises_after_mutation {A : Type} `{NA : Num A}
    (ins : list (Stream.t A)) (IDs : list string) (ks : list ComponentSplitter.key)
    (syn : gmap string string)
    (i j : nat) (ki kj : ComponentSplitter.key) (cmp : string)
    (Hiter : Forall (fun k => k <> ComponentSplitter.NotIterable) ks)
    (Hknown : forall c, c ∈ visited ks -> c ∈ IDs)
    (Hi : ks !! i = Some ki)
    (Hj : ks !! j = Some kj)
    (Hij : i <> j)
    (Hci : cmp ∈ cmps_of ki)
    (Hcj : cmp ∈ cmps_of kj) :
  exists u0 : ComponentSplitter.t A,
    ComponentSplitter.__init__ ins IDs (ComponentSplitter.Seq ks) = inr u0
    /\ ComponentSplitter.outs u0 = replicate (length ks + 1) Stream.fresh
    /\ let u := ComponentSplitter.set_synonyms syn u0 in
       let r := ComponentSplitter._run u in
       let inflow := mixed ins in
       let last := length ks in
       outcome r = inl (ValueError appears_more_than_once)
       /\ exists (ks1 : list ComponentSplitter.key) (k : ComponentSplitter.key)
            (rest : list ComponentSplitter.key) (pre : list string) (c : string)
            (post : list string),
            ks = ks1 ++ k :: rest
            /\ cmps_of k = pre ++ c :: post
            /\ c ∈ visited ks1 ++ pre
            /\ NoDup (visited ks1 ++ pre)
            /\ (forall x, x ∉ visited ks1 ++ pre ->
                  forall q, flow (final r) q x
                            = if decide (q = last) then inflow !! x else None)
            /\ (forall p k' x,
                  (ks1 ++ [ComponentSplitter.Iter pre]) !! p = Some k' ->
                  x ∈ cmps_of k' -> x <> c ->
                  forall q, flow (final r) q x
                            = if decide (q = last) then Some nzero
                              else if decide (q = p)
                                   then Some (default nzero (inflow !! x))
                                   else None)
            /\ flow (final r) last c = Some nzero
            /\ flow (final r) (length ks1) c = Some nzero
            /\ (forall p k', ks1 !! p = Some k' -> c ∈ cmps_of k' ->
                  flow (final r) p c = Some (default nzero (inflow !! c)))
            /\ (forall q, q <> last -> q <> length ks1 ->
                  (forall k', ks1 !! q = Some k' -> c ∉ cmps_of k') ->
                  flow (final r) q c = None)
            /\ (forall x v, x <> c -> inflow !! x = Some v ->
                  exists q, flow (final r) q x = Some v /\ flow u q x = None).
Proof.
  assert (Hdup : ~ NoDup (visited ks)).
  { destruct (Nat.lt_total i j) as [Hlt|[Heq|Hgt]]; [|congruence|].
    - exact (visited_twice ks i j ki kj cmp Hi Hj Hlt Hci Hcj).
    - exact (visited_twice ks j i kj ki cmp Hj Hi Hgt Hcj Hci). }
  assert (Hks : ks <> []) by (intros ->; discriminate).
  destruct (first_duplicate_key ks Hdup)
    as (ks1 & k & rest & pre & c & post & Eks & Ek & Hnd & Hc).
  eexists. split.
  { unfold ComponentSplitter.__init__. simpl.
    rewrite bool_decide_eq_false_2 by exact Hks. reflexivity. }
  split; [reflexivity|].
  set (u0 := ComponentSplitter.Mk _ _ _ _ _ _).
  intros u r inflow last. subst r inflow.
  assert (Hlen : last = length ks1 + S (length rest)).
  { subst last. rewrite Eks, length_app. reflexivity. }
  assert (Houts : length (ComponentSplitter.outs u) = S last).
  { subst u u0 last. simpl. unfold ComponentSplitter.default_outs.
    rewrite length_replicate. lia. }
  assert (Hfresh : forall q x, flow u q x = None).
  { intros q x. apply (flow_default_outs u (length ks + 1)). reflexivity. }
  assert (Hiter' : Forall (fun k => k <> ComponentSplitter.NotIterable) ks1
                   /\ k <> ComponentSplitter.NotIterable).
  { rewrite Eks in Hiter. apply Forall_app in Hiter as [H1 H2].
    apply Forall_cons in H2 as [H2 _]. split; assumption. }
  destruct Hiter' as [Hiter1 Hk].
  assert (Hknown1 : forall x, x ∈ visited ks1 ++ pre ++ [c] -> x ∈ IDs).
  { intros x Hx. apply Hknown. rewrite Eks, visited_app.
    change (visited (k :: rest)) with (cmps_of k ++ visited rest). rewrite Ek.
    rewrite !elem_of_app in Hx. rewrite !elem_of_app, elem_of_cons.
    rewrite list_elem_of_singleton in Hx. tauto. }
  assert (Hnd1 : NoDup (visited ks1)) by (apply NoDup_app in Hnd as (H1 & _); exact H1).
  assert (Hdisj : forall x, x ∈ visited ks1 -> x ∉ pre).
  { apply NoDup_app in Hnd as (_ & H1 & _). exact H1. }
  destruct (run_app u ks1 (k :: rest) last) as (u1 & E1 & C1 & L1 & Fin1 & Fout1);
    [ exact Eks | exact Houts | lia | exact Hiter1
    | intros x Hx; apply Hknown1, elem_of_app; left; exact Hx | exact Hnd1 |].
  assert (Hstep : forall X (f : list string -> M A (ComponentSplitter.t A) X),
             (match k with
              | ComponentSplitter.Str ID => mret [ID]
              | ComponentSplitter.Iter IDs => mret IDs
              | ComponentSplitter.NotIterable =>
                  raise (ValueError split_keys_must_be_iterable)
              end ≫= f) u1 = f (cmps_of k) u1).
  { intros X f. destruct k; [apply bind_ret|apply bind_ret|].
    exfalso. apply Hk. reflexivity. }
  destruct (run_group_app last (length ks1) pre (c :: post) (visited ks1) u1)
    as (u2 & E2 & C2 & L2 & F2);
    [ intros x Hx; rewrite C1; apply Hknown1; rewrite !elem_of_app; tauto
    | rewrite L1; lia | lia | exact Hnd |].
  destruct (run_group_duplicate last (length ks1) c post (visited ks1 ++ pre) u2)
    as (u3 & E3 & F3);
    [ rewrite C2, C1; apply Hknown1; rewrite !elem_of_app, list_elem_of_singleton; tauto
    | rewrite L2, L1; lia | lia | exact Hc |].
  assert (Er : ComponentSplitter._run u
               = MkRun [] u3 (inl (ValueError appears_more_than_once))).
  { rewrite E1. cbn [ComponentSplitter._run_keys]. rewrite Hstep, Ek.
    apply bind_raised. rewrite E2. exact E3. }
  rewrite Er. cbn [outcome final]. clear Er E1 E2 E3 Hstep.
  change (ComponentSplitter.ins u) with ins in *.
  (* the flows *)
  assert (Fnew : forall x, x ∉ visited ks1 ++ pre ->
                 forall q, flow u3 q x
                           = if decide (q = last) then mixed ins !! x else None).
  { intros x Hx q.
    assert (Hxc : x <> c) by (intros ->; exact (Hx Hc)).
    rewrite F3, (decide_False (P := x = c)) by exact Hxc.
    rewrite F2, (decide_False (P := x ∈ pre))
      by (intros H'; apply Hx, elem_of_app; right; exact H').
    rewrite Fout1 by (intros H'; apply Hx, elem_of_app; left; exact H').
    rewrite Hfresh. reflexivity. }
  assert (Fold : forall p k' x,
             (ks1 ++ [ComponentSplitter.Iter pre]) !! p = Some k' ->
             x ∈ cmps_of k' -> x <> c ->
             forall q, flow u3 q x
                       = if decide (q = last) then Some nzero
                         else if decide (q = p)
                              then Some (default nzero (mixed ins !! x))
                              else None).
  { intros p k' x Hp Hx Hxc q.
    rewrite F3, (decide_False (P := x = c)) by exact Hxc. rewrite F2.
    destruct (decide (p < length ks1)) as [Hlt|Hge].
    - rewrite lookup_app_l in Hp by exact Hlt.
      assert (Hv : x ∈ visited ks1).
      { apply (elem_of_visited ks1 k'); [|exact Hx].
        apply list_elem_of_lookup. exists p. exact Hp. }
      rewrite (decide_False (P := x ∈ pre)) by exact (Hdisj x Hv).
      rewrite (Fin1 p k' x q Hp Hx), Hfresh. reflexivity.
    - assert (Hp' : p = length ks1).
      { apply lookup_lt_Some in Hp. rewrite length_app in Hp. simpl in Hp. lia. }
      subst p. rewrite list_lookup_middle in Hp by reflexivity.
      injection Hp as <-. simpl in Hx.
      rewrite (decide_True (P := x ∈ pre)) by exact Hx.
      assert (Hv : x ∉ visited ks1) by (intros H'; exact (Hdisj x H' Hx)).
      unfold moved. rewrite !(Fout1 x _ Hv), !Hfresh.
      rewrite (decide_True (P := last = last)) by reflexivity.
      destruct (decide (q = last)); reflexivity. }
  assert (Fc : forall q, flow u3 q c
                         = if decide (q = last) then Some nzero
                           else if decide (q = length ks1) then Some nzero
                                else flow u2 q c).
  { intros q. rewrite F3, (decide_True (P := c = c)) by reflexivity. unfold moved.
    destruct (decide (q = last)) as [|Hq]; [reflexivity|].
    destruct (decide (q = length ks1)) as [|Hq']; [|reflexivity].
    f_equal. rewrite F2. destruct (decide (c ∈ pre)) as [Hin|Hout].
    - unfold moved. rewrite (decide_True (P := last = last)) by reflexivity. reflexivity.
    - apply elem_of_app in Hc as [Hv|Hin]; [|destruct (Hout Hin)].
      destruct (elem_of_visited_inv ks1 c Hv) as (p & k' & Hp & Hcp).
      rewrite (Fin1 p k' c last Hp Hcp).
      rewrite (decide_True (P := last = last)) by reflexivity. reflexivity. }
  split; [reflexivity|].
  exists ks1, k, rest, pre, c, post.
  split; [exact Eks|]. split; [exact Ek|]. split; [exact Hc|]. split; [exact Hnd|].
  split; [exact Fnew|]. split; [exact Fold|].
  split; [rewrite Fc, (decide_True (P := last = last)) by reflexivity; reflexivity|].
  split.
  { rewrite Fc, (decide_False (P := length ks1 = last)) by lia.
    rewrite (decide_True (P := length ks1 = length ks1)) by reflexivity. reflexivity. }
  split.
  { intros p k' Hp Hcp.
    assert (Hlt : p < length ks1) by (apply lookup_lt_Some in Hp; exact Hp).
    assert (Hv : c ∈ visited ks1).
    { apply (elem_of_visited ks1 k'); [|exact Hcp].
      apply list_elem_of_lookup. exists p. exact Hp. }
    rewrite Fc, (decide_False (P := p = last)) by lia.
    rewrite (decide_False (P := p = length ks1)) by lia.
    rewrite F2, (decide_False (P := c ∈ pre)) by exact (Hdisj c Hv).
    rewrite (Fin1 p k' c p Hp Hcp), (decide_False (P := p = last)) by lia.
    rewrite (decide_True (P := p = p)) by reflexivity. reflexivity. }
  split.
  { intros q Hq Hq' Hnone.
    rewrite Fc, (decide_False (P := q = last)) by exact Hq.
    rewrite (decide_False (P := q = length ks1)) by exact Hq'.
    rewrite F2. destruct (decide (c ∈ pre)) as [Hin|Hout].
    - assert (Hv : c ∉ visited ks1) by (intros H'; exact (Hdisj c H' Hin)).
      unfold moved. rewrite (decide_False (P := q = last)) by exact Hq.
      rewrite (decide_False (P := q = length ks1)) by exact Hq'.
      rewrite (Fout1 c q Hv), (decide_False (P := q = last)) by exact Hq.
      apply Hfresh.
    - apply elem_of_app in Hc as [Hv|Hin]; [|destruct (Hout Hin)].
      destruct (elem_of_visited_inv ks1 c Hv) as (p & k' & Hp & Hcp).
      rewrite (Fin1 p k' c q Hp Hcp), (decide_False (P := q = last)) by exact Hq.
      rewrite (decide_False (P := q = p)); [apply Hfresh|].
      intros ->. exact (Hnone k' Hp Hcp). }
  intros x v Hxc Hv.
  destruct (decide (x ∈ visited ks1 ++ pre)) as [Hin|Hout].
  - assert (Hp : exists p k', (ks1 ++ [ComponentSplitter.Iter pre]) !! p = Some k'
                              /\ x ∈ cmps_of k' /\ p <> last).
    { apply elem_of_app in Hin as [Hin|Hin].
      - destruct (elem_of_visited_inv ks1 x Hin) as (p & k' & Hp & Hx).
        exists p, k'. split; [rewrite lookup_app_l; [exact Hp|]|].
        + apply lookup_lt_Some in Hp. exact Hp.
        + split; [exact Hx|]. apply lookup_lt_Some in Hp. lia.
      - exists (length ks1), (ComponentSplitter.Iter pre).
        split; [apply list_lookup_middle; reflexivity|]. split; [exact Hin|lia]. }
    destruct Hp as (p & k' & Hp & Hx & Hpl).
    exists p. split; [|apply Hfresh].
    rewrite (Fold p k' x Hp Hx Hxc p), (decide_False (P := p = last)) by exact Hpl.
    rewrite (decide_True (P := p = p)) by reflexivity. rewrite Hv. reflexivity.
  - exists last. split; [|apply Hfresh].
    rewrite (Fnew x Hout last), (decide_True (P := last = last)) by reflexivity.
    exact Hv.
Qed.

(** The example of the specification, keys [("A",), ("A", "B")]. *)
Lemma ComponentSplitter_duplicate_raises_after_mutation_witness :
  let inflow : Stream.t float :=
    Stream.Mk None None
      (<["A"%string := 10%float]> (<["B"%string := 5%float]> (<["C"%string := 3%float]> ∅))) in
  let ks := [ComponentSplitter.Iter ["A"%string]; ComponentSplitter.Iter ["A"; "B"]%string] in
  exists u : ComponentSplitter.t float,
    ComponentSplitter.__init__ [inflow] ["A"; "B"; "C"]%string (ComponentSplitter.Seq ks)
    = inr u
    /\ outcome (ComponentSplitter._run (ComponentSplitter.set_synonyms ∅ u))
       = inl (ValueError appears_more_than_once).
Proof.
  intros inflow ks.
  destruct (ComponentSplitter_duplicate_raises_after_mutation [inflow]
              ["A"; "B"; "C"]%string ks ∅ 0 1
              (ComponentSplitter.Iter ["A"%string])
              (ComponentSplitter.Iter ["A"; "B"]%string) "A"%string)
    as (u & Hu & _ & Hr & _).
  - repeat constructor; discriminate.
  - intros c Hc. unfold visited in Hc. simpl in Hc.
    rewrite !elem_of_cons in Hc. rewrite !elem_of_cons. tauto.
  - reflexivity.
  - reflexivity.
  - discriminate.
  - set_solver.
  - set_solver.
  - exists u. split; [exact Hu|exact Hr].
Defined.

(** C3 as stated fails on the example of the specification: the keys
    [("A",), ("A", "B")] are accepted by the constructor, no output
    holds a flow before the run, and when [_run] has raised, the first
    output holds the 10 of A and the last output the 5 of B and the 3 of
    C of the inflow. *)
Lemma ComponentSplitter_partial_mutation_counterexample :
  let inflow : Stream.t float :=
    Stream.Mk None None
      (<["A"%string := 10%float]> (<["B"%string := 5%float]> (<["C"%string := 3%float]> ∅))) in
  let ks := [ComponentSplitter.Iter ["A"%string]; ComponentSplitter.Iter ["A"; "B"]%string] in
  let flows (u : ComponentSplitter.t float) :=
    map (fun q => map (fun c => default 0%float (flow u q c)) ["A"; "B"; "C"]%string)
      [0; 1; 2] in
  exists u : ComponentSplitter.t float,
    ComponentSplitter.__init__ [inflow] ["A"; "B"; "C"]%string (ComponentSplitter.Seq ks)
    = inr u
    /\ flows u = [[0; 0; 0]; [0; 0; 0]; [0; 0; 0]]%float
    /\ outcome (ComponentSplitter._run u) = inl (ValueError appears_more_than_once)
    /\ flows (final (ComponentSplitter._run u))
       = [[10; 0; 0]; [0; 0; 0]; [0; 5; 3]]%float.
Proof.
  eexists. split; [reflexivity|]. vm_compute. repeat split.
Qed.

(* ================================================================== *)
(** * Further properties of the code *)
(* ================================================================== *)

(** ** WWTpump *)

(** X1. The [pump_type] setter does not look at the case of ASCII
    letters: a value that differs from a valid pump type only by case is
    accepted, and what is stored is the valid type itself, spelled as in
    [_valid_pump_types]. Assigning the stored value again changes
    nothing. *)
Theorem WWTpump_pump_type_case_insensitive {A : Type}
    (t i : string) (u : WWTpump.t A)
    (Ht : t ∈ WWTpump._valid_pump_types)
    (Hi : WWTpump.lower i = WWTpump.lower t) :
  let u' := WWTpump.set_pump_type (Some t) u in
  WWTpump.pump_type_setter i u = inr u'
  /\ WWTpump.pump_type_setter t u' = inr u'.
Proof.
  intros u'. subst u'. unfold WWTpump.pump_type_setter. rewrite Hi. clear Hi.
  unfold WWTpump._valid_pump_types in Ht.
  repeat (apply elem_of_cons in Ht as [-> | Ht]); try (split; reflexivity).
  apply elem_of_nil in Ht. destruct Ht.
Qed.

Lemma WWTpump_pump_type_case_insensitive_witness :
  let u : WWTpump.t float := WWTpump.Mk 1%float None None in
  WWTpump.pump_type_setter "Recirculation_cstr" u
  = inr (WWTpump.set_pump_type (Some "recirculation_CSTR"%string) u).
Proof.
  intros u.
  refine (proj1 (WWTpump_pump_type_case_insensitive "recirculation_CSTR"
                   "Recirculation_cstr" u _ _)).
  - unfold WWTpump._valid_pump_types. rewrite !elem_of_cons. tauto.
  - reflexivity.
Defined.

Lemma lower_app (s1 s2 : string) :
  WWTpump.lower (s1 ++ s2) = (WWTpump.lower s1 ++ WWTpump.lower s2)%string.
Proof. induction s1 as [|c s1 IH]; simpl; [reflexivity|]. rewrite IH. reflexivity. Qed.

Lemma string_length_app (s1 s2 : string) :
  String.length (s1 ++ s2) = String.length s1 + String.length s2.
Proof. induction s1 as [|c s1 IH]; simpl; [reflexivity|]. rewrite IH. reflexivity. Qed.

Lemma lower_lower (s : string) : WWTpump.lower (WWTpump.lower s) = WWTpump.lower s.
Proof.
  induction s as [|c s IH]; simpl; [reflexivity|]. rewrite IH. f_equal.
  destruct c as [[] [] [] [] [] [] [] []]; reflexivity.
Qed.

Lemma prefix_split (p s : string) :
  String.prefix p s = true -> exists rest, s = (p ++ rest)%string.
Proof.
  revert s. induction p as [|a p IH]; intros s H; simpl in *.
  - exists s. reflexivity.
  - destruct s as [|b s]; [discriminate|]. simpl in H.
    destruct (Ascii.ascii_dec a b) as [->|]; [|discriminate].
    destruct (IH s H) as [rest ->]. exists rest. reflexivity.
Qed.

Lemma replace_from_skip (old new p rest : string) :
  WWTpump.replace_from (String.length p) old new (p ++ rest)
  = WWTpump.replace_from 0 old new rest.
Proof. induction p as [|c p IH]; simpl; [reflexivity|exact IH]. Qed.

(** Replacing a word by a spelling of it in another case changes the
    case of letters only. *)
Lemma lower_replace (old new : string) :
  old <> EmptyString ->
  WWTpump.lower new = WWTpump.lower old ->
  forall s, WWTpump.lower (WWTpump.replace old new s) = WWTpump.lower s.
Proof.
  intros Hne Hcase s. unfold WWTpump.replace.
  remember (String.length s) as n eqn:Hn. revert s Hn.
  induction n as [n IH] using lt_wf_ind. intros s Hn.
  destruct s as [|c s']; [reflexivity|].
  cbn [WWTpump.replace_from].
  destruct (String.prefix old (String c s')) eqn:Hp.
  - destruct (prefix_split _ _ Hp) as [rest Hrest].
    destruct old as [|a old']; [congruence|].
    simpl in Hrest. injection Hrest as -> ->.
    cbn [String.length].
    replace (S (String.length old') - 1) with (String.length old') by lia.
    rewrite replace_from_skip.
    rewrite lower_app, Hcase.
    change (String a (old' ++ rest)) with (String a old' ++ rest)%string.
    rewrite lower_app. f_equal.
    apply (IH (String.length rest)); [|reflexivity].
    subst n. simpl. rewrite string_length_app. lia.
  - simpl. f_equal. apply (IH (String.length s')); [|reflexivity].
    subst n. simpl. lia.
Qed.

(** X2. Nothing but a case variant of a valid pump type is accepted:
    when the [pump_type] setter succeeds, the value given is, up to the
    case of ASCII letters, the valid type that is stored, and nothing
    else of the pump changes. *)
Theorem WWTpump_pump_type_accepts_only_valid {A : Type}
    (i : string) (u u' : WWTpump.t A)
    (Hok : WWTpump.pump_type_setter i u = inr u') :
  exists t : string,
    t ∈ WWTpump._valid_pump_types
    /\ WWTpump.lower i = WWTpump.lower t
    /\ u' = WWTpump.set_pump_type (Some t) u.
Proof.
  unfold WWTpump.pump_type_setter in Hok.
  destruct (decide (_ ∉ WWTpump._valid_pump_types)) as [|Hin]; [discriminate|].
  injection Hok as <-.
  apply dec_stable in Hin.
  eexists. split; [exact Hin|]. split; [|reflexivity].
  rewrite !lower_replace by (discriminate || reflexivity).
  symmetry. apply lower_lower.
Qed.

Lemma WWTpump_pump_type_accepts_only_valid_witness :
  let u : WWTpump.t float := WWTpump.Mk 1%float None None in
  exists t : string,
    t ∈ WWTpump._valid_pump_types /\ WWTpump.lower "SLUDGE" = WWTpump.lower t.
Proof.
  intros u.
  destruct (WWTpump_pump_type_accepts_only_valid "SLUDGE" u
              (WWTpump.set_pump_type (Some "sludge"%string) u) eq_refl)
    as (t & Ht & Hl & _).
  exists t. split; [exact Ht|exact Hl].
Defined.

(** X3. The flow rates of a WWTpump agree with each other, in exact
    arithmetic and for any non-zero conversion factors. When no [Q_mgd]
    was given, or a [Q_mgd] of 0, which counts as none, the flow in cubic
    metres per day is 24 times the hourly inflow [F_vol_in]; a non-zero
    [Q_mgd] is used as it is; and the flow in gallons per minute is 60
    times the gallons in a cubic foot times the flow in cubic feet per
    second. *)
Theorem WWTpump_flow_rates_agree
    (u : WWTpump.t Qc) (_m3_to_gal _ft3_to_gal : Qc)
    (Hm3 : _m3_to_gal <> nzero)
    (Hft3 : _ft3_to_gal <> nzero) :
  (WWTpump._Q_mgd u = None \/ WWTpump._Q_mgd u = Some nzero ->
   WWTpump.Q_cmd _m3_to_gal u = nlit 24 ⊗ WWTpump.F_vol_in u)
  /\ (forall x, WWTpump._Q_mgd u = Some x -> x <> nzero ->
      WWTpump.Q_mgd _m3_to_gal u = x)
  /\ WWTpump.Q_gpm _m3_to_gal u
     = nlit 60 ⊗ _ft3_to_gal ⊗ WWTpump.Q_cfs _m3_to_gal _ft3_to_gal u.
Proof.
  assert (H24 : Q2Qc 24 <> 0%Qc) by (intros E; discriminate E).
  assert (H60 : Q2Qc 60 <> 0%Qc) by (intros E; discriminate E).
  assert (HM : Q2Qc 1000000 <> 0%Qc) by (intros E; discriminate E).
  simpl in Hm3, Hft3. split; [|split].
  - intros Hnone. unfold WWTpump.Q_cmd, WWTpump.Q_mgd.
    replace (WWTpump.truth (WWTpump._Q_mgd u)) with false
      by (destruct Hnone as [-> | ->]; reflexivity).
    simpl. field. auto.
  - intros x Hx Hne. unfold WWTpump.Q_mgd. rewrite Hx. simpl.
    rewrite bool_decide_eq_false_2 by exact Hne. reflexivity.
  - unfold WWTpump.Q_gpm, WWTpump.Q_cfs. simpl. field. auto.
Qed.

Lemma WWTpump_flow_rates_agree_witness :
  let u : WWTpump.t Qc := WWTpump.Mk (Q2Qc 5) (Some "lift"%string) (Some (Q2Qc 0)) in
  WWTpump.Q_cmd (Q2Qc (264172 # 1000)) u = nlit 24 ⊗ Q2Qc 5.
Proof.
  intros u.
  refine (proj1 (WWTpump_flow_rates_agree u (Q2Qc (264172 # 1000)) (Q2Qc (748 # 100)) _ _) _).
  - intros E; discriminate E.
  - intros E; discriminate E.
  - right; reflexivity.
Defined.

(** ** The state as a mapping *)

Section DictFacts.
Context {A : Type}.
Implicit Types (l : list (string * A)) (k : string).

Lemma dict_snoc l k (x : A) : dict (l ++ [(k, x)]) = <[k := x]> (dict l).
Proof. unfold dict. rewrite foldl_app. reflexivity. Qed.

Lemma dict_lookup_None l k : k ∉ l.*1 -> dict l !! k = None.
Proof.
  induction l as [|[k' x] l IH] using rev_ind; intros Hk.
  - apply lookup_empty.
  - rewrite dict_snoc. rewrite fmap_app in Hk. simpl in Hk.
    rewrite lookup_insert_ne by (intros ->; apply Hk, elem_of_app; right; left).
    apply IH. intros H. apply Hk, elem_of_app. left. exact H.
Qed.

Lemma dict_lookup_Some l k (x : A) :
  NoDup l.*1 -> (k, x) ∈ l -> dict l !! k = Some x.
Proof.
  induction l as [|[k' x'] l IH] using rev_ind; intros Hnd Hin.
  - apply elem_of_nil in Hin. destruct Hin.
  - rewrite dict_snoc. rewrite fmap_app in Hnd. simpl in Hnd.
    apply NoDup_app in Hnd as (Hnd & Hdisj & _).
    apply elem_of_app in Hin as [Hin|Hin].
    + rewrite lookup_insert_ne.
      * apply IH; assumption.
      * intros ->. apply (Hdisj k); [|left].
        apply list_elem_of_fmap. exists (k, x). split; [reflexivity|exact Hin].
    + apply list_elem_of_singleton in Hin. injection Hin as -> ->.
      apply lookup_insert_eq.
Qed.
Lemma dict_size l : NoDup l.*1 -> size (dict l) = length l.
Proof.
  induction l as [|[k x] l IH] using rev_ind; intros Hnd.
  - apply map_size_empty.
  - rewrite dict_snoc. rewrite fmap_app in Hnd. simpl in Hnd.
    apply NoDup_app in Hnd as (Hnd & Hdisj & _).
    rewrite map_size_insert_None.
    + rewrite IH by exact Hnd. rewrite length_app. simpl. lia.
    + apply dict_lookup_None. intros H. apply (Hdisj k H). left.
Qed.
End DictFacts.

(** X4. Setter and getter of [state] agree. After the setter has
    accepted a vector of [n_components + 1] entries, the mapping that
    [state] returns gives its last entry under ["Q"] and entry [j] under
    the ID of component [j], provided the IDs are distinct and none of
    them is ["Q"]. *)
Theorem state_getter_after_setter {A : Type} `{NA : Num A}
    (u : SanUnit.t A) (v : list A)
    (Hlen : length v = length (SanUnit.components u) + 1)
    (Hnd : NoDup (SanUnit.components u))
    (HQ : "Q"%string ∉ SanUnit.components u) :
  let r := (Pump.state_setter (SanUnit.Array1 v);; Pump.state) u in
  exists pairs : list (string * A),
    outcome r = inr (Some pairs)
    /\ dict pairs !! "Q"%string = last v
    /\ (forall j ID, SanUnit.components u !! j = Some ID -> dict pairs !! ID = v !! j)
    /\ size (dict pairs) = length v.
Proof.
  intros r. subst r.
  unfold Pump.state_setter, SanUnit.state_setter. rewrite bind_assoc, bind_gets.
  rewrite decide_False by (simpl; rewrite Hlen; intros H; apply H; reflexivity).
  rewrite bind_modify. unfold Pump.state, SanUnit.state. rewrite bind_gets.
  cbn [SanUnit._state SanUnit.set_state]. rewrite bind_gets.
  unfold mret, M_ret, ret. cbn [outcome SanUnit.components SanUnit.set_state].
  eexists. split; [reflexivity|].
  destruct (exists_last (l := v)) as (v' & q & ->).
  { intros ->. simpl in Hlen. lia. }
  rewrite length_app in Hlen. simpl in Hlen.
  assert (Hv' : length (SanUnit.components u) = length v') by lia.
  rewrite zip_with_app by exact Hv'. simpl.
  rewrite dict_snoc.
  assert (Hkeys : (zip (SanUnit.components u) v').*1 = SanUnit.components u)
    by (apply fst_zip; lia).
  split; [|split].
  - rewrite lookup_insert_eq, last_snoc. reflexivity.
  - intros j ID Hj.
    assert (HID : ID ≠ "Q"%string).
    { intros ->. apply HQ. apply list_elem_of_lookup. exists j. exact Hj. }
    rewrite lookup_insert_ne by (intros E; apply HID; symmetry; exact E).
    destruct (lookup_lt_is_Some_2 v' j) as [x Hx].
    { rewrite <- Hv'. apply lookup_lt_is_Some_1. eexists. exact Hj. }
    rewrite lookup_app_l by (apply lookup_lt_is_Some_1; eexists; exact Hx).
    rewrite Hx. apply dict_lookup_Some.
    + rewrite Hkeys. exact Hnd.
    + apply list_elem_of_lookup. exists j.
      rewrite lookup_zip_with, Hj, Hx. reflexivity.
  - rewrite map_size_insert_None.
    + rewrite length_app. simpl. rewrite Nat.add_1_r. f_equal.
      rewrite dict_size by (rewrite Hkeys; exact Hnd).
      rewrite length_zip_with. lia.
    + apply dict_lookup_None. rewrite Hkeys. exact HQ.
Qed.

Lemma state_getter_after_setter_witness :
  let s1 : Stream.t float := Stream.Mk (Some [100; 0; 10]%float) None ∅ in
  let u := SanUnit.__init__ [s1] [Stream.fresh] ["X"; "Y"]%string in
  let r := (Pump.state_setter (SanUnit.Array1 [1; 2; 3]%float);; Pump.state) u in
  exists pairs : list (string * float),
    outcome r = inr (Some pairs) /\ dict pairs !! "Q"%string = Some 3%float.
Proof.
  intros s1 u r.
  destruct (state_getter_after_setter u [1; 2; 3]%float) as (pairs & Hr & HQ & _).
  - reflexivity.
  - simpl. repeat constructor; rewrite ?elem_of_cons, ?elem_of_nil; intuition discriminate.
  - simpl. rewrite !elem_of_cons, elem_of_nil. intuition discriminate.
  - exists pairs. split; [exact Hr|exact HQ].
Defined.

(** X5. [_update_state] stores a vector of any length and the getter
    pairs labels with entries as far as the shorter of the two goes: once
    a vector with no more entries than there are components has been
    stored, the mapping that [state] returns has one entry per entry of
    the vector and none under ["Q"]. *)
Theorem state_getter_drops_flow_of_short_vector {A : Type} `{NA : Num A}
    (u : SanUnit.t A) (arr : list A) (o : Stream.t A) (os : list (Stream.t A))
    (Houts : SanUnit.outs u = o :: os)
    (Hshort : length arr <= length (SanUnit.components u))
    (HQ : "Q"%string ∉ SanUnit.components u) :
  let r := (Mixer._update_state arr;; Mixer.state) u in
  exists pairs : list (string * A),
    outcome r = inr (Some pairs)
    /\ length pairs = length arr
    /\ dict pairs !! "Q"%string = None.
Proof.
  intros r. subst r. unfold Mixer._update_state.
  rewrite bind_assoc, bind_modify.
  rewrite (bind_run _ _ _ _ _
             (set_out_state_run (SanUnit.set_state (Some arr) u) 0 (Some arr) o
                ltac:(simpl; rewrite Houts; reflexivity))).
  unfold Mixer.state, SanUnit.state. rewrite bind_gets.
  cbn [SanUnit._state SanUnit.set_state SanUnit.set_outs]. rewrite bind_gets.
  unfold mret, M_ret, ret. cbn [outcome SanUnit.components SanUnit.set_state SanUnit.set_outs].
  eexists. split; [reflexivity|]. split.
  - rewrite length_zip_with, length_app. simpl. lia.
  - apply dict_lookup_None. intros Hin.
    apply list_elem_of_fmap in Hin as ([k x] & Hk & Hin). simpl in Hk. subst k.
    apply list_elem_of_lookup in Hin as (j & Hj).
    rewrite lookup_zip_with in Hj.
    destruct ((SanUnit.components u ++ ["Q"%string]) !! j) as [k|] eqn:Ek; [|discriminate].
    destruct (arr !! j) as [y|] eqn:Ey; [|discriminate].
    simpl in Hj. injection Hj as -> ->.
    apply lookup_lt_Some in Ey.
    rewrite lookup_app_l in Ek by lia.
    apply HQ. apply list_elem_of_lookup. exists j. exact Ek.
Qed.

Lemma state_getter_drops_flow_of_short_vector_witness :
  let s1 : Stream.t float := Stream.Mk (Some [100; 0; 10]%float) None ∅ in
  let u := SanUnit.__init__ [s1] [Stream.fresh] ["X"; "Y"]%string in
  let r := (Mixer._update_state [7; 8]%float;; Mixer.state) u in
  exists pairs : list (string * float),
    outcome r = inr (Some pairs) /\ dict pairs !! "Q"%string = None.
Proof.
  intros s1 u r.
  destruct (state_getter_drops_flow_of_short_vector u [7; 8]%float Stream.fresh [])
    as (pairs & Hr & _ & HQ).
  - reflexivity.
  - simpl. lia.
  - simpl. rewrite !elem_of_cons, elem_of_nil. intuition discriminate.
  - exists pairs. split; [exact Hr|exact HQ].
Defined.

(** ** HydraulicDelay: the initial concentrations *)

Section FillConcs.
Context {A : Type} `{NA : Num A}.

Lemma fill_concs_spec (IDs : list string) (syn : gmap string string)
    (kwargs : list (string * A)) :
  forall Cs : list A,
  NoDup kwargs.*1 -> (forall k, k ∈ kwargs.*1 -> k ∈ IDs) ->
  length Cs = length IDs ->
  exists Cs',
    HydraulicDelay.fill_concs IDs syn kwargs Cs = inr Cs'
    /\ length Cs' = length Cs
    /\ (forall k v, (k, v) ∈ kwargs ->
          exists i, IDs !! i = Some k /\ Cs' !! i = Some v)
    /\ (forall i, (forall k, k ∈ kwargs.*1 -> IDs !! i <> Some k) ->
          Cs' !! i = Cs !! i).
Proof.
  induction kwargs as [|[k v] kwargs IH]; intros Cs Hnd Hknown Hlen.
  - exists Cs. split; [reflexivity|]. split; [reflexivity|]. split; [|reflexivity].
    intros k v Hin. apply elem_of_nil in Hin. destruct Hin.
  - simpl in Hnd. apply NoDup_cons in Hnd as [Hk Hnd].
    assert (Hkin : k ∈ IDs) by (apply Hknown; left).
    destruct (index_elem_of k IDs syn Hkin) as [i Hi].
    assert (Hik : IDs !! i = Some k) by exact (index_lookup _ _ _ _ Hkin Hi).
    destruct (IH (<[i := v]> Cs)) as (Cs' & Hrun & Hl & Hset & Hframe);
      [ exact Hnd | intros k' Hk'; apply Hknown; right; exact Hk'
      | rewrite length_insert; exact Hlen |].
    exists Cs'. simpl. rewrite Hi. simpl.
    split; [exact Hrun|]. split; [rewrite Hl; apply length_insert|]. split.
    + intros k' v' Hin. apply elem_of_cons in Hin as [Heq|Hin].
      * injection Heq as -> ->. exists i. split; [exact Hik|].
        rewrite Hframe.
        -- apply list_lookup_insert_eq. rewrite Hlen.
           apply lookup_lt_is_Some_1. eexists. exact Hik.
        -- intros k' Hk' Hi'. apply Hk. rewrite Hik in Hi'.
           injection Hi' as ->. exact Hk'.
      * apply Hset. exact Hin.
    + intros i' Hnone. rewrite Hframe.
      * apply list_lookup_insert_ne. intros ->. apply (Hnone k); [left|exact Hik].
      * intros k' Hk'. apply Hnone. right. exact Hk'.
Qed.
End FillConcs.

(** X6. [set_init_conc] with keywords that are all component IDs: it
    stores an override with one entry per component, holding the value
    given for every component that is named and 0 for every other; what
    an earlier call had stored is not kept. *)
Theorem set_init_conc_overrides {A : Type} `{NA : Num A}
    (u : SanUnit.t A) (kwargs : list (string * A))
    (Hnd : NoDup kwargs.*1)
    (Hknown : forall k, k ∈ kwargs.*1 -> k ∈ SanUnit.components u) :
  exists Cs : list A,
    HydraulicDelay.set_init_conc kwargs u = MkRun [] (SanUnit.set_concs (Some Cs) u) (inr tt)
    /\ length Cs = length (SanUnit.components u)
    /\ (forall k v, (k, v) ∈ kwargs ->
          exists i, SanUnit.components u !! i = Some k /\ Cs !! i = Some v)
    /\ (forall i ID, SanUnit.components u !! i = Some ID -> ID ∉ kwargs.*1 ->
          Cs !! i = Some nzero).
Proof.
  destruct (fill_concs_spec (SanUnit.components u) (SanUnit.synonyms u) kwargs
              (replicate (length (SanUnit.components u)) nzero) Hnd Hknown)
    as (Cs & Hrun & Hl & Hset & Hframe); [apply length_replicate|].
  exists Cs. unfold HydraulicDelay.set_init_conc.
  rewrite bind_gets, bind_gets, Hrun, bind_lift.
  split; [reflexivity|]. split; [rewrite Hl; apply length_replicate|]. split.
  - intros k v Hin. exact (Hset k v Hin).
  - intros i ID Hi Hnot. rewrite Hframe.
    + apply lookup_replicate_2. apply lookup_lt_is_Some_1. eexists. exact Hi.
    + intros k Hk Hik. rewrite Hi in Hik.
      injection Hik as ->. exact (Hnot Hk).
Qed.

Lemma set_init_conc_overrides_witness :
  let s1 : Stream.t float := Stream.Mk (Some [100; 0; 10]%float) None ∅ in
  let u := HydraulicDelay.__init__ [s1] [Stream.fresh] ["X"; "Y"]%string None in
  exists Cs : list float,
    SanUnit._concs (final (HydraulicDelay.set_init_conc [("Y"%string, 3%float)] u)) = Some Cs
    /\ length Cs = 2.
Proof.
  intros s1 u.
  destruct (set_init_conc_overrides u [("Y"%string, 3%float)])
    as (Cs & Hrun & Hl & _).
  - simpl. repeat constructor. rewrite elem_of_nil. tauto.
  - intros k Hk. simpl in *. rewrite !elem_of_cons, elem_of_nil in *. tauto.
  - exists Cs. rewrite Hrun. split; [reflexivity|exact Hl].
Defined.

(** X7. [set_init_conc] with a keyword that stands for no component,
    being neither the ID of one nor another name that the registry has
    for one, raises for the first such keyword, and the override that
    the unit held is untouched, whatever the keywords before it were. *)
Theorem set_init_conc_unknown_component {A : Type} `{NA : Num A}
    (u : SanUnit.t A) (known rest : list (string * A)) (k : string) (v : A)
    (Hknown : forall k', k' ∈ known.*1 -> k' ∈ SanUnit.components u)
    (Hk : resolve k (SanUnit.components u) (SanUnit.synonyms u)
          = inl (UndefinedChemical k)) :
  HydraulicDelay.set_init_conc (known ++ (k, v) :: rest) u
  = MkRun [] u (inl (UndefinedChemical k)).
Proof.
  unfold HydraulicDelay.set_init_conc. rewrite bind_gets, bind_gets.
  assert (H : forall Cs,
             HydraulicDelay.fill_concs (SanUnit.components u) (SanUnit.synonyms u)
               (known ++ (k, v) :: rest) Cs
             = inl (UndefinedChemical k)).
  { induction known as [|[k' v'] known IH]; intros Cs; simpl.
    - rewrite (index_refused k _ _ Hk). reflexivity.
    - destruct (index_elem_of k' (SanUnit.components u) (SanUnit.synonyms u))
        as [i ->]; [apply Hknown; left|].
      simpl. apply IH. intros k'' Hk''. apply Hknown. right. exact Hk''. }
  rewrite H. reflexivity.
Qed.

Lemma set_init_conc_unknown_component_witness :
  let s1 : Stream.t float := Stream.Mk (Some [100; 0; 10]%float) None ∅ in
  let u := HydraulicDelay.__init__ [s1] [Stream.fresh] ["X"; "Y"]%string None in
  HydraulicDelay.set_init_conc [("Y"%string, 3%float); ("Z"%string, 1%float)] u
  = MkRun [] u (inl (UndefinedChemical "Z")).
Proof.
  intros s1 u.
  refine (set_init_conc_unknown_component u [("Y"%string, 3%float)] [] "Z" 1%float _ _).
  - intros k Hk. simpl in *. rewrite !elem_of_cons, elem_of_nil in *. tauto.
  - reflexivity.
Defined.

(** X8. [HydraulicDelay._init_state] on a unit whose first input holds a
    state [row] of [n + 1] entries. Without an override the state is
    [row]. With an override of [n] concentrations the state is the
    override followed by the flow of [row]. With an override of any
    other length, one excepted, the assignment does not broadcast: a
    [ValueError] is raised when [row] is already the state of the
    unit. *)
Theorem HydraulicDelay_init_state_override {A : Type} `{NA : Num A}
    (u : SanUnit.t A) (row : list A) (rest : list (list A)) (n : nat)
    (Hins : map Stream._state (SanUnit.ins u) = map Some (row :: rest))
    (Hrow : length row = S n) :
  let r := HydraulicDelay._init_state u in
  (SanUnit._concs u = None -> r = MkRun [] (SanUnit.set_state (Some row) u) (inr tt))
  /\ (forall Cs, SanUnit._concs u = Some Cs -> length Cs = n ->
        r = MkRun [] (SanUnit.set_state (Some (Cs ++ [nth n row nzero])) u) (inr tt))
  /\ (forall Cs, SanUnit._concs u = Some Cs -> length Cs <> n -> length Cs <> 1 ->
        r = MkRun [] (SanUnit.set_state (Some row) u)
              (inl (ValueError could_not_broadcast))).
Proof.
  intros r. subst r. unfold HydraulicDelay._init_state.
  rewrite (bind_run _ _ _ _ _ (collect_ins_state_run u _ Hins)).
  simpl row0. rewrite bind_lift, bind_modify, bind_gets.
  cbn [SanUnit._concs SanUnit.set_state].
  destruct (exists_last (l := row)) as (C & Q & ->).
  { intros ->. discriminate. }
  rewrite length_app in Hrow. simpl in Hrow.
  assert (HC : length C = n) by lia.
  rewrite app_nth2 by lia. replace (n - length C) with 0 by lia. simpl nth.
  split; [|split].
  - intros ->. reflexivity.
  - intros Cs -> HCs.
    rewrite (bind_gets_array _ _ _ (C ++ [Q])) by reflexivity.
    rewrite set_but_last_len by lia. rewrite bind_lift. reflexivity.
  - intros Cs -> Hn H1.
    rewrite (bind_gets_array _ _ _ (C ++ [Q])) by reflexivity.
    unfold set_but_last. rewrite last_snoc, but_last_app.
    rewrite decide_False by lia.
    destruct Cs as [|y [|z Cs]]; simpl in H1; try lia; reflexivity.
Qed.

Lemma HydraulicDelay_init_state_override_witness :
  let s1 : Stream.t float := Stream.Mk (Some [100; 0; 10]%float) None ∅ in
  let u := SanUnit.set_concs (Some [5; 6]%float)
             (HydraulicDelay.__init__ [s1] [Stream.fresh] ["X"; "Y"]%string None) in
  SanUnit._state (final (HydraulicDelay._init_state u)) = Some [5; 6; 10]%float.
Proof.
  intros s1 u.
  rewrite (proj1 (proj2 (HydraulicDelay_init_state_override u [100; 0; 10]%float [] 2
                           eq_refl eq_refl)) [5; 6]%float eq_refl eq_refl).
  reflexivity.
Defined.

(** ** The compiled function is cached *)

Lemma ODE_with_cached {A : Type} (u : SanUnit.t A) (f : closure A)
    (c : M A (SanUnit.t A) unit) :
  SanUnit._ODE u = Some f -> Pump.ODE_with c u = MkRun [] u (inr f).
Proof.
  intros E. unfold Pump.ODE_with. rewrite bind_gets, E, bind_ret.
  unfold gets_attr. rewrite E. reflexivity.
Qed.

(** X9. The function of a Delay Node is compiled once, with the
    [t_delay] of that moment. Asking for [ODE] again returns the same
    function and changes nothing; a [t_delay] assigned afterwards is not
    seen; and [reset_cache] does not discard the function. *)
Theorem HydraulicDelay_ODE_compiled_once {A : Type} `{NA : Num A}
    (u : SanUnit.t A) (T T' : A)
    (HT : SanUnit.t_delay u = Some T)
    (Hode : SanUnit._ODE u = None) :
  let r := HydraulicDelay.ODE u in
  let u1 := final r in
  outcome r = inr (HydraulicDelay_dy_dt T)
  /\ HydraulicDelay.ODE u1 = MkRun [] u1 (inr (HydraulicDelay_dy_dt T))
  /\ outcome (HydraulicDelay.ODE (SanUnit.set_t_delay (Some T') u1))
     = inr (HydraulicDelay_dy_dt T)
  /\ outcome (HydraulicDelay.ODE (final (HydraulicDelay.reset_cache u1)))
     = inr (HydraulicDelay_dy_dt T).
Proof.
  intros r u1. subst u1 r.
  rewrite (HydraulicDelay_ODE_run u T HT (or_introl Hode)).
  cbn [outcome final]. unfold HydraulicDelay.ODE.
  split; [reflexivity|]. split; [|split].
  - apply ODE_with_cached. reflexivity.
  - rewrite (ODE_with_cached _ (HydraulicDelay_dy_dt T)) by reflexivity. reflexivity.
  - rewrite (ODE_with_cached _ (HydraulicDelay_dy_dt T)) by reflexivity. reflexivity.
Qed.

Lemma HydraulicDelay_ODE_compiled_once_witness :
  let s1 : Stream.t float := Stream.Mk (Some [100; 0; 10]%float) None ∅ in
  let u := HydraulicDelay.__init__ [s1] [Stream.fresh] ["X"; "Y"]%string (Some 2%float) in
  outcome (HydraulicDelay.ODE
             (SanUnit.set_t_delay (Some 7%float) (final (HydraulicDelay.ODE u))))
  = inr (HydraulicDelay_dy_dt 2%float).
Proof.
  intros s1 u.
  exact (proj1 (proj2 (proj2
           (HydraulicDelay_ODE_compiled_once u 2%float 7%float eq_refl eq_refl)))).
Defined.

(** ** Splitter: the derivative *)

Section SplitterDerivative.
Context {A : Type} `{NA : Num A}.

Lemma Splitter_ODE_run (u : SanUnit.t A) :
  SanUnit._ODE u = None \/ SanUnit._ODE u = Some Splitter_dy_dt ->
  Splitter.ODE u = MkRun [] (SanUnit.set_ODE (Some Splitter_dy_dt) u) (inr Splitter_dy_dt).
Proof.
  intros [E|E]; unfold Splitter.ODE; rewrite bind_gets, E.
  - unfold Splitter._compile_ODE. repeat mstep. reflexivity.
  - repeat mstep. unfold gets_attr. rewrite E. destruct u; simpl in *; subst; reflexivity.
Qed.

Lemma set_out_dstate_run (u : SanUnit.t A) (i : nat) (v : option (list A)) (o : Stream.t A) :
  SanUnit.outs u !! i = Some o ->
  SanUnit.set_out_dstate i v u
  = MkRun [] (SanUnit.set_outs (<[i := Stream.set_dstate v o]> (SanUnit.outs u)) u) (inr tt).
Proof. intros E. unfold SanUnit.set_out_dstate. rewrite E. reflexivity. Qed.

(** [dy_dt] once the two scale vectors exist. *)
Lemma Splitter_dy_dt_run (u : SanUnit.t A) (t : A) (QC_ins drest : list (list A))
    (QC d scale0 scale1 : list A) (o0 o1 : Stream.t A) (os : list (Stream.t A)) :
  SanUnit._split_out0_state u = Some scale0 ->
  SanUnit._split_out1_state u = Some scale1 ->
  length scale0 = length d -> length scale1 = length d ->
  SanUnit.outs u = o0 :: o1 :: os ->
  Splitter.dy_dt t QC_ins QC (d :: drest) u
  = MkRun []
      (SanUnit.set_outs
         (Stream.set_dstate (Some (zip_with nmul scale0 d)) o0
          :: Stream.set_dstate (Some (zip_with nmul scale1 d)) o1 :: os)
         (SanUnit.set_dstate (Some d) u))
      (inr tt).
Proof.
  intros H0 H1 L0 L1 Ho. unfold Splitter.dy_dt. simpl row0. repeat mstep.
  unfold Splitter._update_dstate. rewrite bind_gets. cbn [SanUnit._dstate SanUnit.set_dstate].
  rewrite (bind_gets_attr _ _ _ scale0) by exact H0. unfold Splitter.times.
  rewrite broadcast_same by exact L0. repeat mstep.
  rewrite (bind_run _ _ _ _ _
             (set_out_dstate_run (SanUnit.set_dstate (Some d) u) 0 _ o0
                ltac:(simpl; rewrite Ho; reflexivity))).
  rewrite (bind_gets_attr _ _ _ scale1) by exact H1. repeat mstep.
  rewrite broadcast_same by exact L1. repeat mstep.
  rewrite (set_out_dstate_run _ 1 _ o1) by (simpl; rewrite Ho; reflexivity).
  simpl. rewrite Ho. reflexivity.
Qed.
End SplitterDerivative.

(** X10. A Splitter whose split of the reference component is neither
    0 nor 1, so that [_init_state] completes. Initialised, given the
    state [arr] and then asked for its [ODE], the function being called
    with the upstream derivative [darr]: the unit keeps [darr] as its
    derivative vector and each output receives the product of its scale
    vector with [darr], the same map that [_update_state] applies to
    [arr]. The two flow derivatives add up to the upstream one, and the
    rates of change of the mass flow of every component add up as well.
    In exact arithmetic. *)
Theorem Splitter_derivative_conservation
    (u : SanUnit.t Qc) (t : Qc) (row s arr darr : list Qc)
    (rest QC_ins drest : list (list Qc))
    (i : nat) (s_ref : Qc) (o0 o1 : Stream.t Qc) (os : list (Stream.t Qc))
    (Hins : map Stream._state (SanUnit.ins u) = map Some (row :: rest))
    (Hs : SanUnit.split u = Some s)
    (Hi : index "H2O" (SanUnit.components u) (SanUnit.synonyms u) = inr i)
    (Href : s !! i = Some s_ref)
    (Hnot0 : s_ref <> nzero)
    (Hnot1 : s_ref <> nunit)
    (Hlen : length arr = S (length s))
    (Hdlen : length darr = S (length s))
    (Houts : SanUnit.outs u = o0 :: o1 :: os)
    (Hode : SanUnit._ODE u = None \/ SanUnit._ODE u = Some Splitter_dy_dt) :
  let n := length s in
  let scale0 := append (map (fun x => x ⊘ s_ref) s) s_ref in
  let scale1 := append (map (fun x => (nunit ⊖ x) ⊘ (nunit ⊖ s_ref)) s) (nunit ⊖ s_ref) in
  let r := (Splitter._init_state;; Splitter._update_state arr;;
            f ← Splitter.ODE; call f t QC_ins arr (darr :: drest)) u in
  exists b0 b1 d0 d1 : list Qc,
    outcome r = inr tt
    /\ SanUnit._dstate (final r) = Some darr
    /\ SanUnit.outs (final r)
       = Stream.set_dstate (Some d0) (Stream.set_state (Some b0) o0)
         :: Stream.set_dstate (Some d1) (Stream.set_state (Some b1) o1) :: os
    /\ b0 = zip_with nmul scale0 arr /\ d0 = zip_with nmul scale0 darr
    /\ b1 = zip_with nmul scale1 arr /\ d1 = zip_with nmul scale1 darr
    /\ nth n d0 nzero ⊕ nth n d1 nzero = nth n darr nzero
    /\ (forall j, j < n ->
          mass_flow_rate n j b0 d0 ⊕ mass_flow_rate n j b1 d1 = mass_flow_rate n j arr darr).
Proof.
  intros n scale0 scale1 r. subst n scale0 scale1 r. unfold mass_flow_rate.
  assert (La : forall (f : Qc -> Qc) (x : Qc), length (append (map f s) x) = S (length s)).
  { intros f x. unfold append. rewrite length_app, length_map. simpl. lia. }
  rewrite outcome_bind, final_bind.
  rewrite (Splitter_init_state_run u row s rest i s_ref Hins Hs Hi Href
             (Qc_not_zero _ Hnot0) (Qc_not_one _ Hnot1)).
  unfold logged. cbn [outcome final]. rewrite map_map.
  erewrite bind_run;
    [ | apply Splitter_update_state_run with (o0 := o0) (o1 := o1) (os := os);
        [ reflexivity | reflexivity | rewrite La; lia | rewrite La; lia | exact Houts ] ].
  erewrite bind_run; [ | apply Splitter_ODE_run; exact Hode ].
  unfold call.
  erewrite Splitter_dy_dt_run;
    [ | reflexivity | reflexivity | rewrite La; lia | rewrite La; lia | reflexivity ].
  cbn [outcome final]. eexists _, _, _, _.
  split; [reflexivity|]. split; [reflexivity|]. split; [reflexivity|].
  split; [reflexivity|]. split; [reflexivity|]. split; [reflexivity|].
  split; [reflexivity|].
  rewrite !(nth_lookup_Some _ _ _ _ (scaled_lookup_last _ s darr _ Hdlen)).
  rewrite !(nth_lookup_Some _ _ _ _ (scaled_lookup_last _ s arr _ Hlen)).
  split.
  - simpl. ring.
  - intros j Hj.
    assert (Hd : (1 - s_ref)%Qc <> 0%Qc).
    { intros E. apply Hnot1. simpl.
      replace s_ref with (1 - (1 - s_ref))%Qc by ring. rewrite E. ring. }
    rewrite !(nth_lookup_Some _ _ _ _ (scaled_lookup _ s darr _ j Hdlen Hj)).
    rewrite !(nth_lookup_Some _ _ _ _ (scaled_lookup _ s arr _ j Hlen Hj)).
    simpl. field. split; [exact Hd|exact Hnot0].
Qed.

Lemma Splitter_derivative_conservation_witness :
  let s1 : Stream.t Qc := Stream.Mk (Some [Q2Qc 100; Q2Qc 1000; Q2Qc 10]) None ∅ in
  let u := Splitter.__init__ [s1] [Stream.fresh; Stream.fresh] ["X"; "H2O"]%string
             [Q2Qc (1 # 2); Q2Qc (1 # 4)] in
  let arr := [Q2Qc 80; Q2Qc 900; Q2Qc 12] in
  let darr := [Q2Qc 3; Q2Qc (-5); Q2Qc 2] in
  let r := (Splitter._init_state;; Splitter._update_state arr;;
            f ← Splitter.ODE; call f (Q2Qc 0) [arr] arr [darr]) u in
  exists b0 b1 d0 d1 : list Qc,
    SanUnit.outs (final r)
    = [Stream.Mk (Some b0) (Some d0) ∅; Stream.Mk (Some b1) (Some d1) ∅]
    /\ mass_flow_rate 2 0 b0 d0 ⊕ mass_flow_rate 2 0 b1 d1 = mass_flow_rate 2 0 arr darr.
Proof.
  intros s1 u arr darr r.
  destruct (Splitter_derivative_conservation u (Q2Qc 0) [Q2Qc 100; Q2Qc 1000; Q2Qc 10]
              [Q2Qc (1 # 2); Q2Qc (1 # 4)] arr darr [] [arr] [] 1 (Q2Qc (1 # 4))
              Stream.fresh Stream.fresh [])
    as (b0 & b1 & d0 & d1 & _ & _ & Ho & _ & _ & _ & _ & _ & Hj);
    [reflexivity | reflexivity | reflexivity | reflexivity | discriminate | discriminate
    | reflexivity | reflexivity | reflexivity | left; reflexivity | ].
  exists b0, b1, d0, d1. split; [exact Ho|].
  apply Hj. simpl. lia.
Defined.

(** ** A Mixer with one input *)

Lemma res_mapM_length {X Y : Type} (f : X -> res Y) (l : list X) (ys : list Y) :
  res_mapM f l = inr ys -> length ys = length l.
Proof.
  revert ys. induction l as [|x l IH]; intros ys; simpl.
  - intros [= <-]. reflexivity.
  - destruct (f x) as [e|y]; simpl; [discriminate|].
    destruct (res_mapM f l) as [e|ys']; simpl; [discriminate|].
    intros [= <-]. simpl. f_equal. apply IH. reflexivity.
Qed.

Section SingleInput.
Context {A : Type} `{NA : Num A}.

Lemma Pump_ODE_run (u : SanUnit.t A) :
  SanUnit._ODE u = None \/ SanUnit._ODE u = Some Pump_dy_dt ->
  Pump.ODE u = MkRun [] (SanUnit.set_ODE (Some Pump_dy_dt) u) (inr Pump_dy_dt).
Proof.
  intros [E|E]; unfold Pump.ODE, Pump.ODE_with; rewrite bind_gets, E.
  - unfold Pump._compile_ODE. repeat mstep. reflexivity.
  - repeat mstep. unfold gets_attr. rewrite E. destruct u; simpl in *; subst; reflexivity.
Qed.

Lemma Mixer_dy_dt_single (_n_ins : nat) (t : A) (QC_ins dQC_ins : list (list A))
    (QC : list A) (u : SanUnit.t A) :
  _n_ins <= 1 ->
  Mixer.dy_dt _n_ins t QC_ins QC dQC_ins u = Pump.dy_dt t QC_ins QC dQC_ins u.
Proof.
  intros H. unfold Mixer.dy_dt. rewrite decide_False by lia.
  rewrite bind_assoc. reflexivity.
Qed.

(** What [Pump.dy_dt] does does not depend on the cached function. *)
Lemma Pump_dy_dt_frame (t : A) (QC_ins dQC_ins : list (list A)) (QC : list A)
    (f : option (closure A)) (u : SanUnit.t A) :
  let r := Pump.dy_dt t QC_ins QC dQC_ins u in
  Pump.dy_dt t QC_ins QC dQC_ins (SanUnit.set_ODE f u)
  = MkRun (divisors r) (SanUnit.set_ODE f (final r)) (outcome r).
Proof.
  unfold Pump.dy_dt. destruct dQC_ins as [|d rest]; simpl row0.
  - rewrite !bind_lift_raise. reflexivity.
  - repeat mstep. unfold Pump._update_dstate. rewrite !bind_gets.
    unfold SanUnit.set_out_dstate. simpl SanUnit.outs.
    destruct (SanUnit.outs u) as [|o os]; reflexivity.
Qed.
End SingleInput.

(** X11. A Mixer with at most one input is a Pump. Its [_init_state] is
    that of a Pump on the same unit, errors included; and the function
    its [ODE] compiles, called on any arrays, raises what the function of
    the Pump raises and leaves the same state, derivative vector and
    outputs. *)
Theorem Mixer_single_input_is_Pump {A : Type} `{NA : Num A}
    (u : SanUnit.t A) (t : A) (QC_ins dQC_ins : list (list A)) (QC : list A)
    (Hone : length (SanUnit.ins u) <= 1)
    (Hode : SanUnit._ODE u = None) :
  let rm := (f ← Mixer.ODE; call f t QC_ins QC dQC_ins) u in
  let rp := (f ← Pump.ODE; call f t QC_ins QC dQC_ins) u in
  Mixer._init_state u = Pump._init_state u
  /\ outcome rm = outcome rp
  /\ divisors rm = divisors rp
  /\ SanUnit._state (final rm) = SanUnit._state (final rp)
  /\ SanUnit._dstate (final rm) = SanUnit._dstate (final rp)
  /\ SanUnit.outs (final rm) = SanUnit.outs (final rp).
Proof.
  intros rm rp. subst rm rp. split.
  - unfold Mixer._init_state, Pump._init_state.
    assert (Hcollect : forall X (f : list (list A) -> M A (SanUnit.t A) X),
               (SanUnit._collect_ins_state ≫= f) u
               = (lift (res_mapM (fun s => match Stream._state s with
                                           | Some v => inr v
                                           | None => inl TypeError
                                           end) (SanUnit.ins u)) ≫= f) u)
      by reflexivity.
    rewrite !Hcollect.
    destruct (res_mapM _ (SanUnit.ins u)) as [e|QCs] eqn:E.
    + rewrite !bind_lift_raise. reflexivity.
    + apply res_mapM_length in E. rewrite !bind_lift.
      rewrite decide_True by lia. rewrite bind_assoc. reflexivity.
  - rewrite (bind_run _ _ _ _ _ (Mixer_ODE_run u (or_introl Hode))).
    rewrite (bind_run _ _ _ _ _ (Pump_ODE_run u (or_introl Hode))).
    unfold call. rewrite Mixer_dy_dt_single by exact Hone.
    rewrite !Pump_dy_dt_frame. cbn [outcome final divisors].
    repeat split.
Qed.

Lemma Mixer_single_input_is_Pump_witness :
  let s1 : Stream.t float := Stream.Mk (Some [100; 0; 10]%float) None ∅ in
  let u := SanUnit.__init__ [s1] [Stream.fresh] ["X"; "Y"]%string in
  Mixer._init_state u = Pump._init_state u
  /\ SanUnit._dstate (final ((f ← Mixer.ODE;
                              call f 0%float [[100; 0; 10]]%float [100; 0; 10]%float
                                [[1; 2; 3]]%float) u))
     = Some [1; 2; 3]%float.
Proof.
  intros s1 u.
  destruct (Mixer_single_input_is_Pump u 0%float [[100; 0; 10]]%float [[1; 2; 3]]%float
              [100; 0; 10]%float) as (Hi & _ & _ & _ & Hd & _);
    [simpl; lia | reflexivity | ].
  split; [exact Hi|]. rewrite Hd. reflexivity.
Defined.

(** X12. A ComponentSplitter with more outputs than keys, whose keys are
    IDs or iterables of IDs that the thermodynamic package knows and
    name no component twice: [_run] completes. A component named by the
    key at position [p] is recorded in output [p] with the flow that the
    mixed inflow has of it, and with a flow of 0 in the last output; no
    other output is written for it. A component that no key names is
    recorded in the last output as the mixed inflow has it. What the
    other outputs held of a component before the run, they still hold:
    the run empties none of them. *)
Theorem ComponentSplitter_run_fans_out {A : Type} `{NA : Num A}
    (u : ComponentSplitter.t A) (ks : list ComponentSplitter.key) (last : nat)
    (Hks : ComponentSplitter.elements (ComponentSplitter._split_keys u) = ks)
    (Houts : length (ComponentSplitter.outs u) = S last)
    (Hlen : length ks <= last)
    (Hiter : Forall (fun k => k <> ComponentSplitter.NotIterable) ks)
    (Hknown : forall c, c ∈ visited ks -> c ∈ ComponentSplitter.components u)
    (Hnd : NoDup (visited ks)) :
  let r := ComponentSplitter._run u in
  let inflow := mixed (ComponentSplitter.ins u) in
  outcome r = inr tt
  /\ (forall p k c, ks !! p = Some k -> c ∈ cmps_of k ->
        flow (final r) p c = Some (default nzero (inflow !! c))
        /\ flow (final r) last c = Some nzero
        /\ forall j, j <> p -> j <> last -> flow (final r) j c = flow u j c)
  /\ (forall c, c ∉ visited ks ->
        flow (final r) last c = inflow !! c
        /\ forall j, j <> last -> flow (final r) j c = flow u j c).
Proof.
  intros r inflow. subst r inflow.
  destruct (run_flow u ks last Hks Houts ltac:(lia) Hiter Hknown Hnd) as (u' & E & Fin & Fout).
  rewrite E. cbn [outcome final]. split; [reflexivity|]. split.
  - intros p k c Hp Hc.
    assert (Hlt : p < length ks) by (apply lookup_lt_is_Some; eexists; exact Hp).
    split; [|split].
    + rewrite (Fin p k c p Hp Hc).
      rewrite (decide_False (P := p = last)) by lia.
      rewrite (decide_True (P := p = p)) by reflexivity. reflexivity.
    + rewrite (Fin p k c last Hp Hc).
      rewrite (decide_True (P := last = last)) by reflexivity. reflexivity.
    + intros j Hjp Hjl. rewrite (Fin p k c j Hp Hc).
      rewrite (decide_False (P := j = last)) by exact Hjl.
      rewrite (decide_False (P := j = p)) by exact Hjp. reflexivity.
  - intros c Hc. split.
    + rewrite (Fout c last Hc).
      rewrite (decide_True (P := last = last)) by reflexivity. reflexivity.
    + intros j Hj. rewrite (Fout c j Hc).
      rewrite (decide_False (P := j = last)) by exact Hj. reflexivity.
Qed.

Lemma ComponentSplitter_run_fans_out_witness :
  let inflow : Stream.t float :=
    Stream.Mk None None
      (<["A"%string := 10%float]> (<["B"%string := 5%float]> (<["C"%string := 3%float]> ∅))) in
  let ks := [ComponentSplitter.Iter ["A"%string]; ComponentSplitter.Str "B"%string] in
  let u := ComponentSplitter.Mk [inflow] (ComponentSplitter.default_outs 3)
             ["A"; "B"; "C"]%string 3 (ComponentSplitter.Seq ks) ∅ in
  let r := ComponentSplitter._run u in
  flow (final r) 1 "B"%string = Some 5%float
  /\ flow (final r) 2 "B"%string = Some 0%float
  /\ flow (final r) 2 "C"%string = Some 3%float.
Proof.
  intros inflow ks u r.
  destruct (ComponentSplitter_run_fans_out u ks 2) as (_ & Hin & Hout).
  - reflexivity.
  - reflexivity.
  - simpl. lia.
  - repeat constructor; discriminate.
  - intros c Hc. unfold visited in Hc. simpl in *.
    rewrite !elem_of_cons in Hc. rewrite !elem_of_cons. tauto.
  - unfold visited. simpl.
    repeat constructor; rewrite ?elem_of_cons, ?elem_of_nil; intuition discriminate.
  - destruct (Hin 1 (ComponentSplitter.Str "B"%string) "B"%string eq_refl)
      as (H1 & H2 & _); [simpl; left|].
    destruct (Hout "C"%string) as (H3 & _).
    { unfold visited. simpl. rewrite !elem_of_cons, elem_of_nil. intuition discriminate. }
    split; [|split].
    + exact H1.
    + exact H2.
    + exact H3.
Defined.

(** X13. The [split_keys] setter accepts a replacement with as many keys
    as there are outputs, one more than the unit was created with. The
    run that follows completes, and the components of the last of the
    new keys are moved from the last output into the last output and
    then set to 0 there: they are recorded as 0 in the last output and
    in no other output, whatever their flow in the inputs. *)
Theorem ComponentSplitter_replaced_keys_lose_last_group {A : Type} `{NA : Num A}
    (ins : list (Stream.t A)) (IDs : list string)
    (ks ks' : list ComponentSplitter.key) (u : ComponentSplitter.t A)
    (k : ComponentSplitter.key) (c : string)
    (Hu : ComponentSplitter.__init__ ins IDs (ComponentSplitter.Seq ks) = inr u)
    (Hlen : length ks' = length ks + 1)
    (Hiter : Forall (fun k => k <> ComponentSplitter.NotIterable) ks')
    (Hknown : forall c, c ∈ visited ks' -> c ∈ IDs)
    (Hnd : NoDup (visited ks'))
    (Hk : last ks' = Some k)
    (Hc : c ∈ cmps_of k) :
  let r := (ComponentSplitter.split_keys_setter (ComponentSplitter.Seq ks');;
            ComponentSplitter._run) u in
  outcome r = inr tt
  /\ flow (final r) (length ks) c = Some nzero
  /\ forall j, j <> length ks -> flow (final r) j c = None.
Proof.
  intros r. subst r. unfold ComponentSplitter.__init__ in Hu.
  destruct (ComponentSplitter.is_empty _); [discriminate|]. injection Hu as <-.
  set (u0 := ComponentSplitter.Mk _ _ _ _ _ _).
  assert (Hn : length (ComponentSplitter.outs u0) = S (length ks)).
  { simpl. unfold ComponentSplitter.default_outs. rewrite length_replicate. lia. }
  unfold ComponentSplitter.split_keys_setter. cbv zeta.
  rewrite bind_assoc, bind_gets, Hn. cbn [ComponentSplitter.len].
  rewrite decide_False by lia. rewrite bind_modify.
  destruct (run_flow (ComponentSplitter.set_split_keys (ComponentSplitter.Seq ks') u0)
              ks' (length ks)) as (u' & E & Fin & _);
    [ reflexivity | exact Hn | lia | exact Hiter | exact Hknown | exact Hnd |].
  rewrite E. cbn [outcome final].
  rewrite last_lookup in Hk. replace (pred (length ks')) with (length ks) in Hk by lia.
  split; [reflexivity|]. split.
  - rewrite (Fin _ k c _ Hk Hc).
    rewrite (decide_True (P := length ks = length ks)) by reflexivity. reflexivity.
  - intros j Hj. rewrite (Fin _ k c j Hk Hc).
    rewrite !(decide_False (P := j = length ks)) by exact Hj.
    unfold flow. simpl. unfold ComponentSplitter.default_outs.
    destruct (replicate (length ks + 1) Stream.fresh !! j) as [s|] eqn:El; [|reflexivity].
    apply lookup_replicate in El as [-> _]. apply lookup_empty.
Qed.

Lemma ComponentSplitter_replaced_keys_lose_last_group_witness :
  let inflow : Stream.t float :=
    Stream.Mk None None
      (<["A"%string := 10%float]> (<["B"%string := 5%float]> (<["C"%string := 3%float]> ∅))) in
  let keys s := map ComponentSplitter.Str s in
  exists u : ComponentSplitter.t float,
    ComponentSplitter.__init__ [inflow] ["A"; "B"; "C"]%string
      (ComponentSplitter.Seq (keys ["A"; "B"]%string)) = inr u
    /\ mixed (ComponentSplitter.ins u) !! "C"%string = Some 3%float
    /\ map (fun j => flow (final ((ComponentSplitter.split_keys_setter
                                     (ComponentSplitter.Seq (keys ["A"; "B"; "C"]%string));;
                                   ComponentSplitter._run) u)) j "C"%string) [0; 1; 2]
       = [None; None; Some 0%float].
Proof.
  intros inflow keys. eexists. split; [reflexivity|]. split; [reflexivity|].
  destruct (ComponentSplitter_replaced_keys_lose_last_group [inflow] ["A"; "B"; "C"]%string
              (keys ["A"; "B"]%string) (keys ["A"; "B"; "C"]%string) _
              (ComponentSplitter.Str "C"%string) "C"%string eq_refl)
    as (_ & Hlast & Hother).
  - reflexivity.
  - repeat constructor; discriminate.
  - intros c Hc. exact Hc.
  - unfold visited. simpl.
    repeat constructor; rewrite ?elem_of_cons, ?elem_of_nil; intuition discriminate.
  - reflexivity.
  - simpl. left.
  - cbn [map].
    refine (f_equal2 cons (Hother 0 _)
              (f_equal2 cons (Hother 1 _) (f_equal2 cons Hlast eq_refl))); simpl; lia.
Defined.

(** X14. A key that is neither an ID nor an iterable stops [_run] with
    the [ValueError] "must be an iterable", whatever keys follow it. By
    then the last output has been mixed from the inputs and the
    components of the keys before it have been moved to their outputs. *)
Theorem ComponentSplitter_not_iterable_key_raises {A : Type} `{NA : Num A}
    (u : ComponentSplitter.t A) (ks rest : list ComponentSplitter.key) (last : nat)
    (Hks : ComponentSplitter.elements (ComponentSplitter._split_keys u)
           = ks ++ ComponentSplitter.NotIterable :: rest)
    (Houts : length (ComponentSplitter.outs u) = S last)
    (Hlen : length ks <= last)
    (Hiter : Forall (fun k => k <> ComponentSplitter.NotIterable) ks)
    (Hknown : forall c, c ∈ visited ks -> c ∈ ComponentSplitter.components u)
    (Hnd : NoDup (visited ks)) :
  let r := ComponentSplitter._run u in
  let inflow := mixed (ComponentSplitter.ins u) in
  outcome r = inl (ValueError split_keys_must_be_iterable)
  /\ (forall p k c, ks !! p = Some k -> c ∈ cmps_of k ->
        flow (final r) p c = Some (default nzero (inflow !! c))
        /\ flow (final r) last c = Some nzero)
  /\ (forall c, c ∉ visited ks -> flow (final r) last c = inflow !! c).
Proof.
  intros r inflow. subst r inflow.
  destruct (run_app u ks (ComponentSplitter.NotIterable :: rest) last
              Hks Houts ltac:(lia) Hiter Hknown Hnd) as (u' & E & _ & _ & Fin & Fout).
  rewrite E.
  change (ComponentSplitter._run_keys last (length ks)
            (ComponentSplitter.NotIterable :: rest) (visited ks) u')
    with (MkRun (A := A) (X := unit) [] u' (inl (ValueError split_keys_must_be_iterable))).
  cbn [outcome final]. split; [reflexivity|]. split.
  - intros p k c Hp Hc.
    assert (Hlt : p < length ks) by (apply lookup_lt_is_Some; eexists; exact Hp).
    split.
    + rewrite (Fin p k c p Hp Hc).
      rewrite (decide_False (P := p = last)) by lia.
      rewrite (decide_True (P := p = p)) by reflexivity. reflexivity.
    + rewrite (Fin p k c last Hp Hc).
      rewrite (decide_True (P := last = last)) by reflexivity. reflexivity.
  - intros c Hc. rewrite (Fout c last Hc).
    rewrite (decide_True (P := last = last)) by reflexivity. reflexivity.
Qed.

Lemma ComponentSplitter_not_iterable_key_raises_witness :
  let inflow : Stream.t float :=
    Stream.Mk None None
      (<["A"%string := 10%float]> (<["B"%string := 5%float]> (<["C"%string := 3%float]> ∅))) in
  let ks := [ComponentSplitter.Str "A"%string; ComponentSplitter.NotIterable] in
  let u := ComponentSplitter.Mk [inflow] (ComponentSplitter.default_outs 3)
             ["A"; "B"; "C"]%string 3 (ComponentSplitter.Seq ks) ∅ in
  let r := ComponentSplitter._run u in
  outcome r = inl (ValueError split_keys_must_be_iterable)
  /\ flow (final r) 0 "A"%string = Some 10%float.
Proof.
  intros inflow ks u r.
  destruct (ComponentSplitter_not_iterable_key_raises u
              [ComponentSplitter.Str "A"%string] [] 2) as (Hr & Hin & _).
  - reflexivity.
  - reflexivity.
  - simpl. lia.
  - repeat constructor; discriminate.
  - intros c Hc. unfold visited in Hc. simpl in *.
    rewrite !elem_of_cons in Hc. rewrite !elem_of_cons. tauto.
  - unfold visited. simpl. repeat constructor. rewrite elem_of_nil. tauto.
  - split; [exact Hr|].
    destruct (Hin 0 (ComponentSplitter.Str "A"%string) "A"%string eq_refl) as (H1 & _);
      [simpl; left|].
    exact H1.
Defined.

(** X15. A single string as [split_keys]. The constructor takes a string
    that is not empty for one key and creates two outputs, but [_run]
    goes through the string character by character: when the first
    character alone stands for no component, being neither the ID of one
    nor another name that the registry has for one, the run stops on it
    with [UndefinedChemical], also when the string as a whole is the ID
    of a component. And on a unit so created the setter refuses every
    single string, leaving the unit as it was. *)
Theorem ComponentSplitter_string_key_is_iterated {A : Type} `{NA : Num A}
    (ins : list (Stream.t A)) (IDs : list string) (syn : gmap string string)
    (a : Ascii.ascii) (s : string)
    (Hfirst : resolve (String a EmptyString) IDs syn
              = inl (UndefinedChemical (String a EmptyString))) :
  exists u0 : ComponentSplitter.t A,
    ComponentSplitter.__init__ ins IDs (ComponentSplitter.OneStr (String a s)) = inr u0
    /\ length (ComponentSplitter.outs u0) = 2
    /\ let u := ComponentSplitter.set_synonyms syn u0 in
       outcome (ComponentSplitter._run u) = inl (UndefinedChemical (String a EmptyString))
       /\ forall s', ComponentSplitter.split_keys_setter (ComponentSplitter.OneStr s') u
                     = MkRun [] u (inl (ValueError size_cannot_be_changed)).
Proof.
  eexists. split; [reflexivity|].
  set (u0 := ComponentSplitter.Mk _ _ _ _ _ _).
  split; [reflexivity|]. intros u. split.
  - unfold ComponentSplitter._run. rewrite bind_gets.
    change (length (ComponentSplitter.outs u)) with 2.
    rewrite decide_False by lia. rewrite bind_ret. cbv zeta.
    rewrite bind_modify, bind_gets.
    cbn [ComponentSplitter.elements ComponentSplitter._split_keys ComponentSplitter.set_outs
         ComponentSplitter.set_synonyms u u0 ComponentSplitter.chars map
         ComponentSplitter._run_keys].
    rewrite bind_ret. cbn [ComponentSplitter._run_group].
    rewrite !outcome_bind. unfold ComponentSplitter.imass_get. cbn [outcome].
    cbn -[resolve]. rewrite Hfirst. reflexivity.
  - intros s'. reflexivity.
Qed.

Lemma ComponentSplitter_string_key_is_iterated_witness :
  exists u : ComponentSplitter.t float,
    ComponentSplitter.__init__ [] ["H2O"; "NH3"]%string (ComponentSplitter.OneStr "H2O"%string)
    = inr u
    /\ outcome (ComponentSplitter._run (ComponentSplitter.set_synonyms ∅ u))
       = inl (UndefinedChemical "H"%string).
Proof.
  destruct (ComponentSplitter_string_key_is_iterated (A := float) [] ["H2O"; "NH3"]%string ∅
              (Ascii.Ascii false false false true false false true false) "2O"%string)
    as (u & Hu & _ & Hr & _).
  - reflexivity.
  - exists u. split; [exact Hu|exact Hr].
Defined.

(** ** Splitting, then mixing *)

(** X16. The two outputs of a Splitter, mixed again. A Splitter whose
    reference split is neither 0 nor 1 is initialised and given the state
    [arr], of non-zero flow; a Mixer whose inputs are the two outputs of
    that Splitter then initialises to the state [arr] itself. In exact
    arithmetic. *)
Theorem Splitter_then_Mixer_restores_state
    (u m : SanUnit.t Qc) (row s arr : list Qc) (rest : list (list Qc))
    (i : nat) (s_ref : Qc) (o0 o1 : Stream.t Qc)
    (Hins : map Stream._state (SanUnit.ins u) = map Some (row :: rest))
    (Hs : SanUnit.split u = Some s)
    (Hi : index "H2O" (SanUnit.components u) (SanUnit.synonyms u) = inr i)
    (Href : s !! i = Some s_ref)
    (Hlen : length arr = S (length s))
    (Houts : SanUnit.outs u = [o0; o1])
    (Hnot0 : s_ref <> nzero)
    (Hnot1 : s_ref <> nunit)
    (HQ : nth (length s) arr nzero <> nzero)
    (Hm : SanUnit.ins m
          = SanUnit.outs (final ((Splitter._init_state;; Splitter._update_state arr) u))) :
  let r := Mixer._init_state m in
  outcome r = inr tt /\ SanUnit._state (final r) = Some arr.
Proof.
  intros r. subst r.
  set (scale0 := append (map (fun x => x ⊘ s_ref) s) s_ref).
  set (scale1 := append (map (fun x => (nunit ⊖ x) ⊘ (nunit ⊖ s_ref)) s) (nunit ⊖ s_ref)).
  assert (La : forall (f : Qc -> Qc) (x : Qc), length (append (map f s) x) = S (length s)).
  { intros f x. unfold append. rewrite length_app, length_map. simpl. lia. }
  assert (Ho : SanUnit.outs (final ((Splitter._init_state;; Splitter._update_state arr) u))
               = [Stream.set_state (Some (zip_with nmul scale0 arr)) o0;
                  Stream.set_state (Some (zip_with nmul scale1 arr)) o1]).
  { subst scale0 scale1. rewrite final_bind.
    rewrite (Splitter_init_state_run u row s rest i s_ref Hins Hs Hi Href
               (Qc_not_zero _ Hnot0) (Qc_not_one _ Hnot1)).
    unfold logged. cbn [outcome final]. rewrite map_map.
    erewrite Splitter_update_state_run;
      [ reflexivity | reflexivity | reflexivity
      | rewrite La; lia | rewrite La; lia | simpl; exact Houts ]. }
  rewrite Ho in Hm. clear Ho.
  set (b0 := zip_with nmul scale0 arr) in *.
  set (b1 := zip_with nmul scale1 arr) in *.
  assert (Hb0 : length b0 = S (length s)).
  { subst b0 scale0. rewrite length_zip_with, La. lia. }
  assert (Hb1 : length b1 = S (length s)).
  { subst b1 scale1. rewrite length_zip_with, La. lia. }
  assert (Hd : (1 - s_ref)%Qc <> 0%Qc).
  { intros E. apply Hnot1. simpl.
    replace s_ref with (1 - (1 - s_ref))%Qc by ring. rewrite E. ring. }
  assert (HQ0 : nth (length s) b0 nzero = s_ref ⊗ nth (length s) arr nzero).
  { apply nth_lookup_Some with (d := nzero) (1 := scaled_lookup_last _ s arr _ Hlen). }
  assert (HQ1 : nth (length s) b1 nzero = (nunit ⊖ s_ref) ⊗ nth (length s) arr nzero).
  { apply nth_lookup_Some with (d := nzero) (1 := scaled_lookup_last _ s arr _ Hlen). }
  assert (Hsum : sum (column (length s) [b0; b1]) = nth (length s) arr nzero).
  { change (sum (column (length s) [b0; b1]))
      with (nzero ⊕ nth (length s) b0 nzero ⊕ nth (length s) b1 nzero).
    rewrite HQ0, HQ1. simpl. ring. }
  rewrite (Mixer_init_state_many (length s) [b0; b1] m);
    [ | rewrite Hm; reflexivity | simpl; lia | repeat constructor; assumption
      | left; rewrite Hsum; exact (Qc_not_zero _ HQ) ].
  unfold logged. cbn [outcome final SanUnit._state SanUnit.set_dstate SanUnit.set_state].
  split; [reflexivity|]. f_equal.
  rewrite Hsum.
  apply (list_eq_same_length _ _ (S (length s)));
    [ exact Hlen
    | unfold append; rewrite length_app, !length_map, length_seq; simpl; lia |].
  intros j x y Hj Hx Hy. unfold append in Hx.
  destruct (decide (j = length s)) as [->|Hne].
  - rewrite lookup_app_r in Hx by (rewrite !length_map, length_seq; lia).
    rewrite !length_map, length_seq, Nat.sub_diag in Hx. injection Hx as <-.
    apply (nth_lookup_Some _ _ nzero) in Hy. exact Hy.
  - assert (Hlt : j < length s) by lia.
    rewrite lookup_app_l in Hx by (rewrite !length_map, length_seq; lia).
    rewrite list_lookup_fmap in Hx.
    rewrite (matmul_lookup _ [b0; b1] (length s) j) in Hx
      by (auto; repeat constructor; assumption).
    simpl in Hx. injection Hx as <-.
    apply (nth_lookup_Some _ _ nzero) in Hy. rewrite <- Hy.
    assert (H0 : nth j b0 nzero = (nth j s nzero ⊘ s_ref) ⊗ nth j arr nzero).
    { apply nth_lookup_Some with (d := nzero)
        (1 := scaled_lookup (fun x => x ⊘ s_ref) s arr _ j Hlen Hlt). }
    assert (H1 : nth j b1 nzero
                 = ((nunit ⊖ nth j s nzero) ⊘ (nunit ⊖ s_ref)) ⊗ nth j arr nzero).
    { apply nth_lookup_Some with (d := nzero)
        (1 := scaled_lookup (fun x => (nunit ⊖ x) ⊘ (nunit ⊖ s_ref)) s arr _ j Hlen Hlt). }
    simpl in HQ0, HQ1, H0, H1, HQ. unfold dot, sum. simpl.
    rewrite HQ0, HQ1, H0, H1. field. repeat split; assumption.
Qed.

Lemma Splitter_then_Mixer_restores_state_witness :
  let s1 : Stream.t Qc := Stream.Mk (Some [Q2Qc 100; Q2Qc 1000; Q2Qc 10]) None ∅ in
  let u := Splitter.__init__ [s1] [Stream.fresh; Stream.fresh] ["X"; "H2O"]%string
             [Q2Qc (1 # 2); Q2Qc (1 # 4)] in
  let arr := [Q2Qc 80; Q2Qc 900; Q2Qc 12] in
  let branches :=
    SanUnit.outs (final ((Splitter._init_state;; Splitter._update_state arr) u)) in
  let m := SanUnit.__init__ branches [Stream.fresh] ["X"; "H2O"]%string in
  SanUnit._state (final (Mixer._init_state m)) = Some arr.
Proof.
  intros s1 u arr branches m.
  apply (Splitter_then_Mixer_restores_state u m [Q2Qc 100; Q2Qc 1000; Q2Qc 10]
           [Q2Qc (1 # 2); Q2Qc (1 # 4)] arr [] 1 (Q2Qc (1 # 4)) Stream.fresh Stream.fresh);
    try reflexivity; discriminate.
Defined.

(** ** Pump *)

(** X17. A Pump hands on what it is given. Once [_update_state] has
    stored [arr] and the function that [ODE] compiles has been called
    with the upstream derivative [d], the unit and its output hold [arr]
    as state and [d] as derivative, whatever the time, the upstream
    state and the state passed to the function are; nothing is divided.
    Without an upstream derivative the call raises [IndexError] and the
    derivative vector of the unit is left as it was. *)
Theorem Pump_hands_on_state_and_derivative {A : Type} `{NA : Num A}
    (u : SanUnit.t A) (t : A) (arr d QC : list A) (QC_ins drest : list (list A))
    (o : Stream.t A) (os : list (Stream.t A))
    (Houts : SanUnit.outs u = o :: os)
    (Hode : SanUnit._ODE u = None \/ SanUnit._ODE u = Some Pump_dy_dt) :
  let r := (Pump._update_state arr;;
            f ← Pump.ODE; call f t QC_ins QC (d :: drest)) u in
  let r' := (f ← Pump.ODE; call f t QC_ins QC []) u in
  outcome r = inr tt
  /\ divisors r = []
  /\ SanUnit._state (final r) = Some arr
  /\ SanUnit._dstate (final r) = Some d
  /\ SanUnit.outs (final r)
     = Stream.set_dstate (Some d) (Stream.set_state (Some arr) o) :: os
  /\ outcome r' = inl IndexError
  /\ SanUnit._dstate (final r') = SanUnit._dstate u
  /\ SanUnit.outs (final r') = SanUnit.outs u.
Proof.
  intros r r'. subst r r'. unfold Pump._update_state.
  rewrite bind_assoc, bind_modify.
  rewrite (bind_run _ _ _ _ _
             (set_out_state_run (SanUnit.set_state (Some arr) u) 0 _ o
                ltac:(simpl; rewrite Houts; reflexivity))).
  set (u1 := SanUnit.set_outs _ _).
  rewrite (bind_run _ _ _ _ _ (Pump_ODE_run u1 Hode)).
  rewrite (bind_run _ _ _ _ _ (Pump_ODE_run u Hode)). subst u1.
  unfold call, Pump.dy_dt. simpl row0. rewrite bind_lift, bind_modify, bind_lift_raise.
  unfold Pump._update_dstate. rewrite bind_gets.
  erewrite set_out_dstate_run by (simpl; rewrite Houts; reflexivity).
  simpl. rewrite Houts. repeat split.
Qed.

Lemma Pump_hands_on_state_and_derivative_witness :
  let s1 : Stream.t float := Stream.Mk (Some [100; 0; 10]%float) None ∅ in
  let u := SanUnit.__init__ [s1] [Stream.fresh] ["X"; "Y"]%string in
  let r := (Pump._update_state [80; 1; 12]%float;;
            f ← Pump.ODE;
            call f 0%float [[100; 0; 10]]%float [80; 1; 12]%float [[1; 2; 3]]%float) u in
  SanUnit.outs (final r) = [Stream.Mk (Some [80; 1; 12]%float) (Some [1; 2; 3]%float) ∅].
Proof.
  intros s1 u r.
  destruct (Pump_hands_on_state_and_derivative u 0%float [80; 1; 12]%float
              [1; 2; 3]%float [80; 1; 12]%float [[100; 0; 10]]%float [] Stream.fresh [])
    as (_ & _ & _ & _ & Ho & _); [reflexivity | left; reflexivity | exact Ho].
Defined.

(** ** WWTpump: the constructor *)

(** X18. The constructor of a WWTpump accepts exactly the case variants
    of the valid pump types. Given one, it stores the valid type as
    [_valid_pump_types] spells it, and [Q_mgd] as given; given anything
    else it raises the [ValueError] of the setter with the value that
    was given. *)
Theorem WWTpump_init_accepts_valid_types {A : Type} (F : A) (pump_type : string)
    (Q : option A) :
  (forall t, t ∈ WWTpump._valid_pump_types -> WWTpump.lower pump_type = WWTpump.lower t ->
     WWTpump.__init__ F pump_type Q = inr (WWTpump.Mk F (Some t) Q))
  /\ ((forall t, t ∈ WWTpump._valid_pump_types ->
         WWTpump.lower pump_type <> WWTpump.lower t) ->
      WWTpump.__init__ F pump_type Q = inl (WWTpump.pump_type_is_not_valid pump_type)).
Proof.
  unfold WWTpump.__init__, WWTpump.pump_type_setter. split.
  - intros t Ht Hl. rewrite Hl. clear Hl. unfold WWTpump._valid_pump_types in Ht.
    repeat (apply elem_of_cons in Ht as [-> | Ht]); try reflexivity.
    apply elem_of_nil in Ht. destruct Ht.
  - intros Hnone.
    destruct (decide (_ ∉ WWTpump._valid_pump_types)) as [|Hin]; [reflexivity|].
    apply dec_stable in Hin. exfalso. apply (Hnone _ Hin).
    rewrite !lower_replace by (discriminate || reflexivity).
    symmetry. apply lower_lower.
Qed.

Lemma WWTpump_init_accepts_valid_types_witness :
  WWTpump.__init__ 1%float "Retentate_af" (Some 2%float)
  = inr (WWTpump.Mk 1%float (Some "retentate_AF"%string) (Some 2%float)).
Proof.
  apply (proj1 (WWTpump_init_accepts_valid_types 1%float "Retentate_af" (Some 2%float))).
  - unfold WWTpump._valid_pump_types. rewrite !elem_of_cons. tauto.
  - reflexivity.
Defined.

(** ** Splitter: the reference component *)

(** X19. The reference component of a Splitter is the one that the name
    ["H2O"] stands for. When it stands for none, being neither the ID of
    a component nor another name that the registry has for one,
    [_init_state] raises; by then it has stored the state of the first
    input and a derivative vector, but no scale vector, and the outputs
    are untouched. [_update_state] on a unit that has no scale vector
    raises [AttributeError] once it has stored the vector it was
    given. *)
Theorem Splitter_needs_reference_component {A : Type} `{NA : Num A}
    (u : SanUnit.t A) (row s arr : list A) (rest : list (list A))
    (Hins : map Stream._state (SanUnit.ins u) = map Some (row :: rest))
    (Hs : SanUnit.split u = Some s)
    (Hnone : SanUnit._split_out0_state u = None)
    (Hwater : resolve "H2O" (SanUnit.components u) (SanUnit.synonyms u)
              = inl (UndefinedChemical "H2O")) :
  let r := Splitter._init_state u in
  let r' := Splitter._update_state arr (final r) in
  r = MkRun []
        (SanUnit.set_dstate (Some (map (fun x => x ⊗ nzero) row))
           (SanUnit.set_state (Some row) u))
        (inl (UndefinedChemical "H2O"))
  /\ r' = MkRun [] (SanUnit.set_state (Some arr) (final r)) (inl AttributeError).
Proof.
  intros r r'.
  assert (Hr : r = MkRun []
                     (SanUnit.set_dstate (Some (map (fun x => x ⊗ nzero) row))
                        (SanUnit.set_state (Some row) u))
                     (inl (UndefinedChemical "H2O"))).
  { subst r. unfold Splitter._init_state.
    rewrite (bind_run _ _ _ _ _ (collect_ins_state_run u _ Hins)).
    simpl row0. repeat mstep.
    rewrite (bind_gets_array _ _ _ row) by reflexivity. repeat mstep.
    rewrite (bind_gets_attr _ _ _ s) by exact Hs. repeat mstep.
    simpl SanUnit.components. simpl SanUnit.synonyms.
    rewrite (index_refused _ _ _ Hwater).
    rewrite bind_lift_raise. reflexivity. }
  split; [exact Hr|].
  subst r'. rewrite Hr. cbn [final]. unfold Splitter._update_state.
  rewrite bind_modify. rewrite bind_gets_attr_None by exact Hnone. reflexivity.
Qed.

Lemma Splitter_needs_reference_component_witness :
  let s1 : Stream.t float := Stream.Mk (Some [100; 1000; 10]%float) None ∅ in
  let u := Splitter.__init__ [s1] [Stream.fresh; Stream.fresh] ["X"; "Y"]%string
             [0.5; 0.25]%float in
  outcome (Splitter._init_state u) = inl (UndefinedChemical "H2O")
  /\ SanUnit._state (final (Splitter._init_state u)) = Some [100; 1000; 10]%float.
Proof.
  intros s1 u.
  destruct (Splitter_needs_reference_component u [100; 1000; 10]%float [0.5; 0.25]%float
              [] []) as (Hr & _).
  - reflexivity.
  - reflexivity.
  - reflexivity.
  - reflexivity.
  - rewrite Hr. split; reflexivity.
Defined.

(** ** Mixer: the total flow as a divisor *)

(** X20. [Mixer._init_state] with several inputs divides once, by the
    total flow of the inputs, and checks nothing before. When the total
    flow is not zero it completes. When it is zero, and there is a
    component, the division raises [FloatingPointError] and the unit is
    as it was: no state, no derivative vector have been assigned. With
    at most one input it divides by nothing. *)
Theorem Mixer_init_state_divides_by_total_flow {A : Type} `{NA : Num A}
    (n : nat) (QCs : list (list A)) (u : SanUnit.t A)
    (Hins : map Stream._state (SanUnit.ins u) = map Some QCs)
    (Hrows : Forall (fun r => length r = S n) QCs) :
  let r := Mixer._init_state u in
  let Q := sum (column n QCs) in
  (1 < length QCs ->
   (is_zero Q = false ->
    outcome r = inr tt /\ divisors r = [Q] /\ divides_by_zero r = false)
   /\ (is_zero Q = true -> 0 < n ->
       outcome r = inl FloatingPointError /\ divisors r = [Q]
       /\ divides_by_zero r = true /\ final r = u))
  /\ (length QCs <= 1 -> divisors r = []).
Proof.
  intros r Q. subst r Q. split.
  - intros Hmany. split.
    + intros HQ.
      rewrite (Mixer_init_state_many n QCs u Hins Hmany Hrows (or_introl HQ)).
      unfold divides_by_zero, logged. cbn [outcome divisors existsb].
      rewrite HQ. repeat split.
    + intros HQ Hn. rewrite (Mixer_init_state_zero n QCs u Hins Hmany Hrows Hn HQ).
      unfold divides_by_zero. cbn [outcome divisors existsb final].
      rewrite HQ. repeat split.
  - intros Hone. unfold Mixer._init_state.
    rewrite (bind_run _ _ _ _ _ (collect_ins_state_run u QCs Hins)).
    rewrite decide_True by exact Hone.
    destruct QCs as [|row [|? ?]]; simpl in Hone; try lia; simpl row0.
    + rewrite bind_assoc, bind_lift_raise. reflexivity.
    + repeat mstep. rewrite (bind_gets_array _ _ _ row) by reflexivity. reflexivity.
Qed.

Lemma Mixer_init_state_divides_by_total_flow_witness :
  let s1 : Stream.t float := Stream.Mk (Some [100; 0; 0]%float) None ∅ in
  let s2 : Stream.t float := Stream.Mk (Some [0; 200; 0]%float) None ∅ in
  let u := SanUnit.__init__ [s1; s2] [Stream.fresh] ["X"; "Y"]%string in
  outcome (Mixer._init_state u) = inl FloatingPointError
  /\ divisors (Mixer._init_state u) = [0%float]
  /\ final (Mixer._init_state u) = u.
Proof.
  intros s1 s2 u.
  destruct (Mixer_init_state_divides_by_total_flow 2 [[100; 0; 0]; [0; 200; 0]]%float u)
    as (Hmany & _); [reflexivity | repeat constructor |].
  destruct Hmany as (_ & Hzero); [simpl; lia|].
  destruct Hzero as (Ho & Hd & _ & Hf); [reflexivity | lia |].
  split; [exact Ho|]. split; [exact Hd|exact Hf].
Defined.

(** ** The Delay Node: from its own _init_state to its ODE *)

Section DelayLifecycle.
Context {A : Type} `{NA : Num A}.

Lemma item_last_snoc (v : list A) (x : A) : item_last (v ++ [x]) = inr x.
Proof. unfold item_last. rewrite last_snoc. reflexivity. Qed.

(** [HydraulicDelay._init_state] assigns nothing but [_state]. *)
Lemma HydraulicDelay_init_state_frame (u : SanUnit.t A) :
  let r := HydraulicDelay._init_state u in
  final r = SanUnit.set_state (SanUnit._state (final r)) u.
Proof.
  unfold HydraulicDelay._init_state, SanUnit._collect_ins_state.
  unfold mbind, M_bind, bind. simpl.
  destruct (res_mapM _ (SanUnit.ins u)) as [e|[|row rest]]; simpl;
    try (destruct u; reflexivity).
  destruct (SanUnit._concs u) as [Cs|]; simpl; [|reflexivity].
  destruct (set_but_last row Cs); reflexivity.
Qed.

(** The function of a Delay Node on a unit that has no derivative
    vector: it stops at its first assignment to the vector, unless the
    division by [T], which the branch of a changing inflow makes before
    it assigns, has raised. *)
Lemma HydraulicDelay_dy_dt_needs_dstate (T t : A) (qrow QC drow : list A)
    (qrest drest : list (list A)) (u : SanUnit.t A) :
  qrow <> [] -> QC <> [] -> drow <> [] ->
  SanUnit._dstate u = None ->
  outcome (HydraulicDelay.dy_dt T t (qrow :: qrest) QC (drow :: drest) u)
  = inl (if negb (is_zero (default nzero (last drow))) && is_zero T
         then FloatingPointError else TypeError).
Proof.
  intros Hq HQC Hd Hnone.
  destruct (exists_last Hq) as (C_in & Q_in & ->).
  destruct (exists_last HQC) as (C & Q & ->).
  destruct (exists_last Hd) as (dC_in & dQ_in & ->).
  rewrite last_snoc. change (default nzero (Some dQ_in)) with dQ_in.
  unfold HydraulicDelay.dy_dt. simpl row0.
  mstep. rewrite !item_last_snoc. do 3 mstep. rewrite item_last_snoc. mstep.
  rewrite outcome_bind. destruct (is_zero dQ_in); cbn [negb andb].
  - rewrite bind_gets_array_None by exact Hnone. reflexivity.
  - destruct (is_zero T) eqn:HzT.
    + rewrite bind_divide_zero by exact HzT. reflexivity.
    + rewrite bind_divide by exact HzT. unfold logged. cbn [outcome].
      rewrite bind_gets_array_None by exact Hnone. reflexivity.
Qed.
End DelayLifecycle.

(** X21. A Delay Node that has no derivative vector and is initialised
    by its own [_init_state] cannot evaluate its [ODE]: whatever the
    inputs, the override and the arrays passed (no row being empty), the
    function raises, because [_init_state] has assigned nothing but the
    state. It raises a [TypeError] at its first assignment to the
    derivative vector; except that with a changing inflow and a
    [t_delay] of zero the division by [t_delay], which comes before that
    assignment, has already raised [FloatingPointError]. *)
Theorem HydraulicDelay_own_init_state_breaks_ODE {A : Type} `{NA : Num A}
    (u : SanUnit.t A) (T t : A) (qrow QC drow : list A) (qrest drest : list (list A))
    (Hinit : outcome (HydraulicDelay._init_state u) = inr tt)
    (Hnone : SanUnit._dstate u = None)
    (HT : SanUnit.t_delay u = Some T)
    (Hode : SanUnit._ODE u = None \/ SanUnit._ODE u = Some (HydraulicDelay_dy_dt T))
    (Hq : qrow <> []) (HQC : QC <> []) (Hd : drow <> []) :
  let u1 := final (HydraulicDelay._init_state u) in
  let r := (HydraulicDelay._init_state;;
            f ← HydraulicDelay.ODE; call f t (qrow :: qrest) QC (drow :: drest)) u in
  u1 = SanUnit.set_state (SanUnit._state u1) u
  /\ outcome r = inl (if negb (is_zero (default nzero (last drow))) && is_zero T
                      then FloatingPointError else TypeError).
Proof.
  intros u1 r. subst r.
  assert (Hframe : u1 = SanUnit.set_state (SanUnit._state u1) u)
    by apply HydraulicDelay_init_state_frame.
  split; [exact Hframe|].
  rewrite outcome_bind, Hinit. fold u1.
  assert (HT1 : SanUnit.t_delay u1 = Some T) by (rewrite Hframe; exact HT).
  assert (Hode1 : SanUnit._ODE u1 = None \/ SanUnit._ODE u1 = Some (HydraulicDelay_dy_dt T))
    by (rewrite Hframe; exact Hode).
  assert (Hnone1 : SanUnit._dstate u1 = None) by (rewrite Hframe; exact Hnone).
  rewrite (bind_run _ _ _ _ _ (HydraulicDelay_ODE_run u1 T HT1 Hode1)).
  unfold call. apply HydraulicDelay_dy_dt_needs_dstate; auto.
Qed.

Lemma HydraulicDelay_own_init_state_breaks_ODE_witness :
  let s1 : Stream.t float := Stream.Mk (Some [100; 0; 10]%float) None ∅ in
  let u := HydraulicDelay.__init__ [s1] [Stream.fresh] ["X"; "Y"]%string (Some 2%float) in
  outcome ((HydraulicDelay._init_state;;
            f ← HydraulicDelay.ODE;
            call f 0%float [[100; 0; 10]]%float [100; 0; 10]%float [[1; 2; 3]]%float) u)
  = inl TypeError.
Proof.
  intros s1 u.
  apply (proj2 (HydraulicDelay_own_init_state_breaks_ODE u 2%float 0%float
                  [100; 0; 10]%float [100; 0; 10]%float [1; 2; 3]%float [] []
                  eq_refl eq_refl eq_refl (or_introl eq_refl)
                  ltac:(discriminate) ltac:(discriminate) ltac:(discriminate))).
Defined.
